(** * Z3D recordings: header and schedule blocks, GPS stamp scanning,
      block-length reconciliation and GPS-to-UTC conversion.

    A shallow embedding of [mtpy/usgs/zen.py] (classes [Z3D_Header],
    [Z3D_Schedule_metadata], [Zen3D]) and of the [ts] setter of
    [mtpy/core/ts.py].  The source is Python 2: [str] is a byte string,
    [/] on integers is floor division, [file.read n] returns at most [n]
    bytes and never fails on a short file.  Floats are the rationals they
    stand for, every operation on them rounded to the precision of its
    format. *)

From Stdlib Require Import ZArith QArith Qround Qabs Qpower Ascii String.
From Stdlib Require Import Floats.SpecFloat.
From stdpp Require Import base decidable option list strings gmap.

Local Open Scope string_scope.
Local Open Scope Z_scope.
Local Open Scope list_scope.

(** ** Exceptions and outcomes *)

(** The exceptions the modelled code can raise.  [StructError] is
    [struct.error]; none of them is caught by the code except the
    [IndexError] of the look-ahead in the stamp loop and the [ValueError]
    of the first [float] attempt in [convert_value]. *)
Inductive exn : Type :=
  | IndexError
  | AttributeError
  | TypeError
  | ValueError
  | StructError.

Inductive result (A : Type) : Type :=
  | Ok (a : A)
  | Raise (e : exn).
Arguments Ok {A} a.
Arguments Raise {A} e.

Global Instance exn_eq_dec : EqDecision exn.
Proof. solve_decision. Defined.

Global Instance result_eq_dec {A : Type} `{EqDecision A} : EqDecision (result A).
Proof. solve_decision. Defined.

Global Instance result_bind : MBind result := λ A B k r,
  match r with
  | Ok a => k a
  | Raise e => Raise e
  end.

Definition raises {A : Type} (r : result A) : Prop := ∃ e, r = Raise e.

(** ** Python byte strings *)

Module Py.

(** [c in ' \t\n\r\x0b\x0c'], the characters [str.strip()] removes. *)
Definition isspace (c : ascii) : bool :=
  let n := nat_of_ascii c in
  ((n =? 32) || ((9 <=? n) && (n <=? 13)))%nat.

Definition isupper (c : ascii) : bool :=
  let n := nat_of_ascii c in ((65 <=? n) && (n <=? 90))%nat.

Definition isdigit (c : ascii) : bool :=
  let n := nat_of_ascii c in ((48 <=? n) && (n <=? 57))%nat.

Definition lower_char (c : ascii) : ascii :=
  if isupper c then ascii_of_nat (nat_of_ascii c + 32) else c.

(** [s.lower()] *)
Fixpoint lower (s : string) : string :=
  match s with
  | "" => ""
  | String c s' => String (lower_char c) (lower s')
  end.

Fixpoint lstrip (s : string) : string :=
  match s with
  | "" => ""
  | String c s' => if isspace c then lstrip s' else s
  end.

Fixpoint rstrip (s : string) : string :=
  match s with
  | "" => ""
  | String c s' =>
      match rstrip s' with
      | "" => if isspace c then "" else String c ""
      | r => String c r
      end
  end.

(** [s.strip()] *)
Definition strip (s : string) : string := rstrip (lstrip s).

(** [s.find(c)] for a one-character needle: first index, or [-1]. *)
Fixpoint find (c : ascii) (s : string) : Z :=
  match s with
  | "" => -1
  | String d s' =>
      if Ascii.eqb d c then 0
      else let r := find c s' in if r <? 0 then -1 else r + 1
  end.

(** [s.split(c)] for a one-character separator; never the empty list. *)
Fixpoint split (c : ascii) (s : string) : list string :=
  match s with
  | "" => [""]
  | String d s' =>
      if Ascii.eqb d c then "" :: split c s'
      else match split c s' with
           | [] => [String d ""]
           | w :: ws => String d w :: ws
           end
  end.

(** [s.replace(c, new)] for a one-character pattern. *)
Fixpoint replace (c : ascii) (new : string) (s : string) : string :=
  match s with
  | "" => ""
  | String d s' =>
      if Ascii.eqb d c then new +:+ replace c new s'
      else String d (replace c new s')
  end.

(** [s[0:n]] and [s[n:]] for a non-negative [n]. *)
Fixpoint take (n : nat) (s : string) : string :=
  match n, s with
  | S n', String c s' => String c (take n' s')
  | _, _ => ""
  end.

Fixpoint drop (n : nat) (s : string) : string :=
  match n, s with
  | S n', String _ s' => drop n' s'
  | _, _ => s
  end.

Fixpoint all_digits (s : string) : bool :=
  match s with
  | "" => true
  | String c s' => isdigit c && all_digits s'
  end.

Fixpoint digits_value (acc : Z) (s : string) : Z :=
  match s with
  | "" => acc
  | String c s' => digits_value (10 * acc + (Z.of_nat (nat_of_ascii c) - 48)) s'
  end.

Definition unsigned_int (s : string) : option Z :=
  match s with
  | "" => None
  | _ => if all_digits s then Some (digits_value 0 s) else None
  end.

(** [int(s)] in base ten: surrounding whitespace, an optional sign and
    at least one digit; anything else is a [ValueError]. *)
Definition int (s : string) : result Z :=
  let body := strip s in
  let parsed :=
    match body with
    | String "-" r => Z.opp <$> unsigned_int r
    | String "+" r => unsigned_int r
    | _ => unsigned_int body
    end in
  match parsed with
  | Some z => Ok z
  | None => Raise ValueError
  end.

Definition digit_char (d : Z) : ascii := ascii_of_nat (Z.to_nat d + 48).

Fixpoint decimal_go (fuel : nat) (n : Z) (acc : string) : string :=
  match fuel with
  | O => acc
  | S fuel' =>
      let acc' := String (digit_char (n mod 10)) acc in
      if n <? 10 then acc' else decimal_go fuel' (n / 10) acc'
  end.

(** The decimal digits of a non-negative integer. *)
Definition decimal (n : Z) : string :=
  decimal_go (S (Z.to_nat (Z.log2 n))) n "".

Fixpoint zeros (n : nat) : string :=
  match n with
  | O => ""
  | S n' => String "0" (zeros n')
  end.

(** ['{:0w}'.format(n)]: sign-aware zero padding to width [w]. *)
Definition format_0w (w : nat) (n : Z) : string :=
  let sign := if n <? 0 then "-" else "" in
  let ds := decimal (Z.abs n) in
  sign +:+ zeros (w - String.length sign - String.length ds) +:+ ds.

Fixpoint skip_digits (s : string) : nat * string :=
  match s with
  | String c s' =>
      if isdigit c then let '(n, r) := skip_digits s' in (S n, r) else (O, s)
  | "" => (O, "")
  end.

Definition drop_sign (s : string) : string :=
  match s with
  | String "+" r => r
  | String "-" r => r
  | _ => s
  end.

(** Whether the built-in [float(s)] succeeds: surrounding whitespace, an
    optional sign, then [inf], [infinity] or [nan] in any case, or
    decimal digits with an optional point and an optional exponent.
    When it fails the built-in raises [ValueError]. *)
Definition float_ok (s : string) : bool :=
  let b := drop_sign (strip s) in
  let lb := lower b in
  if bool_decide (lb = "inf" ∨ lb = "infinity" ∨ lb = "nan") then true
  else
    let '(n1, r1) := skip_digits b in
    let '(n2, r2) :=
      match r1 with
      | String "." r => skip_digits r
      | _ => (O, r1)
      end in
    if (n1 + n2 =? 0)%nat then false
    else match r2 with
         | "" => true
         | String c r3 =>
             if bool_decide (c = "e"%char ∨ c = "E"%char) then
               let '(n3, r4) := skip_digits (drop_sign r3) in
               negb (n3 =? 0)%nat && bool_decide (r4 = "")
             else false
         end.

End Py.

(** [xs[i]] on a Python list, for a non-negative [i]. *)
Definition index {A : Type} (xs : list A) (i : nat) : result A :=
  match xs !! i with
  | Some x => Ok x
  | None => Raise IndexError
  end.

(** A [for] loop whose body may raise: the first exception ends it. *)
Fixpoint for_each {S A : Type} (body : S → A → result S) (s : S) (xs : list A)
    : result S :=
  match xs with
  | [] => Ok s
  | x :: xs' => s' ← body s x; for_each body s' xs'
  end.

Definition newline : ascii := ascii_of_nat 10.

(** ** Z3D_Header *)

Module Z3D_Header.

(** What an attribute holds.  The numeric value of a [float] is not
    needed here, so a number is carried by the text it was parsed from:
    [HFloat s] is [float(s)], [HDegrees s] is [np.rad2deg(float(s))].
    [HFile s] is an open file object whose content is [s]. *)
Inductive hvalue : Type :=
  | HFloat (text : string)
  | HText (text : string)
  | HDegrees (text : string)
  | HFile (content : string).

(** The attributes of the instance; an attribute still holding the
    [None] of [__init__] is absent from the map. *)
Abbreviation attrs := (gmap string hvalue).

Definition _header_len : nat := 512.

Definition convert_value (key_string value_string : string) : result hvalue :=
  let return_value :=
    if Py.float_ok value_string then HFloat value_string
    else HText value_string in
  if bool_decide (Py.lower key_string = "lat" ∨ Py.lower key_string = "long")
  then if Py.float_ok value_string then Ok (HDegrees value_string)
       else Raise ValueError
  else Ok return_value.

(** The key computed from a line that passed the [find('=') > 0] test. *)
Definition h_key (h_str : string) : string :=
  let h_list := Py.split "=" h_str in
  let k := Py.lower (Py.strip (default "" (head h_list))) in
  Py.replace "." "_" (Py.replace "/" "" (Py.replace " " "_" k)).

(** [setattr(self, name, value)] on an instance of this new-style
    class: [__class__] and [__dict__] take no number or text, and
    [__weakref__] is not writable; every other name is stored. *)
Definition setattr (self : attrs) (name : string) (value : hvalue)
    : result attrs :=
  if bool_decide (name = "__class__" ∨ name = "__dict__") then Raise TypeError
  else if bool_decide (name = "__weakref__") then Raise AttributeError
  else Ok (<[name := value]> self).

(** One iteration of the loop over the header lines.  [self.convert_value]
    is looked up on the instance, so a line that stored an attribute of
    that name has replaced the method by a value that cannot be called. *)
Definition header_line (self : attrs) (h_str : string) : result attrs :=
  if 0 <? Py.find "=" h_str then
    let h_list := Py.split "=" h_str in
    v ← index h_list 1;
    if bool_decide (is_Some (self !! "convert_value")) then Raise TypeError
    else
      h_value ← convert_value (h_key h_str) (Py.strip v);
      setattr self (h_key h_str) h_value
  else Ok self.

(** [read_header(fid=f)] for a file object [f] whose whole content is
    [fid]: the object is stored in [self.fid], and in either branch open
    to a file object the block is [fid.read(self._header_len)] from offset
    0, which returns the bytes there are when the file is shorter, stored
    in [self.header_str] and split into lines before the loop. *)
Definition read_header (self : attrs) (fid : string) : result attrs :=
  let self := <["fid" := HFile fid]> self in
  let header_str := Py.take _header_len fid in
  let self := <["header_str" := HText header_str]> self in
  for_each header_line self (Py.split newline header_str).

End Z3D_Header.

(** ** Z3D_Schedule_metadata *)

Module Z3D_Schedule_metadata.

(** Attributes are the stripped right-hand sides, kept as text; an
    attribute still [None] is absent. *)
Abbreviation attrs := (gmap string string).

Definition _header_len : nat := 512.

(** [setattr(self, name, value)] for a text [value], on an instance of
    this new-style class: [__class__] and [__dict__] take no text, and
    [__weakref__] is not writable. *)
Definition setattr (self : attrs) (name value : string) : result attrs :=
  if bool_decide (name = "__class__" ∨ name = "__dict__") then Raise TypeError
  else if bool_decide (name = "__weakref__") then Raise AttributeError
  else Ok (<[name := value]> self).

Definition schedule_line (self : attrs) (m_str : string) : result attrs :=
  if 0 <? Py.find "=" m_str then
    let m_list := Py.split "=" m_str in
    lhs ← index m_list 0;
    seg ← index (Py.split "." lhs) 1;
    let m_key := Py.replace "/" "" (Py.strip seg) in
    v ← index m_list 1;
    setattr self m_key (Py.strip v)
  else Ok self.

(** ['{0}{1:02}'.format(Time[0:6], int(Time[6:])+2)] *)
Definition add_two_seconds (time : string) : result string :=
  sec ← Py.int (Py.drop 6 time);
  Ok (Py.take 6 time +:+ Py.format_0w 2 (sec + 2)).

(** [read_schedule_metadata]: the block is read at offset [_header_len];
    slicing a [Time] that is still [None] is a [TypeError]. *)
Definition read_schedule_metadata (self : attrs) (fid : string) : result attrs :=
  let meta_string := Py.take _header_len (Py.drop _header_len fid) in
  self' ← for_each schedule_line self (Py.split newline meta_string);
  match self' !! "Time" with
  | None => Raise TypeError
  | Some time => t ← add_two_seconds time; Ok (<["Time" := t]> self')
  end.

End Z3D_Schedule_metadata.

(** ** Zen3D: the stamp scanner and the block-length check *)

(** [np.where(cond)[0]]: the indices, counted from [k], of the elements
    that satisfy [cond], in increasing order. *)
Fixpoint where_from {A : Type} (cond : A → bool) (k : nat) (xs : list A)
    : list nat :=
  match xs with
  | [] => []
  | x :: xs' =>
      if cond x then k :: where_from cond (S k) xs'
      else where_from cond (S k) xs'
  end.

Definition np_where {A : Type} (cond : A → bool) (xs : list A) : list nat :=
  where_from cond 0%nat xs.

(** [a[z:]] on a sequence; a negative start counts from the end. *)
Definition slice_from {A : Type} (z : Z) (xs : list A) : list A :=
  if 0 <=? z then drop (Z.to_nat z) xs
  else drop (length xs - Z.to_nat (- z)) xs.

(** [data[p:p+n] = 0], clipped to the array like every numpy slice. *)
Definition zero_slice (p n : nat) (data : list Z) : list Z :=
  take p data ++ replicate (length (take n (drop p data))) 0 ++ drop (p + n) data.

Module Zen3D.

Definition _gps_flag_0 : Z := 2147483647.
Definition _gps_flag_1 : Z := -2147483648.
Definition _gps_stamp_length : Z := 64.
(** [self._gps_stamp_length/4], in words. *)
Definition _gps_bytes : nat := Z.to_nat (_gps_stamp_length / 4).

(** One element of [_gps_dtype].  The two [float64] and the two
    [float32] fields are kept as the words they are reinterpreted from
    (low word first). *)
Record gps_stamp : Type := {
  flag0 : Z;
  flag1 : Z;
  time : Z;
  lat : Z * Z;
  lon : Z * Z;
  num_sat : Z;
  gps_sens : Z;
  temperature : Z;
  voltage : Z;
  num_fpga : Z;
  num_adc : Z;
  pps_count : Z;
  dac_tune : Z;
  block_len : Z
}.

(** An element of [np.zeros(n, dtype=_gps_dtype)]. *)
Definition zero_stamp : gps_stamp :=
  {| flag0 := 0; flag1 := 0; time := 0; lat := (0, 0); lon := (0, 0);
     num_sat := 0; gps_sens := 0; temperature := 0; voltage := 0;
     num_fpga := 0; num_adc := 0; pps_count := 0; dac_tune := 0;
     block_len := 0 |}.

(** [np.fromstring(struct.pack('<16i', *ws), dtype=_gps_dtype)] followed
    by the assignment of the ['block_len'] field. *)
Definition unpack_stamp (ws : list Z) (bl : Z) : gps_stamp :=
  let w i := default 0 (ws !! i) in
  {| flag0 := w 0%nat; flag1 := w 1%nat; time := w 2%nat;
     lat := (w 3%nat, w 4%nat); lon := (w 5%nat, w 6%nat);
     num_sat := w 7%nat; gps_sens := w 8%nat; temperature := w 9%nat;
     voltage := w 10%nat; num_fpga := w 11%nat; num_adc := w 12%nat;
     pps_count := w 13%nat; dac_tune := w 14%nat;
     block_len := bl |}.

Definition is_flag_0 (w : Z) : bool := w =? _gps_flag_0.

(** The buffer and the stamp array while the loop of [read_z3d] runs;
    [failed] records the ['***Failed gps stamp***'] report. *)
Record scan_state : Type := {
  data : list Z;
  stamps : list gps_stamp;
  failed : option nat
}.

Inductive step : Type :=
  | Continue (st : scan_state)
  | Break (st : scan_state)
  | Fail (e : exn).

(** The body of [for ii, gps_find in enumerate(gps_stamp_find)].  The
    look-ahead [data[gps_find+1]] past the end is the caught
    [IndexError]; [struct.pack] needs all sixteen words.  Word counts are
    taken to fit the [int32] field ['block_len']. *)
Definition scan_body (gps_stamp_find : list nat) (ii gps_find : nat)
    (st : scan_state) : step :=
  match data st !! S gps_find with
  | None =>
      Break {| data := data st; stamps := stamps st; failed := Some ii |}
  | Some next =>
      if next =? _gps_flag_1 then
        let ws := take _gps_bytes (drop gps_find (data st)) in
        if bool_decide (length ws = _gps_bytes) then
          let bl :=
            if (0 <? ii)%nat then
              Z.of_nat gps_find
              - Z.of_nat (default 0%nat (gps_stamp_find !! (ii - 1)%nat))
              - Z.of_nat _gps_bytes
            else 0 in
          Continue
            {| data := zero_slice gps_find _gps_bytes (data st);
               stamps := <[ii := unpack_stamp ws bl]> (stamps st);
               failed := failed st |}
        else Fail StructError
      else Continue st
  end.

(** The loop from iteration [ii] on; [rest] is what is left of
    [gps_stamp_find]. *)
Fixpoint scan (gps_stamp_find : list nat) (ii : nat) (rest : list nat)
    (st : scan_state) : result scan_state :=
  match rest with
  | [] => Ok st
  | gps_find :: rest' =>
      match scan_body gps_stamp_find ii gps_find st with
      | Continue st' => scan gps_stamp_find (S ii) rest' st'
      | Break st' => Ok st'
      | Fail e => Raise e
      end
  end.

(** The second [np.where], the zeroed stamp array and the loop, on the
    buffer left by the leading trim. *)
Definition scan_start (data1 : list Z) : scan_state :=
  {| data := data1;
     stamps := replicate (length (np_where is_flag_0 data1)) zero_stamp;
     failed := None |}.

Definition extract_stamps (data1 : list Z) : result scan_state :=
  let gps_stamp_find := np_where is_flag_0 data1 in
  scan gps_stamp_find 0 gps_stamp_find (scan_start data1).

(** The attributes of a [Zen3D] object that the data path reads or
    writes.  [ad_rate] is [header.ad_rate], a whole number of samples per
    second held as a float; [ts] is [ts_obj.ts] in counts (the
    conversion to millivolts scales each element and keeps the length);
    [time_series] is [None] while the attribute has never been
    assigned, which is the case in [read_z3d]. *)
Record t : Type := {
  ad_rate : Z;
  gps_stamps : list gps_stamp;
  ts : list Z;
  time_series : option (list Z)
}.

Definition list_max (xs : list nat) : nat := foldr Nat.max 0%nat xs.
Definition zsum (xs : list Z) : Z := foldr Z.add 0 xs.

(** [np.where(self.gps_stamps['block_len'][1:] != self.header.ad_rate)[0]] *)
Definition bad_blocks_of (self : t) : list nat :=
  np_where (λ bl, negb (bl =? ad_rate self))
           (block_len <$> drop 1 (gps_stamps self)).

Definition validate_time_blocks (self : t) : result t :=
  let bad_blocks := bad_blocks_of self in
  if (0 <? length bad_blocks)%nat then
    if (list_max bad_blocks <? 5)%nat then
      let b := default 0%nat (last bad_blocks) in
      let ts_skip := zsum (block_len <$> take (b + 1) (gps_stamps self)) in
      let gps_stamps' := drop b (gps_stamps self) in
      match time_series self with
      | None => Raise AttributeError
      | Some series =>
          Ok {| ad_rate := ad_rate self; gps_stamps := gps_stamps';
                ts := ts self;
                time_series := Some (slice_from ts_skip series) |}
      end
    else Ok self
  else Ok self.

(** What [read_z3d] does to the stamps and to the count of samples once
    the stamps are extracted.  Assigning an empty array to [ts_obj.ts]
    fails in the setter, which indexes the first row of the new frame.
    The steps between the setter and [validate_time_blocks] are not
    modelled: [convert_counts_to_mv] scales every sample, so that [ts]
    below is the series in counts, as assigned, and not the millivolts
    the object ends with; the copies of metadata into [ts_obj] can raise
    (a [float] of an attribute still [None], a setter of [MT_TS]), so
    that [Ok] below is the outcome on the runs on which they return.
    These steps leave the stamps and the number of samples alone; what
    follows the check ([convert_gps_time], [check_start_time]) rewrites
    the ['time'] field only. *)
Definition finish (self : t) (st : scan_state) : result t :=
  let samples := filter (λ w, w ≠ 0) (data st) in
  match samples with
  | [] => Raise IndexError
  | _ =>
      validate_time_blocks
        {| ad_rate := ad_rate self; gps_stamps := stamps st;
           ts := samples; time_series := time_series self |}
  end.

(** [read_z3d] from the point where [data0] is the buffer filled by the
    chunked read loop (the words of the file from [m_tell] on), up to and
    including [validate_time_blocks]. *)
Definition read_z3d (self : t) (data0 : list Z) : result t :=
  let gps_stamp_find := np_where is_flag_0 data0 in
  start ← index gps_stamp_find 3;
  st ← extract_stamps (drop start data0);
  finish self st.

(** A freshly constructed object with the sampling rate of the header. *)
Definition fresh (rate : Z) : t :=
  {| ad_rate := rate; gps_stamps := []; ts := []; time_series := None |}.

End Zen3D.

(** ** GPS week and seconds to UTC *)

(** The three functions of the [time] module that [get_UTC_date_time]
    calls, as they behave on instants from 1970 to the end of the year
    9999. *)
Module PyTime.

(** Days from 1970-01-01 to the civil date [y]-[m]-[d]. *)
Definition days_from_civil (y m d : Z) : Z :=
  let y' := if m <=? 2 then y - 1 else y in
  let era := y' / 400 in
  let yoe := y' - era * 400 in
  let doy := (153 * (m + (if 2 <? m then -3 else 9)) + 2) / 5 + d - 1 in
  let doe := yoe * 365 + yoe / 4 - yoe / 100 + doy in
  era * 146097 + doe - 719468.

Definition civil_from_days (days : Z) : Z * Z * Z :=
  let z := days + 719468 in
  let era := z / 146097 in
  let doe := z - era * 146097 in
  let yoe := (doe - doe / 1460 + doe / 36524 - doe / 146096) / 365 in
  let doy := doe - (365 * yoe + yoe / 4 - yoe / 100) in
  let mp := (5 * doy + 2) / 153 in
  let d := doy - (153 * mp + 2) / 5 + 1 in
  let m := if mp <? 10 then mp + 3 else mp - 9 in
  let y := yoe + era * 400 in
  (if m <=? 2 then y + 1 else y, m, d).

(** year, month, day, hour, minute, second *)
Definition tm : Type := Z * Z * Z * Z * Z * Z.

(** [time.mktime(tm) - time.timezone] for a tuple with [tm_isdst = 0]:
    the local-time offset that [mktime] adds is the one subtracted. *)
Definition timegm (x : tm) : Z :=
  let '(y, m, d, hh, mm, ss) := x in
  days_from_civil y m d * 86400 + hh * 3600 + mm * 60 + ss.

(** [time.gmtime(secs)] on whole seconds. *)
Definition gmtime (secs : Z) : tm :=
  let '(y, m, d) := civil_from_days (secs / 86400) in
  let r := secs mod 86400 in
  (y, m, d, r / 3600, (r mod 3600) / 60, r mod 60).

(** [time.strftime('%Y-%m-%d,%H:%M:%S', tm)] *)
Definition strftime (x : tm) : string :=
  let '(y, m, d, hh, mm, ss) := x in
  Py.format_0w 4 y +:+ "-" +:+ Py.format_0w 2 m +:+ "-" +:+ Py.format_0w 2 d
    +:+ "," +:+ Py.format_0w 2 hh +:+ ":" +:+ Py.format_0w 2 mm
    +:+ ":" +:+ Py.format_0w 2 ss.

End PyTime.

(** [int(x)] on a float and the cast of [gmtime]: towards zero. *)
Definition Qtrunc (x : Q) : Z :=
  if Qle_bool 0 x then Qfloor x else Qceiling x.

(** ** Binary floating point *)

(** A float is the rational it stands for, and an operation of the code
    on floats is the exact operation followed by the rounding of its
    result to the precision of the format, to nearest with ties to even:
    24 significant bits for [np.float32], 53 for a Python float and for
    [np.float64].  The exponent range is not modelled: no value of this
    development comes near overflow or the subnormal numbers. *)
Module Float.

Definition pow2 (k : Z) : Q := (2 ^ k)%Q.

(** The exponent of a positive rational: [2^e <= x < 2^(e+1)]. *)
Definition ilog2 (x : Q) : Z :=
  let e := Z.log2 (Qnum x) - Z.log2 (Zpos (Qden x)) in
  if Qle_bool (pow2 e) x then e else e - 1.

(** The nearest integer, a tie going to the even one. *)
Definition half_even (x : Q) : Z :=
  let f := Qfloor x in
  match (x - inject_Z f ?= 1 # 2)%Q with
  | Lt => f
  | Gt => f + 1
  | Eq => if Z.even f then f else f + 1
  end.

(** The nearest float of [p] significant bits, in lowest terms. *)
Definition round (p : Z) (x : Q) : Q :=
  let x := Qred x in
  if Qeq_bool x 0 then 0%Q
  else
    let ulp := pow2 (ilog2 (Qabs x) - p + 1) in
    Qred (inject_Z (half_even (x / ulp)) * ulp).

Definition fl64 : Q → Q := round 53.

(** [x % 1] on a float: the remainder of [fmod], which is exact and has
    the sign of [x], moved up by one when it is negative. *)
Definition mod1 (x : Q) : Q :=
  let m := (x - inject_Z (Qtrunc x))%Q in
  if Qeq_bool m 0 then 0%Q
  else if Qle_bool 0 m then m
  else fl64 (m + 1).

(** The value of a finite float of the Standard Library's specification
    of IEEE 754 arithmetic, and the correctly rounded quotient of two
    integers there, against which [round] is checked below. *)
Definition SF2Q (f : spec_float) : Q :=
  match f with
  | S754_finite s m e =>
      Qred ((if s then -1 else 1) * inject_Z (Zpos m) * pow2 e)
  | _ => 0%Q
  end.

Definition SFofZ (prec emax z : Z) : spec_float :=
  binary_normalize prec emax z 0 false.

Definition SFquot (prec emax a b : Z) : Q :=
  SF2Q (SFdiv prec emax (SFofZ prec emax a) (SFofZ prec emax b)).

End Float.

(** ** GPS time *)

(** [get_UTC_date_time(gps_week, gps_time)] for a whole [gps_week] and a
    [gps_time] that is a double, as [check_start_time] calls it.  Every
    sum is one of doubles and is rounded. *)
Module GpsTime.
Import Float.

Definition _week_len : Z := 604800.
Definition _gps_epoch : PyTime.tm := (1980, 1, 6, 0, 0, 0).

(** The first statement of [get_UTC_date_time]: the week and the
    seconds after the week check. *)
Definition roll_week (gps_week : Z) (gps_time : Q) : Z * Q :=
  if negb (Qle_bool gps_time (inject_Z _week_len))
  then (gps_week + 1, fl64 (gps_time - inject_Z _week_len))
  else (gps_week, gps_time).

(** [time.mktime(self._gps_epoch) - time.timezone]. *)
Definition epoch_seconds : Z := PyTime.timegm _gps_epoch.

(** The local [gps_seconds]; [leap_seconds] is [self._leap_seconds].
    The sum is taken from the left, [gps_week * self._week_len] first. *)
Definition gps_seconds (leap_seconds gps_week : Z) (gps_time : Q) : Q :=
  let '(week, secs) := roll_week gps_week gps_time in
  let weeks := fl64 (inject_Z week * inject_Z _week_len) in
  let since_epoch := fl64 (inject_Z epoch_seconds + weeks) in
  fl64 (fl64 (since_epoch + secs) - inject_Z leap_seconds).

(** The instants on which the [time] functions are modelled. *)
Definition in_time_range (x : Q) : Prop :=
  (0 <= x)%Q ∧ (x < inject_Z 253402300800)%Q.

Definition get_UTC_date_time (leap_seconds gps_week : Z) (gps_time : Q)
    : string :=
  let '(_, secs) := roll_week gps_week gps_time in
  let mseconds := mod1 secs in
  let '(year, month, day, hour, minutes, seconds) :=
    PyTime.gmtime (Qtrunc (gps_seconds leap_seconds gps_week gps_time)) in
  PyTime.strftime
    (year, month, day, hour, minutes,
     Qtrunc (fl64 (inject_Z seconds + mseconds))).

End GpsTime.

(** ** Specification-side definitions *)

Module Spec.
Import Zen3D.

(** *** Header keys *)

Fixpoint map_chars (f : ascii → string) (s : string) : string :=
  match s with
  | "" => ""
  | String c s' => f c +:+ map_chars f s'
  end.

(** The left-hand side of a line: the text before its first ['=']. *)
Definition lhs (line : string) : string :=
  Py.take (Z.to_nat (Py.find "=" line)) line.

(** The key a line yields, if any: the guard of the loop body and the
    key computed behind it. *)
Definition line_key (h_str : string) : option string :=
  if 0 <? Py.find "=" h_str then Some (Z3D_Header.h_key h_str) else None.

(** The key as the specification words it: lower-cased, spaces to
    underscores, ['/'] and ['.'] removed. *)
Definition claimed_char (c : ascii) : string :=
  if bool_decide (c = " "%char) then "_"
  else if bool_decide (c = "/"%char ∨ c = "."%char) then ""
  else String (Py.lower_char c) "".

Definition claimed_key (left : string) : string := map_chars claimed_char left.

(** The key character by character as the code builds it: the
    left-hand side is trimmed first, ['.'] becomes an underscore. *)
Definition key_char (c : ascii) : string :=
  if bool_decide (c = " "%char ∨ c = "."%char) then "_"
  else if bool_decide (c = "/"%char) then ""
  else String (Py.lower_char c) "".

Definition trimmed_key (left : string) : string :=
  map_chars key_char (Py.strip left).

(** *** Streams made of stamp records and sample blocks *)

(** Sixteen words that begin with the sentinel pair and hold the first
    sentinel nowhere else. *)
Definition stamp_record (ws : list Z) : Prop :=
  length ws = _gps_bytes
  ∧ ws !! 0%nat = Some _gps_flag_0
  ∧ ws !! 1%nat = Some _gps_flag_1
  ∧ Forall (λ w, w ≠ _gps_flag_0) (drop 1 ws).

(** Sample words: any value but the first sentinel. *)
Definition sample_block (ws : list Z) : Prop :=
  Forall (λ w, w ≠ _gps_flag_0) ws.

(** Blocks of samples, each closed by its stamp record. *)
Fixpoint blocks (segs : list (list Z * list Z)) : list Z :=
  match segs with
  | [] => []
  | (samples, rec) :: segs' => samples ++ rec ++ blocks segs'
  end.

Definition well_formed (segs : list (list Z * list Z)) : Prop :=
  Forall (λ seg, sample_block seg.1 ∧ stamp_record seg.2) segs.

(** The positions of the stamp records of [blocks segs] in a buffer
    where they start at offset [off]. *)
Fixpoint positions (off : nat) (segs : list (list Z * list Z)) : list nat :=
  match segs with
  | [] => []
  | (samples, _) :: segs' =>
      (off + length samples)%nat
        :: positions (off + length samples + _gps_bytes) segs'
  end.

(** The buffer after the stamps are zeroed. *)
Fixpoint zeroed_blocks (segs : list (list Z * list Z)) : list Z :=
  match segs with
  | [] => []
  | (samples, rec) :: segs' =>
      samples ++ replicate _gps_bytes 0 ++ zeroed_blocks segs'
  end.

(** The stamp records of [blocks segs] as the loop stores them: each
    with the length of the samples before it. *)
Definition records_of (segs : list (list Z * list Z)) : list gps_stamp :=
  (λ seg, unpack_stamp seg.2 (Z.of_nat (length seg.1))) <$> segs.

(** All sample words of [blocks segs], in order. *)
Definition samples_of (segs : list (list Z * list Z)) : list Z :=
  concat (fst <$> segs).


(** The buffer of a reachable loop state against the buffer the loop
    started from: same length, each word kept or zeroed. *)
Definition zeroed_from (orig cur : list Z) : Prop :=
  length cur = length orig
  ∧ ∀ i w, cur !! i = Some w → w = 0 ∨ orig !! i = Some w.

(** A sentinel pair of the buffer the loop started from. *)
Definition sentinel_pair (orig : list Z) (q : nat) : Prop :=
  orig !! q = Some _gps_flag_0 ∧ orig !! S q = Some _gps_flag_1.

(** Each word of the current buffer is the original one, or is a zero
    inside the record of a sentinel pair. *)
Definition zeroed_in_records (orig cur : list Z) : Prop :=
  length cur = length orig
  ∧ ∀ i : nat,
      cur !! i = orig !! i
      ∨ (cur !! i = Some 0
         ∧ ∃ q : nat, sentinel_pair orig q ∧ (q ≤ i < q + _gps_bytes)%nat).

(** *** Times of day *)

(** The time of day a text [HH:MM:SS] denotes, in seconds after
    midnight; [None] when the text is not a time of day. *)
Definition time_of_day (t : string) : option Z :=
  match Py.split ":" t with
  | [h; m; s] =>
      if bool_decide (String.length h = 2 ∧ String.length m = 2
                      ∧ String.length s = 2)%nat then
        h ← Py.unsigned_int h; m ← Py.unsigned_int m; s ← Py.unsigned_int s;
        if (h <? 24) && (m <? 60) && (s <? 60)
        then Some (3600 * h + 60 * m + s) else None
      else None
  | _ => None
  end.

(** The text [HH:MM:SS] of a time of day. *)
Definition hms (h m s : Z) : string :=
  Py.format_0w 2 h +:+ ":" +:+ Py.format_0w 2 m +:+ ":" +:+ Py.format_0w 2 s.

(** *** Concrete recordings *)

Definition stamp_at (tick : Z) : list Z :=
  [_gps_flag_0; _gps_flag_1; tick; 1; 2; 3; 4; 5; 6; 7; 8; 9; 10; 11; 12; 13].

(** Three leading sentinels, then five stamps; the first two blocks
    hold one sample each where the rate asks for two. *)
Definition two_short_blocks : list Z :=
  [_gps_flag_0; _gps_flag_0; _gps_flag_0]
    ++ stamp_at 1024 ++ [21] ++ stamp_at 2048 ++ [22]
    ++ stamp_at 3072 ++ [23; 24] ++ stamp_at 4096 ++ [25; 26]
    ++ stamp_at 5120.

(** Three leading sentinels, two stamps a full block apart and three
    samples after the last stamp. *)
Definition trailing_samples : list Z :=
  [_gps_flag_0; 5; _gps_flag_0; _gps_flag_0; 7]
    ++ stamp_at 1024 ++ [21; 22] ++ stamp_at 2048 ++ [23; 24; 25].

Definition newline_join (a b : string) : string := a +:+ String newline b.

Definition schedule_at_59 : string :=
  Py.zeros 512
    +:+ newline_join "SCHEDULE.Date = 2015-05-22" "SCHEDULE.Time = 08:00:59".

(** *** Tick counters *)


End Spec.

(** ** Further methods of [Zen3D] *)

Module Zen3DMore.
Import Zen3D.

(** [stamp['block_len'] = bl] on one element of the stamp array. *)
Definition set_block_len (s : gps_stamp) (bl : Z) : gps_stamp :=
  {| flag0 := flag0 s; flag1 := flag1 s; time := time s; lat := lat s;
     lon := lon s; num_sat := num_sat s; gps_sens := gps_sens s;
     temperature := temperature s; voltage := voltage s;
     num_fpga := num_fpga s; num_adc := num_adc s;
     pps_count := pps_count s; dac_tune := dac_tune s; block_len := bl |}.

(** [trim_data]: the sum is taken before the array is cut; writing to
    element 0 of an empty array is the [IndexError]; [time_series] is
    read last. *)
Definition trim_data (self : Zen3D.t) : result Zen3D.t :=
  let ts_skip := zsum (block_len <$> take 3 (gps_stamps self)) in
  match drop 2 (gps_stamps self) with
  | [] => Raise IndexError
  | first :: rest =>
      match time_series self with
      | None => Raise AttributeError
      | Some series =>
          Ok {| ad_rate := ad_rate self;
                gps_stamps := set_block_len first 0 :: rest;
                ts := ts self;
                time_series := Some (slice_from ts_skip series) |}
      end
  end.




(** The first statement of [check_start_time]:
    [get_UTC_date_time(header.gpsweek, gps_stamps['time'][0] + _leap_seconds)],
    with the week a whole number.  [time0] is the [np.float32] that
    [convert_gps_time] stored; its sum with the Python integer is a
    double. *)
Definition zen_start (leap_seconds gpsweek : Z) (time0 : Q) : string :=
  GpsTime.get_UTC_date_time leap_seconds gpsweek
    (Float.fl64 (time0 + inject_Z leap_seconds)).

End Zen3DMore.

(** ** The read loop of [read_z3d] *)

(** How the run of a [while] loop ends: it returns or raises, it spins
    for ever on a state that no longer changes, or the model ran out of
    steps (which [read_data] is shown never to do). *)
Inductive run (A : Type) : Type :=
  | Done (r : result A)
  | Forever
  | OutOfFuel.
Arguments Done {A} r.
Arguments Forever {A}.
Arguments OutOfFuel {A}.

Module Z3DData.
Import Zen3D.

(** [self._block_len = 2**16] bytes, read as [np.int32] words. *)
Definition _block_len : Z := 2 ^ 16.
Definition block_words : nat := Z.to_nat (_block_len / 4).

(** What the loop sees of the open file once header, schedule and
    metadata are parsed: the size [os.path.getsize] gave, the block count
    and the position [m_tell] kept by the metadata reader, and, from that
    position on, the whole [np.int32] words of the file and the number of
    bytes (fewer than four) left after them. *)
Record source : Type := {
  file_size : Z;
  count : Z;
  m_tell : Z;
  words : list Z;
  odd_bytes : nat
}.

(** [data[data_count:data_count+len(test_str)] = test_str], for a slice
    that lies inside [data]. *)
Definition assign (data : list Z) (data_count : nat) (test_str : list Z)
    : list Z :=
  take data_count data ++ test_str
    ++ drop (data_count + length test_str) data.

(** The [while] loop.  [file_id.read(self._block_len)] returns a whole
    block while there is one and the rest of the file after that;
    [np.fromstring] raises [ValueError] on a text that is not a whole
    number of words, and so does the slice assignment when the words do
    not fit between [data_count] and the end of [data].  [limit] is
    [self.metadata.m_tell/4]. *)
Fixpoint read_blocks (fuel : nat) (limit : Z) (rest : list Z) (odd : nat)
    (data : list Z) (data_count : nat) : run (list Z) :=
  if Z.of_nat data_count + limit <? Z.of_nat (length data) then
    match fuel with
    | O => OutOfFuel
    | S fuel' =>
        let test_str := take block_words rest in
        if bool_decide (length rest < block_words ∧ odd ≠ 0)%nat
        then Done (Raise ValueError)
        else if bool_decide (length data - data_count < length test_str)%nat
        then Done (Raise ValueError)
        else if bool_decide (test_str = []) then Forever
        else read_blocks fuel' limit (drop block_words rest) odd
               (assign data data_count test_str)
               (data_count + length test_str)
    end
  else Done (Ok data).

(** From [np.zeros] to the end of the loop: the buffer [data]. *)
Definition read_data (src : source) : run (list Z) :=
  let size := (file_size src - 512 * (2 + count src)) / 4 in
  if size <? 0 then Done (Raise ValueError)
  else read_blocks (S (length (words src))) (m_tell src / 4) (words src)
         (odd_bytes src) (replicate (Z.to_nat size) 0) 0.

(** The read loop, then the rest of [read_z3d] on the buffer. *)
Definition read_z3d_from (self : Zen3D.t) (src : source) : run Zen3D.t :=
  match read_data src with
  | Done (Ok data) => Done (read_z3d self data)
  | Done (Raise e) => Done (Raise e)
  | Forever => Forever
  | OutOfFuel => OutOfFuel
  end.

(** The layout the metadata reader leaves on a file that goes on after
    its last metadata block: [m_tell] is the end of that block, and the
    file holds the words and the odd bytes after it. *)
Definition regular (src : source) : Prop :=
  0 ≤ count src
  ∧ m_tell src = 512 * (2 + count src)
  ∧ file_size src
    = m_tell src + 4 * Z.of_nat (length (words src)) + Z.of_nat (odd_bytes src)
  ∧ (odd_bytes src < 4)%nat.

End Z3DData.

(** ** Pieces of a line *)

Module Text.

(** The text before the first [c], or the whole text without any. *)
Definition before (c : ascii) (s : string) : string :=
  if Py.find c s <? 0 then s else Py.take (Z.to_nat (Py.find c s)) s.

(** The text after the first [c]; empty without any. *)
Definition after (c : ascii) (s : string) : string :=
  if Py.find c s <? 0 then "" else Py.drop (Z.to_nat (Py.find c s + 1)) s.

(** The right-hand side of a line as both readers take it: the text
    between the first and the second ['='], stripped. *)
Definition rhs (line : string) : string :=
  Py.strip (before "=" (after "=" line)).

(** The second ['.']-separated piece of the text before the first ['=']. *)
Definition second_piece (line : string) : string :=
  before "." (after "." (before "=" line)).

(** The attribute name [read_schedule_metadata] takes from a line. *)
Definition schedule_key (line : string) : string :=
  Py.replace "/" "" (Py.strip (second_piece line)).

(** Attribute names that [setattr] stores in the instance like any
    other: all but the three slots of a new-style instance. *)
Definition plain_attribute (name : string) : Prop :=
  name ∉ ["__class__"; "__dict__"; "__weakref__"].

End Text.

(** ** ZenSchedule *)

Module PyStr.

(** [s.startswith(sub)] *)
Fixpoint startswith (sub s : string) : bool :=
  match sub, s with
  | "", _ => true
  | String a sub', String b s' => Ascii.eqb a b && startswith sub' s'
  | String _ _, "" => false
  end.

(** [s.find(sub)]: the lowest index at which [sub] begins, or [-1]. *)
Fixpoint find (sub s : string) : Z :=
  if startswith sub s then 0
  else match s with
       | "" => -1
       | String _ s' => let r := find sub s' in if r <? 0 then -1 else r + 1
       end.

(** [sep.join(xs)] *)
Fixpoint join (sep : string) (xs : list string) : string :=
  match xs with
  | [] => ""
  | x :: rest =>
      match rest with
      | [] => x
      | _ :: _ => x +:+ sep +:+ join sep rest
      end
  end.

End PyStr.

Module ZenSchedule.

(** The values the dictionaries hold: the integers of [__init__] and
    the texts read from a file. *)
Inductive pyval : Type :=
  | PInt (z : Z)
  | PStr (s : string).

(** The attributes [read_schedule] reads or writes; [offset] is not set
    by [__init__]. *)
Record t : Type := {
  sa_list : list (gmap string string);
  meta_dict : gmap string pyval;
  light_dict : gmap string pyval;
  offset : option string
}.

Definition sa_keys : list string :=
  ["date"; "time"; "resync_yn"; "log_yn"; "tx_duty"; "tx_period"; "sr";
   "gain"; "nf_yn"].

(** The dictionaries as [__init__] leaves them. *)
Definition init : t :=
  {| sa_list := [];
     meta_dict := {[ "TX.ID" := PStr "none"; "RX.STN" := PStr "01";
                     "Ch.Cmp" := PStr "HX"; "Ch.Number" := PStr "1";
                     "Ch.varAsp" := PInt 50 ]};
     light_dict := {[ "YellowLight" := PInt 0; "BlueLight" := PInt 1;
                      "RedLight" := PInt 0; "GreenLight" := PInt 1 ]};
     offset := None |}.

(** [for ii, key in enumerate(self.sa_keys): sa_dict[key] = line_list[ii]] *)
Fixpoint fill (keys : list string) (ii : nat) (line_list : list string)
    (sa_dict : gmap string string) : result (gmap string string) :=
  match keys with
  | [] => Ok sa_dict
  | key :: keys' =>
      v ← index line_list ii;
      fill keys' (S ii) line_list (<[key := v]> sa_dict)
  end.

(** [line_list[:-1]] *)
Definition but_last {A : Type} (xs : list A) : list A :=
  take (length xs - 1) xs.

(** The body of the loop over the [|]-separated pieces of a metadata
    line. *)
Definition meta_piece (meta : gmap string pyval) (md : string)
    : result (gmap string pyval) :=
  let md_list := Py.split "," (Py.strip md) in
  v ← index md_list 1;
  k ← index md_list 0;
  Ok (<[k := PStr v]> meta).

(** The body of the loop over the lines of the file. *)
Definition read_line (self : t) (line : string) : result t :=
  if PyStr.find "scheduleaction" line =? 0 then
    piece ← index (Py.split " " (Py.strip line)) 1;
    sa_dict ← fill sa_keys 0 (Py.split "," piece) ∅;
    Ok {| sa_list := sa_list self ++ [sa_dict];
          meta_dict := meta_dict self; light_dict := light_dict self;
          offset := offset self |}
  else if PyStr.find "METADATA" line =? 0 then
    piece ← index (Py.split " " (Py.strip line)) 1;
    meta ← for_each meta_piece (meta_dict self)
             (but_last (Py.split "|" piece));
    Ok {| sa_list := sa_list self; meta_dict := meta;
          light_dict := light_dict self; offset := offset self |}
  else if PyStr.find "offset" line =? 0 then
    v ← index (Py.split " " (Py.strip line)) 1;
    Ok {| sa_list := sa_list self; meta_dict := meta_dict self;
          light_dict := light_dict self; offset := Some v |}
  else if 0 <? PyStr.find "Light" line then
    let line_list := Py.split " " (Py.strip line) in
    k ← index line_list 0;
    match light_dict self !! k with
    | None => Ok self
    | Some _ =>
        v ← index line_list 1;
        Ok {| sa_list := sa_list self; meta_dict := meta_dict self;
              light_dict := <[k := PStr v]> (light_dict self);
              offset := offset self |}
    end
  else Ok self.

(** [read_schedule] on the lines [sfid.readlines()] returns. *)
Definition read_schedule (self : t) (lines : list string) : result t :=
  for_each read_line self lines.

End ZenSchedule.

(** ** Z3D_Metadata *)

Module Z3D_Metadata.

(** An attribute the class manages itself holds a value of its own kind
    until a line of the file names it: [setattr] then replaces it by the
    text of that line. *)
Inductive slot (A : Type) : Type :=
  | Own (a : A)
  | Text (s : string).
Arguments Own {A} a.
Arguments Text {A} s.

(** A row of a calibration table: the cells as numbers (carried by their
    text) or, in [board_cal] only, as the texts themselves. *)
Inductive row : Type :=
  | Floats (cells : list string)
  | Texts (cells : list string).

(** The attributes [read_metadata] reads or writes, on an object built
    without keyword arguments.  The lengths are the 512 of [__init__]
    while they are their own; [fid] is the file object passed in;
    [attrs] holds every other attribute that is not [None], all of them
    texts. *)
Record t : Type := {
  fid : slot unit;
  find_metadata : slot bool;
  _metadata_length : slot unit;
  _header_length : slot unit;
  _schedule_metadata_len : slot unit;
  count : slot Z;
  m_tell : slot Z;
  board_cal : slot (option (list row));
  coil_cal : slot (option (list row));
  attrs : gmap string string
}.

(** [__init__] without keyword arguments. *)
Definition init : t :=
  {| fid := Own (); find_metadata := Own true; _metadata_length := Own ();
     _header_length := Own (); _schedule_metadata_len := Own ();
     count := Own 0; m_tell := Own 0; board_cal := Own None;
     coil_cal := Own None; attrs := ∅ |}.

Definition set_fid (self : t) (v : slot unit) : t :=
  {| fid := v; find_metadata := find_metadata self;
     _metadata_length := _metadata_length self;
     _header_length := _header_length self;
     _schedule_metadata_len := _schedule_metadata_len self;
     count := count self; m_tell := m_tell self;
     board_cal := board_cal self; coil_cal := coil_cal self;
     attrs := attrs self |}.

Definition set_find_metadata (self : t) (v : slot bool) : t :=
  {| fid := fid self; find_metadata := v;
     _metadata_length := _metadata_length self;
     _header_length := _header_length self;
     _schedule_metadata_len := _schedule_metadata_len self;
     count := count self; m_tell := m_tell self;
     board_cal := board_cal self; coil_cal := coil_cal self;
     attrs := attrs self |}.

Definition set_metadata_length (self : t) (v : slot unit) : t :=
  {| fid := fid self; find_metadata := find_metadata self;
     _metadata_length := v;
     _header_length := _header_length self;
     _schedule_metadata_len := _schedule_metadata_len self;
     count := count self; m_tell := m_tell self;
     board_cal := board_cal self; coil_cal := coil_cal self;
     attrs := attrs self |}.

Definition set_header_length (self : t) (v : slot unit) : t :=
  {| fid := fid self; find_metadata := find_metadata self;
     _metadata_length := _metadata_length self;
     _header_length := v;
     _schedule_metadata_len := _schedule_metadata_len self;
     count := count self; m_tell := m_tell self;
     board_cal := board_cal self; coil_cal := coil_cal self;
     attrs := attrs self |}.

Definition set_schedule_metadata_len (self : t) (v : slot unit) : t :=
  {| fid := fid self; find_metadata := find_metadata self;
     _metadata_length := _metadata_length self;
     _header_length := _header_length self;
     _schedule_metadata_len := v;
     count := count self; m_tell := m_tell self;
     board_cal := board_cal self; coil_cal := coil_cal self;
     attrs := attrs self |}.

Definition set_count (self : t) (v : slot Z) : t :=
  {| fid := fid self; find_metadata := find_metadata self;
     _metadata_length := _metadata_length self;
     _header_length := _header_length self;
     _schedule_metadata_len := _schedule_metadata_len self;
     count := v; m_tell := m_tell self;
     board_cal := board_cal self; coil_cal := coil_cal self;
     attrs := attrs self |}.

Definition set_m_tell (self : t) (v : slot Z) : t :=
  {| fid := fid self; find_metadata := find_metadata self;
     _metadata_length := _metadata_length self;
     _header_length := _header_length self;
     _schedule_metadata_len := _schedule_metadata_len self;
     count := count self; m_tell := v;
     board_cal := board_cal self; coil_cal := coil_cal self;
     attrs := attrs self |}.

Definition set_board_cal (self : t) (v : slot (option (list row))) : t :=
  {| fid := fid self; find_metadata := find_metadata self;
     _metadata_length := _metadata_length self;
     _header_length := _header_length self;
     _schedule_metadata_len := _schedule_metadata_len self;
     count := count self; m_tell := m_tell self;
     board_cal := v; coil_cal := coil_cal self;
     attrs := attrs self |}.

Definition set_coil_cal (self : t) (v : slot (option (list row))) : t :=
  {| fid := fid self; find_metadata := find_metadata self;
     _metadata_length := _metadata_length self;
     _header_length := _header_length self;
     _schedule_metadata_len := _schedule_metadata_len self;
     count := count self; m_tell := m_tell self;
     board_cal := board_cal self; coil_cal := v;
     attrs := attrs self |}.

Definition set_attr (self : t) (name value : string) : t :=
  {| fid := fid self; find_metadata := find_metadata self;
     _metadata_length := _metadata_length self;
     _header_length := _header_length self;
     _schedule_metadata_len := _schedule_metadata_len self;
     count := count self; m_tell := m_tell self;
     board_cal := board_cal self; coil_cal := coil_cal self;
     attrs := <[name := value]> (attrs self) |}.

(** [setattr(self, name, value)] for a text [value].  On an instance of
    a new-style class [__class__] and [__dict__] take no text and
    [__weakref__] is not writable. *)
Definition setattr (self : t) (name value : string) : result t :=
  if bool_decide (name = "__class__" ∨ name = "__dict__") then Raise TypeError
  else if bool_decide (name = "__weakref__") then Raise AttributeError
  else if bool_decide (name = "fid") then Ok (set_fid self (Text value))
  else if bool_decide (name = "find_metadata")
  then Ok (set_find_metadata self (Text value))
  else if bool_decide (name = "_metadata_length")
  then Ok (set_metadata_length self (Text value))
  else if bool_decide (name = "_header_length")
  then Ok (set_header_length self (Text value))
  else if bool_decide (name = "_schedule_metadata_len")
  then Ok (set_schedule_metadata_len self (Text value))
  else if bool_decide (name = "count") then Ok (set_count self (Text value))
  else if bool_decide (name = "m_tell") then Ok (set_m_tell self (Text value))
  else if bool_decide (name = "board_cal")
  then Ok (set_board_cal self (Text value))
  else if bool_decide (name = "coil_cal")
  then Ok (set_coil_cal self (Text value))
  else Ok (set_attr self name value).

(** [t_list[0].strip().replace('.', '_')], lower-cased for [setattr]. *)
Definition key_of (t_list : list string) : string :=
  Py.lower (Py.replace "." "_" (Py.strip (default "" (head t_list)))).

(** [s.count(c)] *)
Fixpoint count_char (c : ascii) (s : string) : Z :=
  match s with
  | "" => 0
  | String d s' => (if Ascii.eqb d c then 1 else 0) + count_char c s'
  end.

(** The body of the loop over the [|]-separated pieces of a line with
    more than one [|]. *)
Definition piece (self : t) (t_str : string) : result t :=
  if (Py.find "=" t_str =? -1)
     && (PyStr.find "line.name" (Py.lower t_str) =? -1)
  then Ok self
  else if 0 <=? PyStr.find "line.name" (Py.lower t_str) then
    let t_list := Py.split "," t_str in
    t_value ← index t_list 1;
    setattr self (key_of t_list) (Py.strip t_value)
  else
    let t_list := Py.split "=" t_str in
    t_value ← index t_list 1;
    setattr self (key_of t_list) (Py.strip t_value).

(** [self.board_cal.append(r)] and [self.coil_cal.append(r)]: only a
    list has [append]. *)
Definition append_board (self : t) (r : row) : result t :=
  match board_cal self with
  | Own (Some rows) => Ok (set_board_cal self (Own (Some (rows ++ [r]))))
  | _ => Raise AttributeError
  end.

Definition append_coil (self : t) (r : row) : result t :=
  match coil_cal self with
  | Own (Some rows) => Ok (set_coil_cal self (Own (Some (rows ++ [r]))))
  | _ => Raise AttributeError
  end.

Definition nul : ascii := Ascii.zero.

(** One entry of a board calibration line: numbers when every cell
    parses, the stripped texts otherwise. *)
Definition board_entry (self : t) (t_str : string) : result t :=
  let t_str := Py.replace "|" "" (Py.replace nul "" t_str) in
  let cells := Py.strip <$> Py.split ":" (Py.strip t_str) in
  match board_cal self with
  | Own (Some _) =>
      append_board self
        (if forallb Py.float_ok cells then Floats cells else Texts cells)
  | _ => Raise AttributeError
  end.

(** The branch of a line that holds [cal.brd]. *)
Definition brd (self : t) (test_str : string) : result t :=
  let t_list := Py.split "," test_str in
  v ← index t_list 1;
  self ← setattr self (key_of t_list) v;
  for_each board_entry self (drop 2 t_list).

(** One entry of a coil calibration line: every cell must parse. *)
Definition coil_entry (self : t) (t_str : string) : result t :=
  let cells := Py.strip <$> Py.split ":" t_str in
  match coil_cal self with
  | Own (Some _) =>
      if forallb Py.float_ok cells then append_coil self (Floats cells)
      else Raise ValueError
  | _ => Raise AttributeError
  end.

(** The branch of a line that holds [cal.ant]. *)
Definition ant (self : t) (test_str : string) : result t :=
  if 0 <? Py.find "|" test_str then
    let parts := Py.split "|" test_str in
    odd_str ← index parts 0;
    let odd_list := Py.split "," odd_str in
    v ← index odd_list 1;
    self ← setattr self (key_of odd_list) (Py.strip v);
    test_str ← index parts 1;
    let test_list := Py.split "," test_str in
    if 0 <=? PyStr.find "cal.ant" (Py.lower (default "" (head test_list)))
    then
      let m_list := Py.split "=" (default "" (head test_list)) in
      v ← index m_list 1;
      setattr self (key_of m_list) (Py.strip v)
    else for_each coil_entry self (drop 1 test_list)
  else Ok self.

(** [self.count += 1] *)
Definition bump_count (self : t) : result t :=
  match count self with
  | Own n => Ok (set_count self (Own (n + 1)))
  | Text _ => Raise TypeError
  end.

(** The test of the loop body on the block just read. *)
Definition is_metadata (test_str : string) : bool :=
  0 <? PyStr.find "metadata record" (Py.lower test_str).

(** The body of the loop for a block that passed the test.  [cal_find]
    is set to [False] here on every turn, so the last branch of the
    source, [elif cal_find:], is never taken. *)
Definition block (self : t) (test_str : string) : result t :=
  self ← bump_count self;
  test_str ← index (Py.split newline (Py.strip test_str)) 1;
  if 1 <? count_char "|" test_str then
    for_each piece self (Py.split "|" test_str)
  else if 0 <=? PyStr.find "cal.brd" (Py.lower test_str) then brd self test_str
  else if 0 <=? PyStr.find "cal.ant" (Py.lower test_str) then ant self test_str
  else Ok self.

(** What the [else] branch does: the search ends and [m_tell] is the
    position before the block just read. *)
Definition stop (self : t) (tell : Z) : t :=
  set_m_tell (set_find_metadata self (Own false)) (Own (tell - 512)).

(** The [while] loop.  [blocks] are the pieces of the file that the
    successive [read(512)] return from the position [tell] on; at the end
    of the file a read returns the empty text. *)
Fixpoint loop (self : t) (tell : Z) (blocks : list string) : result t :=
  match find_metadata self with
  | Own true =>
      match fid self, _metadata_length self with
      | Text _, _ => Raise AttributeError
      | Own _, Text _ => Raise TypeError
      | Own _, Own _ =>
          match blocks with
          | [] => Ok (stop self tell)
          | test_str :: blocks' =>
              let tell := tell + Z.of_nat (String.length test_str) in
              if is_metadata test_str then
                self ← block self test_str;
                loop self tell blocks'
              else Ok (stop self tell)
          end
      end
  | _ => Ok self
  end.

(** An attribute of the class is what it was, or a text. *)
Definition kept {A : Type} (x x' : slot A) : Prop :=
  x' = x ∨ ∃ s : string, x' = Text s.

(** What a step of the parser can do to the attributes the loop and the
    position depend on. *)
Definition steady (self self' : t) : Prop :=
  kept (count self) (count self')
  ∧ kept (find_metadata self) (find_metadata self')
  ∧ kept (m_tell self) (m_tell self').

Section records.

(** [np.core.records.fromrecords] is left open: what it raises, if
    anything, on the rows (or the text) it is given with that many
    column names. *)
Variable fromrecords : nat → slot (list row) → option exn.

(** [len(x) > 0] on a calibration attribute, and the records made of
    it. *)
Definition as_records (x : slot (option (list row)))
    : result (option (slot (list row))) :=
  match x with
  | Own None => Raise TypeError
  | Own (Some []) => Ok None
  | Own (Some rows) => Ok (Some (Own rows))
  | Text "" => Ok None
  | Text s => Ok (Some (Text s))
  end.

Definition make_coil (self : t) : result t :=
  recs ← as_records (coil_cal self);
  match recs with
  | None => Ok self
  | Some r =>
      match fromrecords 3 r with
      | Some e => Raise e
      | None => Ok self
      end
  end.

Definition make_board (self : t) : result t :=
  recs ← as_records (board_cal self);
  match recs with
  | None => Ok self
  | Some r =>
      match fromrecords 4 r with
      | Some ValueError => Ok (set_board_cal self (Own None))
      | Some e => Raise e
      | None => Ok self
      end
  end.

(** ['{0}{1}'.format(self.line_name, self.rx_xyz0.split(':')[0])] *)
Definition make_station (self : t) : result t :=
  match attrs self !! "rx_xyz0" with
  | None => Raise AttributeError
  | Some rx_xyz0 =>
      let line_name := default "None" (attrs self !! "line_name") in
      Ok (set_attr self "station"
            (line_name +:+ default "" (head (Py.split ":" rx_xyz0))))
  end.

(** [read_metadata] called with the open file, as [Zen3D._read_metadata]
    does; [fn] is the file name passed along, if any, and [blocks] are
    the 512-byte pieces of the file from offset 1024 on. *)
Definition read_metadata (self : t) (fn : option string)
    (blocks : list string) : result t :=
  let self := match fn with
              | Some name => set_attr self "fn" name
              | None => self
              end in
  let self := set_fid self (Own ()) in
  match _header_length self, _schedule_metadata_len self with
  | Own _, Own _ =>
      let self :=
        set_count
          (set_coil_cal
             (set_board_cal (set_find_metadata self (Own true))
                (Own (Some [])))
             (Own (Some [])))
          (Own 0) in
      self ← loop self 1024 blocks;
      self ← make_coil self;
      self ← make_board self;
      make_station self
  | _, _ => Raise TypeError
  end.

End records.

End Z3D_Metadata.

(** ** MT_TS: the text file *)

Module MT_TS.

(** How [write_ascii_file] ends: the file is written, or the division
    by the chunk size fails before the file is opened, or the name [cc]
    is read without ever being bound, after [text] was written. *)
Inductive outcome : Type :=
  | Wrote (text : string)
  | ZeroDivisionError
  | UnboundLocalError (text : string).

Section write.

(** The samples, their conversion to text by [np.array(..., dtype='S20')]
    and the joined header lines are left open. *)
Context {sample : Type}.
Variable fmt : sample → string.
Variable header : string.

Definition nl : string := String newline "".

(** What one turn of [for cc in range(chunks)] writes. *)
Definition chunk_text (data : list sample) (chunk_size cc : nat) : string :=
  PyStr.join nl (fmt <$> take chunk_size (drop (cc * chunk_size) data)) +:+ nl.

Definition write_ascii_file (data : list sample) (chunk_size : Z) : outcome :=
  if chunk_size =? 0 then ZeroDivisionError
  else
    let chunks := Z.of_nat (length data) / chunk_size in
    let head := header +:+ nl +:+ "# *** time_series ***" +:+ nl in
    if chunks <=? 0 then UnboundLocalError head
    else
      let cs := Z.to_nat chunk_size in
      let body :=
        foldr (λ cc text, chunk_text data cs cc +:+ text) ""
              (seq 0 (Z.to_nat chunks)) in
      let cc := (Z.to_nat chunks - 1)%nat in
      Wrote (head +:+ body
               +:+ PyStr.join nl (fmt <$> drop ((cc + 1) * cs) data)).

End write.

End MT_TS.

(** * Theorems *)

Import Zen3D Spec.

(** ** Indices found by [np.where] *)

Lemma where_from_ge {A} (cond : A → bool) xs k p :
  p ∈ where_from cond k xs → (k ≤ p)%nat.
Proof.
  revert k. induction xs as [|x xs IH]; intros k; simpl.
  - intros H. by apply elem_of_nil in H.
  - destruct (cond x).
    + rewrite elem_of_cons. intros [->|H]; [lia|]. apply IH in H. lia.
    + intros H. apply IH in H. lia.
Qed.

Lemma where_from_app {A} (cond : A → bool) xs ys k :
  where_from cond k (xs ++ ys)
  = where_from cond k xs ++ where_from cond (k + length xs) ys.
Proof.
  revert k. induction xs as [|x xs IH]; intros k; simpl.
  - by rewrite Nat.add_0_r.
  - rewrite IH. replace (S k + length xs)%nat with (k + S (length xs))%nat by lia.
    by destruct (cond x).
Qed.

Lemma where_from_shift {A} (cond : A → bool) xs k n :
  where_from cond (k + n) xs = (λ p, (p + n)%nat) <$> where_from cond k xs.
Proof.
  revert k. induction xs as [|x xs IH]; intros k; simpl; [done|].
  change (S (k + n)) with (S k + n)%nat. rewrite IH. by destruct (cond x).
Qed.

Lemma where_from_none {A} (cond : A → bool) xs k :
  Forall (λ x, cond x = false) xs → where_from cond k xs = [].
Proof.
  intros H. revert k. induction H as [|x xs Hx _ IH]; intros k; simpl; [done|].
  by rewrite Hx.
Qed.

Lemma where_from_lookup {A} (cond : A → bool) xs k p :
  p ∈ where_from cond k xs ↔
  (k ≤ p)%nat ∧ ∃ x, xs !! (p - k)%nat = Some x ∧ cond x = true.
Proof.
  revert k. induction xs as [|x xs IH]; intros k; simpl.
  - split; [intros H; by apply elem_of_nil in H|]. by intros [_ (? & ? & _)].
  - assert (Hrec : p ∈ where_from cond (S k) xs ↔
              (k < p)%nat ∧ ∃ y, (x :: xs) !! (p - k)%nat = Some y ∧ cond y = true).
    { rewrite IH. split.
      - intros [Hle (y & Hy & Hc)]. split; [lia|]. exists y. split; [|done].
        replace (p - k)%nat with (S (p - S k)) by lia. done.
      - intros [Hlt (y & Hy & Hc)]. split; [lia|]. exists y. split; [|done].
        replace (p - k)%nat with (S (p - S k)) in Hy by lia. done. }
    destruct (cond x) eqn:Hc.
    + rewrite elem_of_cons, Hrec. split.
      * intros [->|[Hlt H]]; [|split; [lia|done]].
        split; [lia|]. exists x. by rewrite Nat.sub_diag.
      * intros [Hle (y & Hy & Hcy)].
        destruct (decide (p = k)) as [->|Hne]; [by left|right].
        split; [lia|]. by exists y.
    + rewrite Hrec. split.
      * intros [Hlt H]. split; [lia|done].
      * intros [Hle (y & Hy & Hcy)].
        destruct (decide (p = k)) as [->|Hne].
        { rewrite Nat.sub_diag in Hy. simpl in Hy. congruence. }
        split; [lia|]. by exists y.
Qed.

(** The rest of the indices from the [m]-th on are the indices of the
    buffer cut at the [m]-th. *)
Lemma where_from_drop {A} (cond : A → bool) xs k m p :
  where_from cond k xs !! m = Some p →
  where_from cond p (drop (p - k) xs) = drop m (where_from cond k xs).
Proof.
  revert k m. induction xs as [|x xs IH]; intros k m; simpl; [done|].
  assert (Hrec : ∀ m', where_from cond (S k) xs !! m' = Some p →
            where_from cond p (drop (p - k) (x :: xs))
            = drop m' (where_from cond (S k) xs)).
  { intros m' Hm. rewrite <- (IH _ _ Hm).
    assert (S k ≤ p)%nat.
    { eapply where_from_ge, list_elem_of_lookup_2, Hm. }
    replace (p - k)%nat with (S (p - S k)) by lia. done. }
  destruct (cond x) eqn:Hc.
  - destruct m as [|m]; simpl.
    + intros [= <-]. rewrite Nat.sub_diag. simpl. by rewrite Hc.
    + apply Hrec.
  - apply Hrec.
Qed.

Lemma np_where_drop {A} (cond : A → bool) xs m p :
  np_where cond xs !! m = Some p →
  np_where cond (drop p xs) = (λ q, (q - p)%nat) <$> drop m (np_where cond xs).
Proof.
  intros Hm. unfold np_where in *.
  rewrite <- (where_from_drop _ _ _ _ _ Hm), Nat.sub_0_r.
  rewrite <- (Nat.add_0_l p) at 2. rewrite where_from_shift.
  rewrite <- list_fmap_compose. rewrite <- (list_fmap_id (where_from _ _ _)) at 1.
  apply list_fmap_ext. intros i q _. simpl. lia.
Qed.

(** ** The leading trim *)

(** C10.  When the word stream holds fewer than four words equal to the
    first sentinel, [read_z3d] returns nothing: indexing the fourth
    detection for the leading trim raises [IndexError], which nothing
    catches. *)
Theorem read_z3d_needs_four_sentinels (self : Zen3D.t) (data0 : list Z) :
  (length (np_where is_flag_0 data0) < 4)%nat →
  read_z3d self data0 = Raise IndexError.
Proof.
  intros Hlen. unfold read_z3d, index.
  by rewrite (lookup_ge_None_2 _ 3) by lia.
Qed.

Lemma read_z3d_needs_four_sentinels_witness :
  read_z3d (fresh 256) [_gps_flag_0; 17; _gps_flag_0; _gps_flag_1]
  = Raise IndexError.
Proof.
  apply (read_z3d_needs_four_sentinels (fresh 256)
           [_gps_flag_0; 17; _gps_flag_0; _gps_flag_1]).
  vm_compute. lia.
Defined.



(** ** Python string helpers *)

Lemma find_ge (c : ascii) (s : string) : -1 ≤ Py.find c s.
Proof.
  induction s as [|d s IH]; simpl; [lia|].
  destruct (Ascii.eqb d c); [lia|].
  destruct (Z.ltb_spec (Py.find c s) 0); lia.
Qed.

Lemma split_head (c : ascii) (s : string) :
  head (Py.split c s)
  = Some (if Py.find c s <? 0 then s else Py.take (Z.to_nat (Py.find c s)) s).
Proof.
  induction s as [|d s IH]; simpl; [done|].
  destruct (Ascii.eqb d c); [done|].
  destruct (Py.split c s) as [|w ws]; [done|]. simpl in *.
  injection IH as ->.
  destruct (Z.ltb_spec (Py.find c s) 0) as [Hlt|Hge]; simpl; [done|].
  destruct (Z.ltb_spec (Py.find c s + 1) 0); [lia|].
  replace (Z.to_nat (Py.find c s + 1)) with (S (Z.to_nat (Py.find c s))) by lia.
  done.
Qed.

Lemma take_all (n : nat) (s : string) :
  (String.length s ≤ n)%nat → Py.take n s = s.
Proof.
  revert n. induction s as [|c s IH]; intros [|n]; simpl; try done; try lia.
  intros H. rewrite IH; [done|lia].
Qed.

Lemma drop_all (n : nat) (s : string) :
  (String.length s ≤ n)%nat → Py.drop n s = "".
Proof.
  revert n. induction s as [|c s IH]; intros [|n]; simpl; try done; try lia.
  intros H. apply IH. lia.
Qed.

(** The three [replace] calls after [lower] act on each character on its
    own. *)
Lemma replace_chain (s : string) :
  Py.replace "." "_" (Py.replace "/" "" (Py.replace " " "_" (Py.lower s)))
  = map_chars key_char s.
Proof.
  induction s as [|c s IH]; [done|].
  cbn [Py.lower map_chars]. rewrite <- IH. clear IH.
  generalize (Py.lower s). intros r.
  destruct c as [[] [] [] [] [] [] [] []]; reflexivity.
Qed.

(** ** Header block *)

Import Z3D_Header.

Lemma h_key_trimmed (line : string) :
  0 ≤ Py.find "=" line → h_key line = trimmed_key (lhs line).
Proof.
  intros Hf. unfold h_key, trimmed_key, lhs.
  rewrite split_head. destruct (Z.ltb_spec (Py.find "=" line) 0); [lia|].
  simpl. apply replace_chain.
Qed.

(** C8, as the code has it.  A line yields a key exactly when its first
    ['='] is not its first character.  The key is the text before that
    ['='], trimmed of surrounding whitespace, lower-cased, with each space
    and each ['.'] turned into an underscore and each ['/'] removed, and
    it is the one attribute the line stores.  A line without ['='], or
    starting with it, yields no key and stores nothing. *)
Theorem header_line_key (self : gmap string hvalue) (line : string) :
  (Py.find "=" line ≤ 0 →
     line_key line = None ∧ header_line self line = Ok self)
  ∧ (0 < Py.find "=" line →
     line_key line = Some (trimmed_key (lhs line))
     ∧ ∀ self', header_line self line = Ok self' →
         ∃ v, self' = <[trimmed_key (lhs line) := v]> self).
Proof.
  unfold line_key, header_line. split; intros Hf.
  - destruct (Z.ltb_spec 0 (Py.find "=" line)); [lia|done].
  - destruct (Z.ltb_spec 0 (Py.find "=" line)); [|lia].
    rewrite h_key_trimmed by lia. split; [done|].
    intros self'. destruct (index _ 1) as [v|]; simpl; [|done].
    case_bool_decide; [done|].
    destruct (convert_value _ _) as [hv|]; simpl; [|done].
    unfold Z3D_Header.setattr. repeat case_bool_decide; try done.
    intros [= <-]. by exists hv.
Qed.

Lemma header_line_key_witness :
  line_key "A/D Rate = 256" = Some "ad_rate"
  ∧ ∃ v, header_line ∅ "A/D Rate = 256" = Ok (<["ad_rate" := v]> ∅).
Proof.
  destruct (header_line_key ∅ "A/D Rate = 256") as [_ H].
  destruct H as [Hk Hs]; [vm_compute; reflexivity|].
  split; [exact Hk|].
  exists (HFloat "256"). reflexivity.
Defined.

(** C8 as worded fails: on the line [Tx.Freq=32] the code turns the
    ['.'] into an underscore and stores [tx_freq], where the wording
    removes it and gives [txfreq]. *)
Lemma claimed_key_counterexample :
  ¬ (∀ line : string,
       0 ≤ Py.find "=" line → line_key line = Some (claimed_key (lhs line))).
Proof.
  intros H. specialize (H "Tx.Freq=32").
  vm_compute in H. specialize (H ltac:(discriminate)). discriminate.
Qed.

(** C9, as the code has it.  On a source shorter than the header length
    the read returns the bytes there are; they are stored in [header_str]
    and the header is parsed from them, line by line, like a full block:
    the result is that of the loop over the lines of the bytes read, and
    nothing reports the truncation.
    The decode aborts all the same, one step later: the schedule block
    read at offset 512 is empty, [Time] is still [None] and the two-second
    correction raises [TypeError]. *)
Theorem short_source_header (self : gmap string hvalue) (fid : string) :
  (String.length fid < _header_len)%nat →
  read_header self fid
  = for_each header_line
      (<["header_str" := HText fid]> (<["fid" := HFile fid]> self))
      (Py.split newline fid)
  ∧ Z3D_Schedule_metadata.read_schedule_metadata ∅ fid = Raise TypeError.
Proof.
  intros Hlen. unfold read_header. rewrite take_all by lia.
  split; [done|].
  unfold Z3D_Schedule_metadata.read_schedule_metadata.
  rewrite drop_all by (unfold Z3D_Schedule_metadata._header_len, _header_len in *; lia).
  reflexivity.
Qed.

Lemma short_source_header_witness :
  read_header ∅ "A/D Rate = 256"
  = for_each header_line
      (<["header_str" := HText "A/D Rate = 256"]>
         (<["fid" := HFile "A/D Rate = 256"]> ∅))
      (Py.split newline "A/D Rate = 256")
  ∧ Z3D_Schedule_metadata.read_schedule_metadata ∅ "A/D Rate = 256"
    = Raise TypeError.
Proof.
  apply (short_source_header ∅ "A/D Rate = 256"). vm_compute. lia.
Defined.

(** C9 as worded fails: a source of fourteen bytes is read and parsed
    without any error. *)
Lemma truncated_header_counterexample :
  ¬ (∀ fid : string,
       (String.length fid < _header_len)%nat → raises (read_header ∅ fid)).
Proof.
  intros H. destruct (H "A/D Rate = 256") as [e He].
  - vm_compute. lia.
  - vm_compute in He. discriminate.
Qed.

(** ** Schedule block *)

Import Z3D_Schedule_metadata.

(** C7 at a block whose [Time] is [08:00:59].  The parse succeeds and
    stores [08:00:61]: the seconds field is raised by two without a carry
    into the minutes, so the stored text is not a time of day, while two
    seconds after [08:00:59] is [08:01:01]. *)
Theorem time_correction_without_carry :
  ∃ self' : gmap string string,
    read_schedule_metadata ∅ schedule_at_59 = Ok self'
    ∧ self' !! "Time" = Some "08:00:61"
    ∧ time_of_day "08:00:59" = Some 28859
    ∧ time_of_day "08:00:61" = None
    ∧ time_of_day "08:01:01" = Some (28859 + 2).
Proof.
  eexists. split; [vm_compute; reflexivity|].
  repeat split; vm_compute; reflexivity.
Qed.

Lemma format_two_digits (n : Z) :
  0 ≤ n < 100 → ∃ a b : ascii, Py.format_0w 2 n = String a (String b "").
Proof.
  intros Hn.
  assert (Hk : ∀ k : nat, (k < 100)%nat →
            ∃ a b : ascii, Py.format_0w 2 (Z.of_nat k) = String a (String b "")).
  { intros k Hk.
    do 100 (destruct k as [|k]; [eexists; eexists; reflexivity|]). lia. }
  destruct (Hk (Z.to_nat n)) as (a & b & Hab); [lia|].
  rewrite Z2Nat.id in Hab by lia. eauto.
Qed.

Lemma add_two_seconds_tail (pre : string) (s : Z) :
  String.length pre = 6%nat → 0 ≤ s < 58 →
  add_two_seconds (pre +:+ Py.format_0w 2 s)
  = Ok (pre +:+ Py.format_0w 2 (s + 2)).
Proof.
  intros Hpre Hs.
  destruct pre as [|c1 [|c2 [|c3 [|c4 [|c5 [|c6 [|c7 pre]]]]]]];
    try discriminate Hpre.
  set (p := String c1 (String c2 (String c3 (String c4 (String c5 (String c6 "")))))).
  assert (Hk : ∀ k : nat, (k < 58)%nat →
            add_two_seconds (p +:+ Py.format_0w 2 (Z.of_nat k))
            = Ok (p +:+ Py.format_0w 2 (Z.of_nat k + 2))).
  { intros k Hk. do 58 (destruct k as [|k]; [reflexivity|]). lia. }
  specialize (Hk (Z.to_nat s)). rewrite Z2Nat.id in Hk by lia.
  apply Hk. lia.
Qed.

(** X17.  Where the correction is right: up to second 57 of a minute
    the stored text is that of the time two seconds later. *)
Lemma add_two_seconds_within_minute (h m s : Z) :
  0 ≤ h < 100 → 0 ≤ m < 100 → 0 ≤ s < 58 →
  add_two_seconds (hms h m s) = Ok (hms h m (s + 2)).
Proof.
  intros Hh Hm Hs. unfold hms.
  destruct (format_two_digits h Hh) as (a & b & ->).
  destruct (format_two_digits m Hm) as (c & d & ->).
  apply (add_two_seconds_tail
           (String a (String b (String ":" (String c (String d (String ":" "")))))));
    [reflexivity|done].
Qed.

Lemma add_two_seconds_within_minute_witness :
  Z3D_Schedule_metadata.add_two_seconds "08:00:57" = Ok "08:00:59".
Proof.
  apply (add_two_seconds_within_minute 8 0 57); lia.
Defined.

(** ** Binary floating point *)

Import Float.

(** [round] is checked against the Standard Library's specification of
    IEEE 754 arithmetic on the values this development meets: the
    constant 1.024 as a double and in single precision, a fractional
    number of seconds, integers past 24 bits, and two thirds. *)
Lemma round_matches_SpecFloat :
  round 53 (1024 # 1000) = SFquot 53 1024 1024 1000
  ∧ round 24 (1024 # 1000) = SFquot 24 128 1024 1000
  ∧ round 53 (4399999999 # 100000000) = SFquot 53 1024 4399999999 100000000
  ∧ round 24 (inject_Z (2 ^ 24 + 1)) = SF2Q (SFofZ 24 128 (2 ^ 24 + 1))
  ∧ round 24 (inject_Z (2 ^ 24 + 3)) = SF2Q (SFofZ 24 128 (2 ^ 24 + 3))
  ∧ round 24 (inject_Z (- (2 ^ 25 + 2))) = SF2Q (SFofZ 24 128 (- (2 ^ 25 + 2)))
  ∧ round 53 (1 # 3) = SFquot 53 1024 1 3
  ∧ round 53 (-2 # 3) = SFquot 53 1024 (-2) 3.
Proof. repeat split; vm_compute; reflexivity. Qed.

Lemma round_comp (p : Z) (x y : Q) : (x == y)%Q → round p x = round p y.
Proof. intros H. unfold round. by rewrite (Qred_complete _ _ H). Qed.

Lemma Qred_Z (z : Z) : Qred (inject_Z z) = inject_Z z.
Proof.
  unfold inject_Z, Qred.
  pose proof (Z.ggcd_gcd z 1) as Hg.
  pose proof (Z.ggcd_correct_divisors z 1) as Hd.
  destruct (Z.ggcd z 1) as [g [a b]]. simpl in *.
  rewrite Z.gcd_1_r in Hg. subst g. destruct Hd as [Ha Hb].
  rewrite Z.mul_1_l in Ha, Hb. subst a. f_equal. lia.
Qed.

Lemma half_even_Z (x : Q) (n : Z) : (x == inject_Z n)%Q → half_even x = n.
Proof.
  intros H. unfold half_even.
  assert (Hf : Qfloor x = n) by (rewrite H; apply Qfloor_Z).
  rewrite Hf.
  assert (Hc : (x - inject_Z n ?= 1 # 2)%Q = Lt).
  { apply Qlt_alt. rewrite H. unfold Qminus. rewrite Qplus_opp_r. reflexivity. }
  by rewrite Hc.
Qed.

Lemma pow2_nonzero (k : Z) : ¬ (pow2 k == 0)%Q.
Proof. apply Qpower_not_0. discriminate. Qed.

Lemma pow2_Z (j : Z) : 0 ≤ j → (inject_Z (2 ^ j) == pow2 j)%Q.
Proof. intros Hj. unfold pow2. by rewrite Zpower_Qpower. Qed.

Lemma pow2_add (a b : Z) : (pow2 (a + b) == pow2 a * pow2 b)%Q.
Proof. unfold pow2. apply Qpower_plus. discriminate. Qed.

(** A whole multiple of a power of two whose multiplier fits in [p] bits
    is a float of [p] bits: rounding leaves it as it is. *)
Lemma round_dyadic (p m j : Z) :
  0 < p → Z.abs m < 2 ^ p → 0 ≤ j →
  round p (inject_Z (m * 2 ^ j)) = inject_Z (m * 2 ^ j).
Proof.
  intros Hp Hm Hj. unfold round. rewrite Qred_Z.
  destruct (Qeq_bool (inject_Z (m * 2 ^ j)) 0) eqn:H0.
  - apply Qeq_bool_iff in H0. unfold Qeq, inject_Z in H0. simpl in H0.
    rewrite Z.mul_1_r in H0. by rewrite H0.
  - assert (Hnz : m ≠ 0). { intros ->. by rewrite Z.mul_0_l in H0. }
    set (e := ilog2 (Qabs (inject_Z (m * 2 ^ j)))).
    assert (He : e ≤ p - 1 + j).
    { unfold e, ilog2. cbn [Qabs inject_Z Qnum Qden].
      rewrite Z.abs_mul, (Z.abs_eq (2 ^ j)) by (apply Z.pow_nonneg; lia).
      rewrite Z.log2_mul_pow2 by lia.
      assert (Z.log2 (Z.abs m) < p) by (apply Z.log2_lt_pow2; lia).
      change (Z.log2 1) with 0.
      destruct (Qle_bool _ _); lia. }
    set (k := e - p + 1).
    assert (Hx : (inject_Z (m * 2 ^ j)
                  == inject_Z (m * 2 ^ (j - k)) * pow2 k)%Q).
    { rewrite !inject_Z_mult, !pow2_Z by lia.
      rewrite <- Qmult_assoc, <- pow2_add.
      by replace (j - k + k) with j by lia. }
    assert (Hdiv : (inject_Z (m * 2 ^ j) / pow2 k
                    == inject_Z (m * 2 ^ (j - k)))%Q).
    { rewrite Hx. apply Qdiv_mult_l, pow2_nonzero. }
    rewrite (half_even_Z _ _ Hdiv).
    transitivity (Qred (inject_Z (m * 2 ^ j))); [|apply Qred_Z].
    apply Qred_complete. by rewrite Hx.
Qed.

Lemma round_Z (p z : Z) :
  0 < p → Z.abs z < 2 ^ p → round p (inject_Z z) = inject_Z z.
Proof.
  intros Hp Hz. pose proof (round_dyadic p z 0 Hp Hz ltac:(lia)) as H.
  by rewrite Z.pow_0_r, Z.mul_1_r in H.
Qed.

Lemma Qtrunc_Z (z : Z) : Qtrunc (inject_Z z) = z.
Proof.
  unfold Qtrunc. destruct (Qle_bool 0 (inject_Z z)).
  - apply Qfloor_Z.
  - apply Qceiling_Z.
Qed.

Lemma mod1_Z (z : Z) : mod1 (inject_Z z) = 0%Q.
Proof.
  unfold mod1. rewrite Qtrunc_Z.
  assert (E : Qeq_bool (inject_Z z - inject_Z z) 0 = true).
  { apply Qeq_bool_iff. ring. }
  by rewrite E.
Qed.

(** Whole numbers below [2^53] and their sums, differences and products
    are doubles. *)
Lemma fl64_Z (z : Z) : Z.abs z < 2 ^ 53 → fl64 (inject_Z z) = inject_Z z.
Proof. apply round_Z. lia. Qed.

Lemma fl64_add (a b : Z) :
  Z.abs (a + b) < 2 ^ 53 → fl64 (inject_Z a + inject_Z b) = inject_Z (a + b).
Proof.
  intros H. rewrite <- (fl64_Z (a + b)) by done. apply round_comp.
  by rewrite inject_Z_plus.
Qed.

Lemma fl64_sub (a b : Z) :
  Z.abs (a - b) < 2 ^ 53 → fl64 (inject_Z a - inject_Z b) = inject_Z (a - b).
Proof.
  intros H. rewrite <- (fl64_Z (a - b)) by done. apply round_comp.
  unfold Z.sub, Qminus. by rewrite inject_Z_plus, inject_Z_opp.
Qed.

Lemma fl64_mul (a b : Z) :
  Z.abs (a * b) < 2 ^ 53 → fl64 (inject_Z a * inject_Z b) = inject_Z (a * b).
Proof.
  intros H. rewrite <- (fl64_Z (a * b)) by done. apply round_comp.
  by rewrite inject_Z_mult.
Qed.

(** ** GPS time to UTC *)

Import GpsTime.

Lemma Qle_bool_Z (a b : Z) : Qle_bool (inject_Z a) (inject_Z b) = (a <=? b).
Proof.
  destruct (Z.leb_spec a b) as [H|H].
  - apply Qle_bool_iff. by rewrite <- Zle_Qle.
  - apply not_true_is_false. rewrite Qle_bool_iff, <- Zle_Qle. lia.
Qed.

Lemma roll_week_whole (gps_week s : Z) :
  Z.abs s ≤ 2 ^ 51 →
  roll_week gps_week (inject_Z s)
  = if s <=? 604800 then (gps_week, inject_Z s)
    else (gps_week + 1, inject_Z (s - 604800)).
Proof.
  intros Hs. unfold roll_week, _week_len. rewrite Qle_bool_Z.
  destruct (s <=? 604800); [done|]. simpl. by rewrite fl64_sub by lia.
Qed.

(** On whole seconds every sum of [get_UTC_date_time] is exact. *)
Lemma gps_seconds_whole (leap_seconds gps_week s : Z) :
  Z.abs gps_week ≤ 2 ^ 31 → Z.abs s ≤ 2 ^ 51 → Z.abs leap_seconds ≤ 2 ^ 51 →
  gps_seconds leap_seconds gps_week (inject_Z s)
  = inject_Z (315964800 + gps_week * 604800 + s - leap_seconds).
Proof.
  intros Hw Hs Hl. unfold gps_seconds. rewrite roll_week_whole by done.
  change epoch_seconds with 315964800. unfold _week_len.
  destruct (s <=? 604800).
  - rewrite fl64_mul, fl64_add, fl64_add, fl64_sub by lia. done.
  - rewrite fl64_mul, fl64_add, fl64_add, fl64_sub by lia. f_equal. lia.
Qed.

Lemma get_UTC_date_time_whole (leap_seconds gps_week s : Z) :
  Z.abs gps_week ≤ 2 ^ 31 → Z.abs s ≤ 2 ^ 51 → Z.abs leap_seconds ≤ 2 ^ 51 →
  get_UTC_date_time leap_seconds gps_week (inject_Z s)
  = PyTime.strftime
      (PyTime.gmtime (315964800 + gps_week * 604800 + s - leap_seconds)).
Proof.
  intros Hw Hs Hl. unfold get_UTC_date_time.
  rewrite gps_seconds_whole, Qtrunc_Z, roll_week_whole by done.
  set (total := 315964800 + gps_week * 604800 + s - leap_seconds).
  assert (Hms : ∀ wk, (let '(_, secs) :=
                         (if s <=? 604800 then (wk, inject_Z s)
                          else (wk + 1, inject_Z (s - 604800))) in
                       mod1 secs) = 0%Q).
  { intros wk. destruct (s <=? 604800); apply mod1_Z. }
  destruct (if s <=? 604800 then _ else _) as [wk secs] eqn:Hr.
  assert (Hm : mod1 secs = 0%Q).
  { specialize (Hms gps_week). by rewrite Hr in Hms. }
  rewrite Hm. unfold PyTime.gmtime.
  destruct (PyTime.civil_from_days _) as [[y m] d].
  set (seconds := (total `mod` 86400) `mod` 60).
  assert (E : fl64 (inject_Z seconds + 0) = inject_Z seconds).
  { transitivity (fl64 (inject_Z seconds)).
    - apply round_comp. apply Qplus_0_r.
    - apply fl64_Z. pose proof (Z.mod_pos_bound (total `mod` 86400) 60).
      unfold seconds. lia. }
  by rewrite E, Qtrunc_Z.
Qed.

(** C6, as the code has it.  The sums of [get_UTC_date_time] are sums of
    doubles.  For a whole week number and a whole number of seconds of
    week, with the leap seconds of the object, all far below [2^53]: when
    the seconds exceed 604800 the week is raised by one and the seconds
    lowered by 604800; the absolute time is exactly the GPS epoch
    1980-01-06 (315964800 s after 1970) plus [gps_week] weeks of 604800 s
    plus the seconds of week minus the leap seconds, and the text
    returned is that instant as [YYYY-MM-DD,HH:MM:SS]. *)
Theorem utc_from_gps_week (leap_seconds gps_week seconds_of_week : Z) :
  Z.abs gps_week ≤ 2 ^ 31 →
  Z.abs seconds_of_week ≤ 2 ^ 51 →
  Z.abs leap_seconds ≤ 2 ^ 51 →
  in_time_range
    (inject_Z (315964800 + gps_week * 604800 + seconds_of_week
               - leap_seconds)) →
  (604800 < seconds_of_week →
     roll_week gps_week (inject_Z seconds_of_week)
     = (gps_week + 1, inject_Z (seconds_of_week - 604800)))
  ∧ PyTime.timegm (1980, 1, 6, 0, 0, 0) = 315964800
  ∧ gps_seconds leap_seconds gps_week (inject_Z seconds_of_week)
    = inject_Z (315964800 + gps_week * 604800 + seconds_of_week
                - leap_seconds)
  ∧ get_UTC_date_time leap_seconds gps_week (inject_Z seconds_of_week)
    = PyTime.strftime
        (PyTime.gmtime
           (315964800 + gps_week * 604800 + seconds_of_week
            - leap_seconds)).
Proof.
  intros Hw Hs Hl _.
  split; [|split; [reflexivity|split]].
  - intros Hlt. rewrite roll_week_whole by done.
    by destruct (Z.leb_spec seconds_of_week 604800); [lia|].
  - by apply gps_seconds_whole.
  - by apply get_UTC_date_time_whole.
Qed.

Lemma utc_from_gps_week_witness :
  roll_week 1854 (inject_Z 604801) = (1855, inject_Z (604801 - 604800))
  ∧ gps_seconds 16 1854 (inject_Z 604801) = inject_Z 1437868785
  ∧ get_UTC_date_time 16 1854 (inject_Z 604801) = "2015-07-25,23:59:45"
  ∧ get_UTC_date_time 16 1854 (inject_Z 0) = "2015-07-18,23:59:44".
Proof.
  destruct (utc_from_gps_week 16 1854 604801) as (Hr & _ & Hg & Hd);
    [vm_compute; discriminate..|split; vm_compute; [discriminate|reflexivity]|].
  destruct (utc_from_gps_week 16 1854 0) as (_ & _ & _ & Hd0);
    [vm_compute; discriminate..|split; vm_compute; [discriminate|reflexivity]|].
  split; [apply Hr; reflexivity|].
  split; [rewrite Hg; reflexivity|].
  split; [rewrite Hd|rewrite Hd0]; vm_compute; reflexivity.
Defined.

(** C6 as worded fails on fractional seconds: the sums are rounded to
    doubles.  For week 1854, 16 leap seconds and the double nearest to
    43.99999999 s, the sum of epoch, weeks and seconds rounds up to a
    whole number and the text holds second 28, where the instant the
    wording gives, cut to whole seconds, holds second 27. *)
Lemma fractional_seconds_counterexample :
  ¬ (∀ (leap_seconds gps_week : Z) (gps_time : Q),
       fl64 gps_time = gps_time →
       in_time_range (inject_Z 315964800 + inject_Z (gps_week * 604800)
                      + gps_time - inject_Z leap_seconds)%Q →
       get_UTC_date_time leap_seconds gps_week gps_time
       = PyTime.strftime
           (PyTime.gmtime
              (Qtrunc (inject_Z 315964800 + inject_Z (gps_week * 604800)
                       + gps_time - inject_Z leap_seconds)%Q))).
Proof.
  intros H.
  specialize (H 16 1854 (fl64 (4399999999 # 100000000))).
  assert (Hl : get_UTC_date_time 16 1854 (fl64 (4399999999 # 100000000))
               = "2015-07-19,00:00:28") by (vm_compute; reflexivity).
  rewrite Hl in H.
  assert (Hr : PyTime.strftime
                 (PyTime.gmtime
                    (Qtrunc (inject_Z 315964800 + inject_Z (1854 * 604800)
                             + fl64 (4399999999 # 100000000)
                             - inject_Z 16)%Q))
               = "2015-07-19,00:00:27") by (vm_compute; reflexivity).
  rewrite Hr in H.
  discriminate H.
  - vm_compute. reflexivity.
  - split; vm_compute; [discriminate|reflexivity].
Qed.

(** ** Tick counters *)

Import Zen3DMore.






(** ** Block-length check *)

(** X18.  On an object that never had [time_series] assigned, the
    trimming branch ends in [AttributeError]: whenever some block after
    the first stamp has not the declared length and all such blocks are
    among the first five, [validate_time_blocks] raises. *)
Lemma trim_branch_raises (self : Zen3D.t) :
  time_series self = None →
  bad_blocks_of self ≠ [] →
  (list_max (bad_blocks_of self) < 5)%nat →
  validate_time_blocks self = Raise AttributeError.
Proof.
  intros Hts Hbad Hmax. unfold validate_time_blocks. rewrite Hts.
  destruct (bad_blocks_of self) as [|b bad]; [done|].
  destruct (Nat.ltb_spec 0 (length (b :: bad))); [|simpl in *; lia].
  by destruct (Nat.ltb_spec (list_max (b :: bad)) 5); [|lia].
Qed.

Lemma trim_branch_raises_witness :
  validate_time_blocks
    {| ad_rate := 2;
       gps_stamps := (λ bl, unpack_stamp [] bl) <$> [0; 1; 1; 2; 2];
       ts := [21; 22; 23; 24; 25; 26]; time_series := None |}
  = Raise AttributeError.
Proof.
  apply trim_branch_raises.
  - reflexivity.
  - discriminate.
  - vm_compute. lia.
Defined.

(** X16.  On an object that has the attribute, the stamps kept by the
    trimming branch still hold the last failing stamp, in second place. *)
Lemma last_failing_stamp_kept (self self' : Zen3D.t) (series : list Z) :
  time_series self = Some series →
  bad_blocks_of self ≠ [] →
  (list_max (bad_blocks_of self) < 5)%nat →
  validate_time_blocks self = Ok self' →
  ∃ kept : gps_stamp,
    gps_stamps self' !! 1%nat = Some kept ∧ block_len kept ≠ ad_rate self.
Proof.
  intros Hts Hbad Hmax. unfold validate_time_blocks. rewrite Hts.
  pose proof (eq_refl (bad_blocks_of self)) as Hdef.
  unfold bad_blocks_of at 2 in Hdef.
  set (bad := bad_blocks_of self) in *.
  destruct (Nat.ltb_spec 0 (length bad));
    [|destruct bad; [done|simpl in *; lia]].
  destruct (Nat.ltb_spec (list_max bad) 5); [|lia].
  intros [= <-]. cbn [gps_stamps].
  destruct (last bad) as [b|] eqn:Hlast;
    [|apply last_None in Hlast; by destruct Hbad].
  assert (Hb : b ∈ bad).
  { apply last_Some in Hlast as [l' ->]. apply elem_of_app. right.
    by apply list_elem_of_singleton. }
  rewrite Hdef in Hb.
  apply where_from_lookup in Hb as [_ (x & Hx & Hne)].
  rewrite Nat.sub_0_r, list_lookup_fmap, lookup_drop in Hx.
  destruct (gps_stamps self !! (1 + b)%nat) as [kept|] eqn:Hk; [|done].
  simpl in Hx. injection Hx as <-.
  exists kept. split.
  - simpl. rewrite lookup_drop, <- Hk. f_equal. lia.
  - intros He. rewrite He, Z.eqb_refl in Hne. done.
Qed.

Lemma last_failing_stamp_kept_witness :
  ∃ self' : Zen3D.t,
    validate_time_blocks
      {| ad_rate := 2;
         gps_stamps := (λ bl, unpack_stamp [] bl) <$> [0; 1; 1; 2; 2];
         ts := []; time_series := Some [21; 22; 23; 24; 25; 26] |}
    = Ok self'
    ∧ ∃ kept : gps_stamp,
        gps_stamps self' !! 1%nat = Some kept ∧ block_len kept ≠ 2.
Proof.
  eexists. split; [vm_compute; reflexivity|].
  apply (last_failing_stamp_kept
           {| ad_rate := 2;
              gps_stamps := (λ bl, unpack_stamp [] bl) <$> [0; 1; 1; 2; 2];
              ts := []; time_series := Some [21; 22; 23; 24; 25; 26] |}
           _ [21; 22; 23; 24; 25; 26]).
  - reflexivity.
  - discriminate.
  - vm_compute. lia.
  - reflexivity.
Defined.

(** C1 at [two_short_blocks] with a declared rate of 2: the block
    lengths are 0, 1, 1, 2, 2, so the stamps at indices 1 and 2 fail and
    both lie in the first five.  [read_z3d] ends in [AttributeError],
    because [time_series] was never assigned.  Called on an object that
    has the attribute, [validate_time_blocks] drops one stamp and one
    sample: the stamps kept start one before the last failing one, which
    is kept too, and the first stamp kept has block length 1. *)
Theorem two_short_blocks_not_trimmed :
  read_z3d (fresh 2) two_short_blocks = Raise AttributeError
  ∧ ∃ st : scan_state,
      extract_stamps (drop 3 two_short_blocks) = Ok st
      ∧ block_len <$> stamps st = [0; 1; 1; 2; 2]
      ∧ filter (λ w, w ≠ 0) (data st) = [21; 22; 23; 24; 25; 26]
      ∧ ∃ self' : Zen3D.t,
          validate_time_blocks
            {| ad_rate := 2; gps_stamps := stamps st;
               ts := [21; 22; 23; 24; 25; 26];
               time_series := Some [21; 22; 23; 24; 25; 26] |} = Ok self'
          ∧ block_len <$> gps_stamps self' = [1; 1; 2; 2]
          ∧ time <$> gps_stamps self' = [2048; 3072; 4096; 5120]
          ∧ time_series self' = Some [22; 23; 24; 25; 26].
Proof.
  split; [vm_compute; reflexivity|].
  eexists. split; [vm_compute; reflexivity|].
  split; [vm_compute; reflexivity|].
  split; [vm_compute; reflexivity|].
  eexists. split; [vm_compute; reflexivity|].
  repeat split; vm_compute; reflexivity.
Qed.

(** ** The stamp loop *)

Lemma zero_slice_length (p n : nat) (d : list Z) :
  length (zero_slice p n d) = length d.
Proof.
  unfold zero_slice.
  rewrite !length_app, length_replicate, !length_take, !length_drop. lia.
Qed.

Lemma zero_slice_lookup (p n : nat) (d : list Z) (i : nat) (w : Z) :
  zero_slice p n d !! i = Some w → w = 0 ∨ d !! i = Some w.
Proof.
  unfold zero_slice. intros H.
  apply lookup_app_Some in H as [H|[Hp H]].
  { right. by apply lookup_take_Some in H as [H _]. }
  apply lookup_app_Some in H as [H|[Hn H]].
  { left. by apply lookup_replicate in H as [-> _]. }
  right. rewrite lookup_drop in H.
  pose proof (lookup_lt_Some _ _ _ H) as Hlt.
  rewrite <- H. f_equal.
  rewrite length_replicate, !length_take, length_drop in Hlt |- *.
  rewrite length_replicate, !length_take, length_drop in Hn.
  rewrite length_take in Hp. lia.
Qed.

Lemma zeroed_from_refl (d : list Z) : zeroed_from d d.
Proof. split; [done|]. intros i w H. by right. Qed.

Lemma scan_body_zeroed (orig : list Z) F ii p st :
  zeroed_from orig (data st) →
  match scan_body F ii p st with
  | Continue st' | Break st' => zeroed_from orig (data st')
  | Fail _ => True
  end.
Proof.
  intros [Hlen Hz]. unfold scan_body.
  destruct (data st !! S p) as [next|]; [|done].
  destruct (next =? _gps_flag_1); [|done].
  case_bool_decide; [|done]. simpl. split.
  - by rewrite zero_slice_length.
  - intros i w Hw. apply zero_slice_lookup in Hw as [->|Hw]; [by left|].
    by apply Hz.
Qed.

Lemma scan_zeroed (orig : list Z) F rest ii st st' :
  zeroed_from orig (data st) →
  scan F ii rest st = Ok st' → zeroed_from orig (data st').
Proof.
  revert ii st. induction rest as [|p rest IH]; intros ii st Hz; simpl.
  - by intros [= <-].
  - pose proof (scan_body_zeroed orig F ii p st Hz) as Hb.
    destruct (scan_body F ii p st) as [st1|st1|e]; [|by intros [= <-]|done].
    by apply IH.
Qed.

(** A candidate whose following word was not the second sentinel in the
    buffer the loop started from: its iteration changes nothing. *)
Lemma scan_body_rejects (orig : list Z) F ii p st :
  zeroed_from orig (data st) →
  orig !! S p ≠ Some _gps_flag_1 →
  scan_body F ii p st = Continue st
  ∨ scan_body F ii p st
    = Break {| data := data st; stamps := stamps st; failed := Some ii |}.
Proof.
  intros [Hlen Hz] Hno. unfold scan_body.
  destruct (data st !! S p) as [next|] eqn:Hn; [left|by right].
  destruct (Z.eqb_spec next _gps_flag_1) as [->|]; [|done].
  apply Hz in Hn as [Hn|Hn]; [done|by destruct Hno].
Qed.

(** An iteration writes the slot of its own index only. *)
Lemma scan_other_slots F rest ii st st' (j : nat) :
  scan F ii rest st = Ok st' →
  (j < ii ∨ ii + length rest ≤ j)%nat →
  stamps st' !! j = stamps st !! j.
Proof.
  revert ii st. induction rest as [|p rest IH]; intros ii st; simpl.
  - by intros [= <-].
  - intros Hs Hj. unfold scan_body in Hs.
    destruct (data st !! S p) as [next|]; [|by injection Hs as <-].
    destruct (next =? _gps_flag_1).
    + case_bool_decide; [|done].
      rewrite (IH _ _ Hs) by lia. simpl.
      apply list_lookup_insert_ne. lia.
    + apply (IH _ _ Hs). lia.
Qed.

Lemma scan_app F l1 l2 ii st :
  failed st = None →
  scan F ii (l1 ++ l2) st
  = match scan F ii l1 st with
    | Ok st1 =>
        match failed st1 with
        | None => scan F (ii + length l1) l2 st1
        | Some _ => Ok st1
        end
    | Raise e => Raise e
    end.
Proof.
  revert ii st. induction l1 as [|p l1 IH]; intros ii st Hf; simpl.
  - by rewrite Hf, Nat.add_0_r.
  - unfold scan_body.
    destruct (data st !! S p) as [next|]; [|done].
    destruct (next =? _gps_flag_1).
    + case_bool_decide; [|done].
      rewrite IH by done. by replace (S ii + length l1)%nat with (ii + S (length l1))%nat by lia.
    + rewrite IH by done. by replace (S ii + length l1)%nat with (ii + S (length l1))%nat by lia.
Qed.

(** C3.  Take a word equal to the first sentinel, at position [p] and of
    rank [ii] among the detections of the trimmed buffer, whose next word
    is not the second sentinel (or is missing).  When the loop reaches its
    iteration, the iteration leaves the buffer and the stamp array as they
    are: it goes on to the next detection, or stops the loop when there
    is no next word.  And when the loop is over, slot [ii] of the stamp
    array still holds the all-zero record it was created with. *)
Theorem false_sentinel_not_a_stamp (data1 : list Z) (ii p : nat) :
  np_where is_flag_0 data1 !! ii = Some p →
  data1 !! S p ≠ Some _gps_flag_1 →
  (∀ st : scan_state,
     scan (np_where is_flag_0 data1) 0 (take ii (np_where is_flag_0 data1))
          (scan_start data1) = Ok st →
     failed st = None →
     scan_body (np_where is_flag_0 data1) ii p st = Continue st
     ∨ scan_body (np_where is_flag_0 data1) ii p st
       = Break {| data := data st; stamps := stamps st; failed := Some ii |})
  ∧ (∀ st' : scan_state,
       extract_stamps data1 = Ok st' → stamps st' !! ii = Some zero_stamp).
Proof.
  intros Hii Hno. set (F := np_where is_flag_0 data1) in *.
  assert (Hpre : ∀ st, scan F 0 (take ii F) (scan_start data1) = Ok st →
            zeroed_from data1 (data st)
            ∧ stamps st !! ii = Some zero_stamp).
  { intros st Hst. split.
    - eapply scan_zeroed; [|exact Hst]. apply zeroed_from_refl.
    - rewrite (scan_other_slots _ _ _ _ _ ii Hst).
      + simpl. apply lookup_replicate_2. fold F.
        by apply lookup_lt_Some in Hii.
      + right. rewrite length_take. lia. }
  split.
  - intros st Hst _. apply (scan_body_rejects data1); [|done].
    by apply Hpre.
  - intros st'. unfold extract_stamps. fold F.
    rewrite <- (take_drop_middle F ii p Hii) at 2.
    rewrite scan_app by done.
    destruct (scan F 0 (take ii F) (scan_start data1)) as [st1|e] eqn:Hst1;
      [|done].
    destruct (Hpre st1 eq_refl) as [Hz Hslot].
    destruct (failed st1); [by intros [= <-]|].
    rewrite length_take, Nat.min_l
      by (apply lookup_lt_Some in Hii; lia).
    simpl.
    destruct (scan_body_rejects data1 F ii p st1 Hz Hno) as [-> | ->].
    + intros Hrest. rewrite (scan_other_slots _ _ _ _ _ ii Hrest); [done|lia].
    + by intros [= <-].
Qed.

Lemma false_sentinel_not_a_stamp_witness :
  ∃ st' : scan_state,
    extract_stamps (stamp_at 1024 ++ [_gps_flag_0; 21] ++ stamp_at 2048)
    = Ok st'
    ∧ stamps st' !! 1%nat = Some zero_stamp
    ∧ data st' !! 16%nat = Some _gps_flag_0
    ∧ time <$> stamps st' = [1024; 0; 2048].
Proof.
  destruct (false_sentinel_not_a_stamp
              (stamp_at 1024 ++ [_gps_flag_0; 21] ++ stamp_at 2048) 1 16)
    as [_ Hslot].
  - vm_compute. reflexivity.
  - vm_compute. discriminate.
  - eexists. split; [vm_compute; reflexivity|].
    split; [apply Hslot; vm_compute; reflexivity|].
    split; vm_compute; reflexivity.
Defined.

(** *** Which words the loop zeroes *)

Lemma zero_slice_lookup_in (p n : nat) (d : list Z) (i : nat) :
  (p ≤ i < p + n)%nat → (i < length d)%nat → zero_slice p n d !! i = Some 0.
Proof.
  intros Hi Hlen. unfold zero_slice.
  rewrite lookup_app_r by (rewrite length_take; lia).
  rewrite lookup_app_l
    by (rewrite length_replicate, !length_take, length_drop; lia).
  apply lookup_replicate_2. rewrite !length_take, length_drop. lia.
Qed.

Lemma zero_slice_lookup_out (p n : nat) (d : list Z) (i : nat) :
  (i < p ∨ p + n ≤ i)%nat → zero_slice p n d !! i = d !! i.
Proof.
  intros Hi. destruct (decide (i < length d)%nat) as [Hlen|Hlen].
  - unfold zero_slice. destruct Hi as [Hi|Hi].
    + rewrite lookup_app_l by (rewrite length_take; lia).
      by apply lookup_take_lt.
    + rewrite lookup_app_r by (rewrite length_take; lia).
      rewrite lookup_app_r
        by (rewrite length_replicate, !length_take, length_drop; lia).
      rewrite lookup_drop. f_equal.
      rewrite length_replicate, !length_take, length_drop. lia.
  - rewrite !lookup_ge_None_2; [done|lia|rewrite zero_slice_length; lia].
Qed.

Lemma np_where_flag (d : list Z) :
  Forall (λ p, d !! p = Some _gps_flag_0) (np_where is_flag_0 d).
Proof.
  apply Forall_forall. intros p Hp.
  apply where_from_lookup in Hp as [_ (w & Hw & Hf)].
  rewrite Nat.sub_0_r in Hw. apply Z.eqb_eq in Hf. by subst w.
Qed.

Lemma scan_body_records (orig : list Z) F ii p st :
  zeroed_in_records orig (data st) →
  orig !! p = Some _gps_flag_0 →
  match scan_body F ii p st with
  | Continue st' | Break st' => zeroed_in_records orig (data st')
  | Fail _ => True
  end.
Proof.
  intros [Hlen Hinv] Hp. unfold scan_body.
  destruct (data st !! S p) as [next|] eqn:Hn; [|done].
  destruct (Z.eqb_spec next _gps_flag_1) as [->|]; [|done].
  case_bool_decide; [|done]. simpl.
  assert (Hpair : sentinel_pair orig p).
  { split; [done|]. destruct (Hinv (S p)) as [He|[He _]]; [congruence|].
    rewrite Hn in He. vm_compute in He. discriminate. }
  split; [by rewrite zero_slice_length|]. intros i.
  destruct (decide (p ≤ i < p + _gps_bytes)%nat) as [Hin|Hout].
  - destruct (decide (i < length (data st))%nat) as [Hi|Hi].
    + right. split; [by apply zero_slice_lookup_in|]. by exists p.
    + left. rewrite !lookup_ge_None_2; [done|lia|].
      rewrite zero_slice_length. lia.
  - rewrite zero_slice_lookup_out by lia. apply Hinv.
Qed.

Lemma scan_records (orig : list Z) F rest ii st st' :
  zeroed_in_records orig (data st) →
  Forall (λ p, orig !! p = Some _gps_flag_0) rest →
  scan F ii rest st = Ok st' → zeroed_in_records orig (data st').
Proof.
  intros Hinv Hrest. revert ii st Hinv.
  induction Hrest as [|p rest Hp _ IH]; intros ii st Hinv; simpl.
  - by intros [= <-].
  - pose proof (scan_body_records orig F ii p st Hinv Hp) as Hb.
    destruct (scan_body F ii p st) as [st1|st1|e]; [|by intros [= <-]|done].
    by apply IH.
Qed.

(** X15.  After the loop a first-sentinel word whose next word was not
    the second sentinel is still in the buffer, unless it lies inside the
    record of a sentinel pair that starts before it. *)
Lemma false_sentinel_word_kept (data1 : list Z) (p : nat) (st' : scan_state) :
  extract_stamps data1 = Ok st' →
  data1 !! p = Some _gps_flag_0 →
  data1 !! S p ≠ Some _gps_flag_1 →
  data st' !! p = Some _gps_flag_0
  ∨ ∃ q : nat, sentinel_pair data1 q ∧ (q < p < q + _gps_bytes)%nat.
Proof.
  intros Hrun Hp Hno.
  assert (Hinv : zeroed_in_records data1 (data st')).
  { eapply scan_records; [|apply np_where_flag|exact Hrun].
    split; [done|]. intros i. by left. }
  destruct Hinv as [_ Hinv].
  destruct (Hinv p) as [He|[_ (q & Hq & Hrange)]]; [left; congruence|].
  right. exists q. split; [done|].
  destruct (decide (q = p)) as [->|]; [|lia].
  destruct Hq as [_ Hq]. by destruct Hno.
Qed.

(** ** Streams of records and sample blocks *)

(** Closes [Forall (λ w, w ≠ _gps_flag_0) ws] on a list of numerals. *)
Ltac no_sentinel :=
  repeat (constructor; [discriminate|]); constructor.

Lemma false_sentinel_word_kept_witness :
  ∃ st' : scan_state,
    extract_stamps (stamp_at 1024 ++ [21; _gps_flag_0; 22] ++ stamp_at 2048)
    = Ok st'
    ∧ data st' !! 17%nat = Some _gps_flag_0.
Proof.
  eexists. split; [vm_compute; reflexivity|].
  destruct (false_sentinel_word_kept
              (stamp_at 1024 ++ [21; _gps_flag_0; 22] ++ stamp_at 2048)
              17 _ eq_refl) as [Hkept|(q & Hq & Hrange)].
  - reflexivity.
  - discriminate.
  - exact Hkept.
  - reflexivity.
Defined.

Lemma where_sample_block (b : list Z) (k : nat) :
  sample_block b → where_from is_flag_0 k b = [].
Proof.
  intros Hb. apply where_from_none. eapply Forall_impl; [exact Hb|].
  intros w Hw. by apply Z.eqb_neq.
Qed.

Lemma where_stamp_record (r : list Z) (k : nat) :
  stamp_record r → where_from is_flag_0 k r = [k].
Proof.
  intros (_ & H0 & _ & Hrest). destruct r as [|w r]; [done|].
  simpl in H0. injection H0 as ->. simpl in Hrest. rewrite drop_0 in Hrest.
  simpl. f_equal. by apply where_sample_block.
Qed.

Lemma where_blocks (segs : list (list Z * list Z)) (tail : list Z) (off : nat) :
  well_formed segs → sample_block tail →
  where_from is_flag_0 off (blocks segs ++ tail) = positions off segs.
Proof.
  intros Hwf Ht. revert off.
  induction Hwf as [|[b r] segs [Hb Hr] _ IH]; intros off; simpl.
  - by apply where_sample_block.
  - simpl in Hb, Hr. rewrite <- !app_assoc.
    rewrite where_from_app, (where_sample_block b) by done. simpl.
    rewrite where_from_app, (where_stamp_record r) by done. simpl.
    destruct Hr as [-> _]. by rewrite IH.
Qed.

Lemma positions_length (segs : list (list Z * list Z)) (off : nat) :
  length (positions off segs) = length segs.
Proof.
  revert off. induction segs as [|[b r] segs IH]; intros off; simpl; [done|].
  by rewrite IH.
Qed.

Lemma zero_slice_record (pre r rest : list Z) :
  length r = _gps_bytes →
  zero_slice (length pre) _gps_bytes (pre ++ r ++ rest)
  = pre ++ replicate _gps_bytes 0 ++ rest.
Proof.
  intros Hr. unfold zero_slice.
  rewrite take_app_length, <- drop_drop, drop_app_length.
  rewrite <- Hr, take_app_length, drop_app_length. done.
Qed.

Lemma scan_body_record F (ii : nat) (pre r rest : list Z) slots fl :
  stamp_record r →
  scan_body F ii (length pre)
    {| data := pre ++ r ++ rest; stamps := slots; failed := fl |}
  = Continue
      {| data := pre ++ replicate _gps_bytes 0 ++ rest;
         stamps :=
           <[ii := unpack_stamp r
                     (if (0 <? ii)%nat
                      then Z.of_nat (length pre)
                           - Z.of_nat (default 0%nat (F !! (ii - 1)%nat))
                           - Z.of_nat _gps_bytes
                      else 0)]> slots;
         failed := fl |}.
Proof.
  intros (Hlen & _ & H1 & _). unfold scan_body. simpl.
  assert (Hnext : (pre ++ r ++ rest) !! S (length pre) = Some _gps_flag_1).
  { rewrite lookup_app_r by lia.
    replace (S (length pre) - length pre)%nat with 1%nat by lia.
    by rewrite lookup_app_l by (rewrite Hlen; vm_compute; lia). }
  rewrite Hnext, Z.eqb_refl.
  rewrite drop_app_length.
  assert (Htake : take _gps_bytes (r ++ rest) = r).
  { by rewrite <- Hlen, take_app_length. }
  rewrite Htake, bool_decide_true by done.
  by rewrite zero_slice_record.
Qed.

Lemma scan_blocks (tail : list Z) (segs : list (list Z * list Z)) :
  well_formed segs →
  ∀ (pre prevs r : list _) slots fl F (p ii : nat) (bl : Z),
    stamp_record r →
    p = length pre → ii = length prevs →
    F = prevs ++ p :: positions (p + _gps_bytes) segs →
    bl = (if (0 <? ii)%nat
          then Z.of_nat p - Z.of_nat (default 0%nat (F !! (ii - 1)%nat))
               - Z.of_nat _gps_bytes
          else 0) →
    (ii + S (length segs) ≤ length slots)%nat →
    scan F ii (p :: positions (p + _gps_bytes) segs)
      {| data := pre ++ r ++ blocks segs ++ tail; stamps := slots;
         failed := fl |}
    = Ok {| data := pre ++ replicate _gps_bytes 0 ++ zeroed_blocks segs ++ tail;
            stamps := take ii slots ++ unpack_stamp r bl :: records_of segs
                      ++ drop (ii + S (length segs)) slots;
            failed := fl |}.
Proof.
  induction 1 as [|[b r'] segs [Hb Hr'] _ IH];
    intros pre prevs r slots fl F p ii bl Hr -> -> HF -> Hslots.
  - simpl. rewrite scan_body_record by done. f_equal. f_equal.
    rewrite insert_take_drop by (simpl in Hslots; lia).
    by replace (length prevs + 1)%nat with (S (length prevs)) by lia.
  - cbn [scan]. rewrite scan_body_record by done.
    cbn [positions blocks zeroed_blocks records_of fmap list_fmap length].
    simpl in Hb, Hr'. cbn [length] in Hslots.
    set (x := unpack_stamp r _).
    set (pre' := pre ++ replicate _gps_bytes 0 ++ b).
    assert (Hp' : length pre' = (length pre + _gps_bytes + length b)%nat).
    { unfold pre'. rewrite !length_app, length_replicate. lia. }
    rewrite <- Hp'.
    assert (HF' : F = (prevs ++ [length pre]) ++ length pre'
                        :: positions (length pre' + _gps_bytes) segs).
    { rewrite HF. cbn [positions]. rewrite <- Hp'. by rewrite <- app_assoc. }
    replace (pre ++ replicate _gps_bytes 0 ++ (b ++ r' ++ blocks segs) ++ tail)
      with (pre' ++ r' ++ blocks segs ++ tail)
      by (unfold pre'; by rewrite <- !app_assoc).
    rewrite (IH pre' (prevs ++ [length pre]) r' (<[length prevs := x]> slots)
               fl F (length pre') (S (length prevs))
               (Z.of_nat (length b))); try done.
    + f_equal. f_equal.
      * unfold pre'. by rewrite <- !app_assoc.
      * rewrite insert_take_drop by lia.
        set (A := take (length prevs) slots).
        assert (HA : length A = length prevs)
          by (unfold A; rewrite length_take; lia).
        rewrite (cons_middle x A), app_assoc.
        rewrite take_app_length' by (rewrite length_app, HA; simpl; lia).
        rewrite drop_app_add' by (rewrite length_app, HA; simpl; lia).
        rewrite drop_drop, <- app_assoc. simpl.
        by replace (S (length prevs + S (length segs)))
          with (length prevs + S (S (length segs)))%nat by lia.
    + rewrite length_app. simpl. lia.
    + simpl. rewrite Nat.sub_0_r.
      rewrite HF, lookup_app_r, Nat.sub_diag by lia. simpl.
      rewrite Hp'. lia.
    + rewrite length_insert. lia.
Qed.

Lemma extract_stamps_blocks (first tail : list Z) (segs : list (list Z * list Z)) :
  stamp_record first → well_formed segs → sample_block tail →
  extract_stamps (first ++ blocks segs ++ tail)
  = Ok {| data := replicate _gps_bytes 0 ++ zeroed_blocks segs ++ tail;
          stamps := unpack_stamp first 0 :: records_of segs;
          failed := None |}.
Proof.
  intros Hfirst Hwf Htail. unfold extract_stamps, scan_start.
  assert (HF : np_where is_flag_0 (first ++ blocks segs ++ tail)
               = 0%nat :: positions (0 + _gps_bytes) segs).
  { unfold np_where. rewrite where_from_app, (where_stamp_record first) by done.
    destruct Hfirst as [-> _]. by rewrite where_blocks. }
  rewrite HF. cbn [length]. rewrite positions_length.
  etrans.
  { apply (scan_blocks tail segs Hwf [] [] first
             (replicate (S (length segs)) zero_stamp) None
             (0%nat :: positions (0 + _gps_bytes) segs) 0 0 0); try done.
    simpl. rewrite length_replicate. lia. }
  simpl. rewrite drop_ge by (rewrite length_replicate; lia).
  by rewrite app_nil_r.
Qed.

Lemma fourth_detection (junk first rest : list Z) :
  length (np_where is_flag_0 junk) = 3%nat → stamp_record first →
  np_where is_flag_0 (junk ++ first ++ rest) !! 3%nat = Some (length junk).
Proof.
  intros Hj Hfirst. unfold np_where in *.
  rewrite where_from_app, lookup_app_r by lia. rewrite Hj. simpl.
  by rewrite where_from_app, (where_stamp_record first) by done.
Qed.

Lemma filter_zeros (n : nat) : filter (λ w : Z, w ≠ 0) (replicate n 0) = [].
Proof.
  induction n as [|n IH]; simpl; [done|].
  by rewrite filter_cons_False by (intros H; by apply H).
Qed.

Lemma filter_zeroed_blocks (segs : list (list Z * list Z)) :
  filter (λ w : Z, w ≠ 0) (zeroed_blocks segs)
  = filter (λ w : Z, w ≠ 0) (samples_of segs).
Proof.
  induction segs as [|[b r] segs IH]; [done|]. unfold samples_of in *.
  cbn [zeroed_blocks fmap list_fmap concat fst].
  by rewrite !filter_app, filter_zeros, IH.
Qed.



(** With [time_series] never assigned, the block-length check either
    raises or leaves the object as it is. *)
Lemma validate_unassigned (self self' : Zen3D.t) :
  time_series self = None → validate_time_blocks self = Ok self' → self' = self.
Proof.
  intros Hts. unfold validate_time_blocks. rewrite Hts.
  destruct (0 <? _)%nat; [|by intros [= <-]].
  destruct (_ <? 5)%nat; [done|by intros [= <-]].
Qed.



(** X14.  The stamp loop on a regular recording.  For a buffer made of
    leading words with exactly three first-sentinel words, a stamp
    record, sample blocks each closed by a stamp record and each of the
    declared length, and trailing samples: the fourth detection is the
    first record, the loop returns the records in order as stamps, the
    first with block length 0 and the others with the length of the
    block before them, the non-zero words left in the buffer, which are
    handed to the [ts] setter in counts, are the non-zero samples in
    order, and [validate_time_blocks] on these stamps changes nothing. *)
Theorem regular_stream_extracted (self : Zen3D.t)
    (junk first tail : list Z) (segs : list (list Z * list Z)) :
  length (np_where is_flag_0 junk) = 3%nat →
  stamp_record first → well_formed segs → sample_block tail →
  Forall (λ seg, Z.of_nat (length seg.1) = ad_rate self) segs →
  ∃ (start : nat) (st : scan_state),
    np_where is_flag_0 (junk ++ first ++ blocks segs ++ tail) !! 3%nat
    = Some start
    ∧ extract_stamps (drop start (junk ++ first ++ blocks segs ++ tail))
      = Ok st
    ∧ stamps st = unpack_stamp first 0 :: records_of segs
    ∧ filter (λ w, w ≠ 0) (data st)
      = filter (λ w, w ≠ 0) (samples_of segs ++ tail)
    ∧ validate_time_blocks
        {| ad_rate := ad_rate self; gps_stamps := stamps st;
           ts := filter (λ w, w ≠ 0) (data st);
           time_series := time_series self |}
      = Ok {| ad_rate := ad_rate self; gps_stamps := stamps st;
              ts := filter (λ w, w ≠ 0) (data st);
              time_series := time_series self |}.
Proof.
  intros Hjunk Hfirst Hwf Htail Hrate.
  exists (length junk). eexists.
  split; [by apply fourth_detection|].
  rewrite drop_app_length.
  split; [by apply extract_stamps_blocks|]. cbn [data stamps].
  split; [done|]. split.
  - rewrite filter_app, filter_zeros, app_nil_l.
    by rewrite filter_app, filter_zeroed_blocks, <- filter_app.
  - unfold validate_time_blocks, bad_blocks_of. cbn [gps_stamps ad_rate].
    assert (Hgood : np_where (λ bl, negb (bl =? ad_rate self))
                      (block_len
                         <$> drop 1 (unpack_stamp first 0 :: records_of segs))
                    = []).
    { apply where_from_none. simpl. rewrite drop_0. unfold records_of.
      rewrite <- list_fmap_compose. apply Forall_fmap.
      eapply Forall_impl; [exact Hrate|]. intros [b r] Hb. simpl in *.
      by rewrite Hb, Z.eqb_refl. }
    by rewrite Hgood.
Qed.

Lemma regular_stream_extracted_witness :
  ∃ (start : nat) (st : scan_state),
    np_where is_flag_0 trailing_samples !! 3%nat = Some start
    ∧ extract_stamps (drop start trailing_samples) = Ok st
    ∧ stamps st = [unpack_stamp (stamp_at 1024) 0;
                   unpack_stamp (stamp_at 2048) 2]
    ∧ filter (λ w, w ≠ 0) (data st) = [21; 22; 23; 24; 25].
Proof.
  assert (Hrec : ∀ tick, tick ≠ _gps_flag_0 → stamp_record (stamp_at tick)).
  { intros tick Htick. unfold stamp_record.
    split; [reflexivity|]. split; [reflexivity|]. split; [reflexivity|].
    simpl. constructor; [discriminate|].
    constructor; [exact Htick|]. no_sentinel. }
  destruct (regular_stream_extracted (fresh 2)
              [_gps_flag_0; 5; _gps_flag_0; _gps_flag_0; 7]
              (stamp_at 1024) [23; 24; 25] [([21; 22], stamp_at 2048)])
    as (start & st & Hs & He & Hst & Hf & _).
  - reflexivity.
  - apply Hrec. discriminate.
  - constructor; [|constructor]. split; [no_sentinel|].
    apply Hrec. discriminate.
  - no_sentinel.
  - repeat constructor.
  - exists start, st. split; [exact Hs|]. split; [exact He|].
    split; [exact Hst|exact Hf].
Defined.



(** * Further properties *)

Import Zen3DMore.

(** ** What [read_z3d] returns *)

Lemma scan_stamps_length F rest ii st st' :
  scan F ii rest st = Ok st' → length (stamps st') = length (stamps st).
Proof.
  revert ii st. induction rest as [|p rest IH]; intros ii st; simpl.
  - by intros [= <-].
  - unfold scan_body.
    destruct (data st !! S p) as [next|]; [|by intros [= <-]].
    destruct (next =? _gps_flag_1); [|apply IH].
    case_bool_decide; [|done].
    intros Hs. apply IH in Hs. simpl in Hs. by rewrite length_insert in Hs.
Qed.

(** X1.  When [read_z3d] returns on an object that never had
    [time_series] assigned, the stamp array has one element for every
    first-sentinel word of the raw buffer but the first three, whether or
    not the word starts a stamp record. *)
Theorem read_z3d_stamp_count (self self' : Zen3D.t) (data0 : list Z) :
  time_series self = None →
  read_z3d self data0 = Ok self' →
  (length (gps_stamps self') + 3 = length (np_where is_flag_0 data0))%nat.
Proof.
  intros Hts. unfold read_z3d, index.
  destruct (np_where is_flag_0 data0 !! 3%nat) as [start|] eqn:Hs; [|done].
  cbn [mbind result_bind].
  destruct (extract_stamps (drop start data0)) as [st|] eqn:Hext; [|done].
  cbn [mbind result_bind]. unfold finish.
  destruct (filter _ (data st)); [done|].
  intros Hv. apply validate_unassigned in Hv; [|done]. subst self'.
  cbn [gps_stamps]. unfold extract_stamps in Hext.
  apply scan_stamps_length in Hext. rewrite Hext. simpl.
  rewrite length_replicate, (np_where_drop _ _ _ _ Hs), length_fmap, length_drop.
  apply lookup_lt_Some in Hs. lia.
Qed.

Lemma read_z3d_stamp_count_witness :
  ∃ self' : Zen3D.t,
    read_z3d (fresh 2) trailing_samples = Ok self'
    ∧ (length (gps_stamps self') + 3
       = length (np_where is_flag_0 trailing_samples))%nat.
Proof.
  assert (Hrun : ∃ self', read_z3d (fresh 2) trailing_samples = Ok self').
  { eexists. vm_compute. reflexivity. }
  destruct Hrun as [self' Hrun]. exists self'. split; [exact Hrun|].
  apply (read_z3d_stamp_count (fresh 2) self' trailing_samples);
    [reflexivity|exact Hrun].
Defined.

Lemma zeroed_sublist (orig cur : list Z) :
  zeroed_from orig cur → filter (λ w, w ≠ 0) cur `sublist_of` orig.
Proof.
  intros [Hlen Hz]. revert cur Hlen Hz.
  induction orig as [|o orig IH]; intros [|c cur] Hlen Hz; try done.
  assert (Hrest : filter (λ w, w ≠ 0) cur `sublist_of` orig).
  { apply IH; [simpl in Hlen; lia|]. intros i w Hw. by apply (Hz (S i)). }
  destruct (Hz 0%nat c eq_refl) as [->|[= ->]].
  - rewrite filter_cons_False by (intros H; by apply H). by constructor.
  - rewrite filter_cons. case_decide; by constructor.
Qed.

(** X2.  The samples in counts, the non-zero words of the buffer that
    [read_z3d] hands to the [ts] setter once the stamp loop has returned
    and before anything scales them, are words of the raw buffer, in the
    order of the buffer, and none of them is zero: up to there the decode
    picks samples, it never makes or moves one. *)
Theorem extracted_samples_sublist (data0 : list Z) (start : nat)
    (st : scan_state) :
  np_where is_flag_0 data0 !! 3%nat = Some start →
  extract_stamps (drop start data0) = Ok st →
  filter (λ w, w ≠ 0) (data st) `sublist_of` data0
  ∧ Forall (λ w, w ≠ 0) (filter (λ w, w ≠ 0) (data st)).
Proof.
  intros _ Hext. split.
  - transitivity (drop start data0); [|apply sublist_drop].
    apply zeroed_sublist. eapply scan_zeroed; [|exact Hext].
    apply zeroed_from_refl.
  - apply Forall_forall. intros x Hx. by apply list_elem_of_filter in Hx as [Hx _].
Qed.

Lemma extracted_samples_sublist_witness :
  ∃ st : scan_state,
    extract_stamps (drop 5 trailing_samples) = Ok st
    ∧ filter (λ w, w ≠ 0) (data st) = [21; 22; 23; 24; 25]
    ∧ filter (λ w, w ≠ 0) (data st) `sublist_of` trailing_samples
    ∧ Forall (λ w, w ≠ 0) (filter (λ w, w ≠ 0) (data st)).
Proof.
  assert (Hrun : ∃ st, extract_stamps (drop 5 trailing_samples) = Ok st
                       ∧ filter (λ w, w ≠ 0) (data st) = [21; 22; 23; 24; 25]).
  { eexists. split; vm_compute; reflexivity. }
  destruct Hrun as (st & Hrun & Hf). exists st.
  split; [exact Hrun|]. split; [exact Hf|].
  apply (extracted_samples_sublist trailing_samples 5 st);
    [reflexivity|exact Hrun].
Defined.

Lemma zsum_cons (x : Z) (xs : list Z) : zsum (x :: xs) = x + zsum xs.
Proof. reflexivity. Qed.

Lemma zsum_app (xs ys : list Z) : zsum (xs ++ ys) = zsum xs + zsum ys.
Proof. unfold zsum. induction xs as [|x xs IH]; simpl; lia. Qed.

Lemma zsum_nonneg (xs : list Z) : Forall (λ x, 0 ≤ x) xs → 0 ≤ zsum xs.
Proof. unfold zsum. induction 1; simpl; lia. Qed.

Lemma zsum_take_drop (n : nat) (xs : list Z) :
  zsum xs = zsum (take n xs) + zsum (drop n xs).
Proof. by rewrite <- zsum_app, take_drop. Qed.

Lemma block_lens_nonneg (stamps : list gps_stamp) :
  Forall (λ s, 0 ≤ block_len s) stamps → Forall (λ x, 0 ≤ x) (block_len <$> stamps).
Proof. intros H. by apply Forall_fmap. Qed.

(** X3.  [validate_time_blocks] keeps the count of the samples in step
    with the stamps.  On an object that has [time_series], with block
    lengths that are not negative and a first stamp of block length 0:
    when the series held as many samples as [block_len] counts over the
    stamps after the first, plus [tail] more, it still does afterwards,
    whether or not stamps and samples were dropped. *)
Theorem validate_keeps_alignment (self self' : Zen3D.t) (series : list Z)
    (tail : Z) :
  time_series self = Some series →
  Forall (λ s, 0 ≤ block_len s) (gps_stamps self) →
  block_len <$> head (gps_stamps self) = Some 0 →
  0 ≤ tail →
  Z.of_nat (length series)
  = zsum (block_len <$> drop 1 (gps_stamps self)) + tail →
  validate_time_blocks self = Ok self' →
  ∃ series' : list Z,
    time_series self' = Some series'
    ∧ Z.of_nat (length series')
      = zsum (block_len <$> drop 1 (gps_stamps self')) + tail.
Proof.
  intros Hts Hpos Hhead Htail Hlen. unfold validate_time_blocks. rewrite Hts.
  destruct (0 <? _)%nat; [|intros [= <-]; eauto].
  destruct (_ <? 5)%nat; [|intros [= <-]; eauto].
  intros [= <-]. cbn [time_series gps_stamps]. eexists. split; [done|].
  set (b := default 0%nat (last (bad_blocks_of self))).
  set (lens := block_len <$> gps_stamps self) in *.
  assert (Hall : zsum lens = zsum (block_len <$> drop 1 (gps_stamps self))).
  { unfold lens. destruct (gps_stamps self) as [|s0 rest]; [done|].
    simpl in Hhead. injection Hhead as Hhead.
    rewrite fmap_cons, zsum_cons. simpl. rewrite drop_0. lia. }
  pose proof (zsum_take_drop (b + 1)%nat lens) as Hsplit.
  assert (Hlens : Forall (λ x, 0 ≤ x) lens) by by apply block_lens_nonneg.
  pose proof (zsum_nonneg _ (Forall_take _ (b + 1)%nat _ Hlens)) as Htake.
  pose proof (zsum_nonneg _ (Forall_drop _ (b + 1)%nat _ Hlens)) as Hdrop.
  rewrite drop_drop, !fmap_drop, !fmap_take. fold lens.
  unfold slice_from.
  destruct (Z.leb_spec 0 (zsum (take (b + 1)%nat lens))); [|lia].
  rewrite length_drop. lia.
Qed.

Lemma validate_keeps_alignment_witness :
  ∃ self' : Zen3D.t,
    validate_time_blocks
      {| ad_rate := 2;
         gps_stamps := (λ bl, unpack_stamp [] bl) <$> [0; 1; 1; 2; 2];
         ts := []; time_series := Some [21; 22; 23; 24; 25; 26; 27] |}
    = Ok self'
    ∧ block_len <$> gps_stamps self' = [1; 1; 2; 2]
    ∧ time_series self' = Some [22; 23; 24; 25; 26; 27].
Proof.
  destruct (validate_keeps_alignment
              {| ad_rate := 2;
                 gps_stamps := (λ bl, unpack_stamp [] bl) <$> [0; 1; 1; 2; 2];
                 ts := []; time_series := Some [21; 22; 23; 24; 25; 26; 27] |}
              {| ad_rate := 2;
                 gps_stamps := (λ bl, unpack_stamp [] bl) <$> [1; 1; 2; 2];
                 ts := []; time_series := Some [22; 23; 24; 25; 26; 27] |}
              [21; 22; 23; 24; 25; 26; 27] 1) as (series' & Hs & _).
  - reflexivity.
  - repeat constructor; simpl; lia.
  - reflexivity.
  - lia.
  - reflexivity.
  - reflexivity.
  - eexists. split; [reflexivity|]. split; reflexivity.
Defined.

(** X4.  [trim_data] needs three stamps and the attribute [time_series].
    On an object that has [time_series], with block lengths that are not
    negative and a first stamp of block length 0, when it returns: it has
    kept the stamps from the third on and set the block length of the
    first one kept to 0, and it has dropped the samples the first three
    block lengths count, so that a series that held as many samples as
    [block_len] counts over the stamps after the first, plus [tail] more
    ([tail] not negative), still does. *)
Theorem trim_data_keeps_alignment (self self' : Zen3D.t) (series : list Z)
    (tail : Z) :
  time_series self = Some series →
  Forall (λ s, 0 ≤ block_len s) (gps_stamps self) →
  block_len <$> head (gps_stamps self) = Some 0 →
  0 ≤ tail →
  Z.of_nat (length series)
  = zsum (block_len <$> drop 1 (gps_stamps self)) + tail →
  trim_data self = Ok self' →
  (length (gps_stamps self') + 2 = length (gps_stamps self))%nat
  ∧ block_len <$> head (gps_stamps self') = Some 0
  ∧ drop 1 (gps_stamps self') = drop 3 (gps_stamps self)
  ∧ ∃ series' : list Z,
      time_series self' = Some series'
      ∧ Z.of_nat (length series')
        = zsum (block_len <$> drop 1 (gps_stamps self')) + tail.
Proof.
  intros Hts Hpos Hhead Htail Hlen. unfold trim_data. rewrite Hts.
  destruct (gps_stamps self) as [|s0 [|s1 [|s2 rest]]]; try done.
  simpl in Hhead. injection Hhead as Hhead.
  simpl. intros [= <-]. cbn [gps_stamps time_series].
  split; [simpl; lia|]. split; [done|]. split; [done|].
  eexists. split; [done|].
  apply Forall_cons in Hpos as [_ Hpos]. apply Forall_cons in Hpos as [H1 Hpos].
  apply Forall_cons in Hpos as [H2 Hpos].
  pose proof (zsum_nonneg _ (block_lens_nonneg _ Hpos)) as Hrest.
  change (drop 1 (s0 :: s1 :: s2 :: rest)) with (s1 :: s2 :: rest) in Hlen.
  rewrite !fmap_cons, !zsum_cons in Hlen.
  change (drop 1 (set_block_len s2 0 :: rest)) with rest. unfold slice_from.
  destruct (Z.leb_spec 0 (block_len s0 + (block_len s1 + (block_len s2 + 0))));
    [|lia].
  rewrite length_drop. lia.
Qed.

Lemma trim_data_keeps_alignment_witness :
  ∃ self' : Zen3D.t,
    trim_data
      {| ad_rate := 2;
         gps_stamps := (λ bl, unpack_stamp [] bl) <$> [0; 1; 1; 2; 2];
         ts := []; time_series := Some [21; 22; 23; 24; 25; 26; 27] |}
    = Ok self'
    ∧ block_len <$> gps_stamps self' = [0; 2; 2]
    ∧ time_series self' = Some [23; 24; 25; 26; 27].
Proof.
  destruct (trim_data_keeps_alignment
              {| ad_rate := 2;
                 gps_stamps := (λ bl, unpack_stamp [] bl) <$> [0; 1; 1; 2; 2];
                 ts := []; time_series := Some [21; 22; 23; 24; 25; 26; 27] |}
              {| ad_rate := 2;
                 gps_stamps := (λ bl, unpack_stamp [] bl) <$> [0; 2; 2];
                 ts := []; time_series := Some [23; 24; 25; 26; 27] |}
              [21; 22; 23; 24; 25; 26; 27] 1) as (_ & _ & _ & series' & Hs & _).
  - reflexivity.
  - repeat constructor; simpl; lia.
  - reflexivity.
  - lia.
  - reflexivity.
  - reflexivity.
  - eexists. split; [reflexivity|]. split; reflexivity.
Defined.

(** ** The instant behind the text *)

Import GpsTime.

(** X5.  [get_UTC_date_time] reads a week of seconds as a week: for a
    whole week number and whole seconds of week, all far below [2^53], on
    an instant the [time] module handles, 604800 seconds more in the
    seconds of week give the text of the next week number, whichever side
    of the roll-over test the two calls fall on. *)
Theorem week_of_seconds_is_next_week (leap_seconds gps_week seconds_of_week : Z) :
  Z.abs gps_week < 2 ^ 31 →
  Z.abs seconds_of_week ≤ 2 ^ 50 →
  Z.abs leap_seconds ≤ 2 ^ 50 →
  in_time_range
    (inject_Z (315964800 + (gps_week + 1) * 604800 + seconds_of_week
               - leap_seconds)) →
  get_UTC_date_time leap_seconds gps_week
    (inject_Z (seconds_of_week + _week_len))
  = get_UTC_date_time leap_seconds (gps_week + 1) (inject_Z seconds_of_week).
Proof.
  intros Hw Hs Hl _. unfold _week_len.
  rewrite !get_UTC_date_time_whole by lia. do 2 f_equal. lia.
Qed.

Lemma week_of_seconds_is_next_week_witness :
  get_UTC_date_time 16 1854 (inject_Z (100 + _week_len))
  = get_UTC_date_time 16 (1854 + 1) (inject_Z 100)
  ∧ get_UTC_date_time 16 (1854 + 1) (inject_Z 100) = "2015-07-26,00:01:24".
Proof.
  split; [|vm_compute; reflexivity].
  apply (week_of_seconds_is_next_week 16 1854 100);
    [vm_compute; reflexivity|vm_compute; discriminate..|].
  split; vm_compute; [discriminate|reflexivity].
Defined.

(** X6.  The start time [check_start_time] computes from the first stamp
    and stores in the schedule is GPS time, not UTC: it adds the leap
    seconds to the stamp before [get_UTC_date_time] takes them off.  For
    a first stamp at a whole number of seconds, a [float32] below [2^24],
    and a whole week number, the text is the instant 1980-01-06 plus the
    weeks plus the stamp's seconds of week, whatever [_leap_seconds]
    holds. *)
Theorem zen_start_is_gps_time (leap_seconds gpsweek seconds_of_week : Z) :
  Z.abs gpsweek ≤ 2 ^ 31 →
  Z.abs seconds_of_week < 2 ^ 24 →
  Z.abs leap_seconds ≤ 2 ^ 50 →
  in_time_range
    (inject_Z (315964800 + gpsweek * 604800 + seconds_of_week)) →
  zen_start leap_seconds gpsweek (inject_Z seconds_of_week)
  = PyTime.strftime
      (PyTime.gmtime (315964800 + gpsweek * 604800 + seconds_of_week)).
Proof.
  intros Hw Hs Hl _. unfold zen_start.
  rewrite fl64_add, get_UTC_date_time_whole by lia. do 2 f_equal. lia.
Qed.

Lemma zen_start_is_gps_time_witness :
  zen_start 16 1854 (inject_Z 604790) = "2015-07-25,23:59:50"
  ∧ zen_start 0 1854 (inject_Z 604790) = "2015-07-25,23:59:50".
Proof.
  split.
  - rewrite (zen_start_is_gps_time 16 1854 604790);
      [vm_compute; reflexivity|vm_compute; discriminate
      |vm_compute; reflexivity|vm_compute; discriminate|].
    split; vm_compute; [discriminate|reflexivity].
  - vm_compute. reflexivity.
Defined.

(** ** Lines and attributes *)

Lemma split_none (c : ascii) (s : string) :
  Py.find c s < 0 → Py.split c s = [s].
Proof.
  induction s as [|d s IH]; simpl; [done|].
  destruct (Ascii.eqb d c); [lia|].
  destruct (Z.ltb_spec (Py.find c s) 0) as [Hlt|Hge]; [|lia].
  intros _. by rewrite IH.
Qed.

Lemma split_cons (c : ascii) (s : string) :
  0 ≤ Py.find c s →
  Py.split c s = Text.before c s :: Py.split c (Text.after c s).
Proof.
  unfold Text.before, Text.after.
  induction s as [|d s IH]; simpl; [lia|].
  destruct (Ascii.eqb d c) eqn:Hd; [done|].
  destruct (Z.ltb_spec (Py.find c s) 0) as [Hlt|Hge]; [lia|]. intros _.
  specialize (IH Hge).
  destruct (Z.ltb_spec (Py.find c s) 0) as [|_]; [lia|].
  destruct (Z.ltb_spec (Py.find c s + 1) 0) as [|_]; [lia|].
  rewrite IH.
  replace (Z.to_nat (Py.find c s + 1 + 1))
    with (S (S (Z.to_nat (Py.find c s)))) by lia.
  replace (Z.to_nat (Py.find c s + 1)) with (S (Z.to_nat (Py.find c s))) by lia.
  done.
Qed.

Lemma split_at_1 (c : ascii) (s : string) :
  0 ≤ Py.find c s →
  Py.split c s !! 1%nat = Some (Text.before c (Text.after c s)).
Proof.
  intros Hf. rewrite split_cons by done. simpl.
  rewrite <- head_lookup. apply split_head.
Qed.

Lemma for_each_app {S A : Type} (body : S → A → result S) (s : S)
    (xs ys : list A) :
  for_each body s (xs ++ ys) = s' ← for_each body s xs; for_each body s' ys.
Proof.
  revert s. induction xs as [|x xs IH]; intros s; simpl; [done|].
  destruct (body s x); simpl; [apply IH|done].
Qed.

Lemma header_line_ok (self self' : gmap string hvalue) (line : string) :
  header_line self line = Ok self' →
  if 0 <? Py.find "=" line
  then ∃ v : hvalue,
         convert_value (h_key line) (Text.rhs line) = Ok v
         ∧ self' = <[h_key line := v]> self
  else self' = self.
Proof.
  unfold header_line.
  destruct (Z.ltb_spec 0 (Py.find "=" line)) as [Hf|]; [|by intros [= <-]].
  unfold index. rewrite split_at_1 by lia. simpl.
  case_bool_decide; [done|]. fold (Text.rhs line).
  destruct (convert_value _ _) as [v|]; simpl; [|done].
  unfold Z3D_Header.setattr. repeat case_bool_decide; try done.
  intros [= <-]. eauto.
Qed.

Lemma header_lines_untouched (lines : list string)
    (self self' : gmap string hvalue) (k : string) :
  Forall (λ line, line_key line ≠ Some k) lines →
  for_each header_line self lines = Ok self' →
  self' !! k = self !! k.
Proof.
  intros Hl. revert self. induction Hl as [|line lines Hk _ IH]; intros self;
    simpl; [by intros [= <-]|].
  destruct (header_line self line) as [self1|] eqn:Hline; simpl; [|done].
  intros Hrest. rewrite (IH _ Hrest).
  apply header_line_ok in Hline. unfold line_key in Hk.
  destruct (0 <? Py.find "=" line); [|by subst].
  destruct Hline as (v & _ & ->). apply lookup_insert_ne. congruence.
Qed.

(** X7.  Apart from [fn], [fid] and [header_str], which the read itself
    assigns, [read_header] writes only the attributes its lines name:
    after a read that returns, an attribute other than these three that
    is the key of no line of the block is what it was before. *)
Theorem read_header_other_attributes (self self' : gmap string hvalue)
    (fid k : string) :
  k ∉ ["fn"; "fid"; "header_str"] →
  Forall (λ line, line_key line ≠ Some k)
         (Py.split newline (Py.take Z3D_Header._header_len fid)) →
  read_header self fid = Ok self' →
  self' !! k = self !! k.
Proof.
  intros Hk Hlines Hread.
  rewrite !not_elem_of_cons in Hk. destruct Hk as (_ & Hfid & Hstr & _).
  rewrite (header_lines_untouched _ _ _ _ Hlines Hread).
  by rewrite !lookup_insert_ne.
Qed.

Lemma read_header_other_attributes_witness :
  ∃ self' : gmap string hvalue,
    read_header {["version" := HFloat "4147"]}
                (newline_join "GPS Week = 1854" "Tx.Freq = 32")
    = Ok self'
    ∧ self' !! "version" = Some (HFloat "4147")
    ∧ self' !! "gps_week" = Some (HFloat "1854").
Proof.
  eexists. split; [reflexivity|]. split; [|reflexivity].
  rewrite (read_header_other_attributes
             {["version" := HFloat "4147"]} _
             (newline_join "GPS Week = 1854" "Tx.Freq = 32") "version");
    [reflexivity| | |reflexivity].
  - intros H. repeat (apply elem_of_cons in H as [H|H]; [discriminate H|]).
    by apply elem_of_nil in H.
  - repeat constructor; vm_compute; discriminate.
Defined.

(** X8.  When several lines of the header block give the same key, the
    last one wins: after a read that returns, the attribute holds the
    converted right-hand side of the last line with that key, the text
    between its first and second ['='] without surrounding whitespace. *)
Theorem read_header_last_line_wins (self self' : gmap string hvalue)
    (fid : string) (pre post : list string) (line : string) :
  Py.split newline (Py.take Z3D_Header._header_len fid) = pre ++ line :: post →
  0 < Py.find "=" line →
  Forall (λ l, line_key l ≠ Some (h_key line)) post →
  read_header self fid = Ok self' →
  ∃ v : hvalue,
    convert_value (h_key line) (Text.rhs line) = Ok v
    ∧ self' !! h_key line = Some v.
Proof.
  intros Hsplit Hf Hpost. unfold read_header. cbv zeta.
  rewrite Hsplit, for_each_app.
  destruct (for_each header_line _ pre) as [self1|]; simpl; [|done].
  destruct (header_line self1 line) as [self2|] eqn:Hline; simpl; [|done].
  intros Hrest. apply header_line_ok in Hline.
  destruct (Z.ltb_spec 0 (Py.find "=" line)); [|lia].
  destruct Hline as (v & Hv & ->). exists v. split; [done|].
  rewrite (header_lines_untouched _ _ _ _ Hpost Hrest). apply lookup_insert_eq.
Qed.

Lemma read_header_last_line_wins_witness :
  ∃ self' : gmap string hvalue,
    read_header ∅ (newline_join "Box number = 24"
                     (newline_join "BOX NUMBER = 25 = 26" "Tx.Freq = 32"))
    = Ok self'
    ∧ self' !! "box_number" = Some (HFloat "25").
Proof.
  eexists. split; [reflexivity|].
  destruct (read_header_last_line_wins ∅
              (<["tx_freq" := HFloat "32"]>
                 (<["box_number" := HFloat "25"]>
                    (<["box_number" := HFloat "24"]>
                       (<["header_str" :=
                            HText (newline_join "Box number = 24"
                                     (newline_join "BOX NUMBER = 25 = 26"
                                        "Tx.Freq = 32"))]>
                          (<["fid" :=
                               HFile (newline_join "Box number = 24"
                                        (newline_join "BOX NUMBER = 25 = 26"
                                           "Tx.Freq = 32"))]> ∅)))))
              (newline_join "Box number = 24"
                 (newline_join "BOX NUMBER = 25 = 26" "Tx.Freq = 32"))
              ["Box number = 24"] ["Tx.Freq = 32"] "BOX NUMBER = 25 = 26")
    as (v & Hv & Hl).
  - reflexivity.
  - reflexivity.
  - repeat constructor. vm_compute. discriminate.
  - reflexivity.
  - reflexivity.
Defined.

(** ** Schedule lines *)

Import Z3D_Schedule_metadata.

Lemma setattr_plain (self : gmap string string) (name value : string) :
  Text.plain_attribute name →
  Z3D_Schedule_metadata.setattr self name value = Ok (<[name := value]> self).
Proof.
  unfold Text.plain_attribute, Z3D_Schedule_metadata.setattr. intros Hn.
  rewrite !not_elem_of_cons in Hn. destruct Hn as (H1 & H2 & H3 & _).
  rewrite bool_decide_eq_false_2 by (intros [|]; done).
  by rewrite bool_decide_eq_false_2.
Qed.

Lemma schedule_line_result (self : gmap string string) (line : string) :
  0 < Py.find "=" line →
  schedule_line self line
  = if Py.find "." (Text.before "=" line) <? 0 then Raise IndexError
    else Z3D_Schedule_metadata.setattr self (Text.schedule_key line)
           (Text.rhs line).
Proof.
  intros Hf. unfold schedule_line.
  destruct (Z.ltb_spec 0 (Py.find "=" line)); [|lia].
  unfold index. rewrite split_at_1 by lia.
  rewrite split_cons by lia. cbn [lookup list_lookup mbind result_bind].
  destruct (Z.ltb_spec (Py.find "." (Text.before "=" line)) 0) as [Hd|Hd].
  - by rewrite split_none.
  - by rewrite split_at_1.
Qed.

(** X9.  A schedule line is named by its second dotted piece alone.  For
    a line whose first ['='] is not its first character: without a ['.']
    before that ['='] the line raises [IndexError]; with one, the line
    stores one attribute, named by the text between the first and the
    second ['.'] (or up to the ['=']), stripped and with every ['/']
    removed, and holding the text between the first and the second ['=']
    stripped.  What stands before the first ['.'] is not looked at. *)
Theorem schedule_line_second_piece (self : gmap string string) (line : string) :
  0 < Py.find "=" line →
  Text.plain_attribute (Text.schedule_key line) →
  schedule_line self line
  = if Py.find "." (Text.before "=" line) <? 0 then Raise IndexError
    else Ok (<[Text.schedule_key line := Text.rhs line]> self).
Proof.
  intros Hf Hplain. rewrite schedule_line_result by done.
  by rewrite setattr_plain.
Qed.

Lemma schedule_line_second_piece_witness :
  schedule_line ∅ "HEADER.Sync/Time.extra = 1 = 2" = Ok {["SyncTime" := "1"]}
  ∧ schedule_line ∅ "Comment = none" = Raise IndexError.
Proof.
  split.
  - rewrite (schedule_line_second_piece ∅ "HEADER.Sync/Time.extra = 1 = 2");
      [reflexivity|reflexivity|].
    unfold Text.plain_attribute. vm_compute.
    intros H. repeat (apply elem_of_cons in H as [H|H]; [discriminate H|]).
    by apply elem_of_nil in H.
  - rewrite (schedule_line_second_piece ∅ "Comment = none");
      [reflexivity|reflexivity|].
    unfold Text.plain_attribute. vm_compute.
    intros H. repeat (apply elem_of_cons in H as [H|H]; [discriminate H|]).
    by apply elem_of_nil in H.
Defined.

Lemma schedule_lines_raise (lines : list string) (self : gmap string string)
    (e : exn) :
  Forall (λ line, Text.plain_attribute (Text.schedule_key line)) lines →
  for_each schedule_line self lines = Raise e → e = IndexError.
Proof.
  intros Hplain. revert self.
  induction Hplain as [|line lines Hp _ IH]; intros self; simpl; [done|].
  destruct (schedule_line self line) as [self1|e1] eqn:Hline; simpl; [apply IH|].
  intros [= <-].
  destruct (Z.ltb_spec 0 (Py.find "=" line)) as [Hf|Hf].
  - rewrite schedule_line_result in Hline by done.
    rewrite setattr_plain in Hline by done.
    destruct (_ <? 0); congruence.
  - unfold schedule_line in Hline.
    by destruct (Z.ltb_spec 0 (Py.find "=" line)); [lia|].
Qed.

(** X10.  One line without a dotted name spoils the schedule block: when
    some line of the block has its first ['='] after its first character
    and no ['.'] before it, [read_schedule_metadata] raises [IndexError],
    whatever the other lines hold and before the time is corrected. *)
Theorem schedule_block_needs_dotted_names (self : gmap string string)
    (fid : string) :
  Exists (λ line, 0 < Py.find "=" line
                  ∧ Py.find "." (Text.before "=" line) < 0)
         (Py.split newline
            (Py.take Z3D_Schedule_metadata._header_len
               (Py.drop Z3D_Schedule_metadata._header_len fid))) →
  Forall (λ line, Text.plain_attribute (Text.schedule_key line))
         (Py.split newline
            (Py.take Z3D_Schedule_metadata._header_len
               (Py.drop Z3D_Schedule_metadata._header_len fid))) →
  read_schedule_metadata self fid = Raise IndexError.
Proof.
  intros Hbad Hplain. unfold read_schedule_metadata.
  set (lines := Py.split _ _) in *.
  assert (Hloop : for_each schedule_line self lines = Raise IndexError).
  { clearbody lines. revert self.
    induction Hbad as [line lines [Hf Hd]|line lines _ IH]; intros self; simpl;
      apply Forall_cons in Hplain as [Hp Hplain].
    - rewrite schedule_line_result by done.
      by destruct (Z.ltb_spec (Py.find "." (Text.before "=" line)) 0); [|lia].
    - destruct (schedule_line self line) as [self1|e] eqn:Hline; simpl;
        [by apply IH|].
      f_equal. apply (schedule_lines_raise [line] self); [by constructor|].
      simpl. by rewrite Hline. }
  by rewrite Hloop.
Qed.

Lemma schedule_block_needs_dotted_names_witness :
  read_schedule_metadata ∅
    (Py.zeros 512
       +:+ newline_join "SCHEDULE.Time = 08:00:00"
             (newline_join "Comment = none" "SCHEDULE.Date = 2015-05-22"))
  = Raise IndexError.
Proof.
  assert (E : Py.split newline
                (Py.take Z3D_Schedule_metadata._header_len
                   (Py.drop Z3D_Schedule_metadata._header_len
                      (Py.zeros 512
                         +:+ newline_join "SCHEDULE.Time = 08:00:00"
                               (newline_join "Comment = none"
                                  "SCHEDULE.Date = 2015-05-22"))))
              = ["SCHEDULE.Time = 08:00:00"; "Comment = none";
                 "SCHEDULE.Date = 2015-05-22"])
    by (vm_compute; reflexivity).
  apply schedule_block_needs_dotted_names; rewrite E.
  - apply Exists_cons_tl, Exists_cons_hd. split; vm_compute; reflexivity.
  - repeat constructor; unfold Text.plain_attribute; vm_compute;
      intros H; repeat (apply elem_of_cons in H as [H|H]; [discriminate H|]);
      by apply elem_of_nil in H.
Defined.

(** ** The read loop *)

Import Z3DData.

Lemma block_words_pos : (0 < block_words)%nat.
Proof. vm_compute. lia. Qed.

Opaque block_words.

Lemma assign_next (done rest : list Z) (n : nat) :
  assign (done ++ replicate (length rest) 0) (length done) (take n rest)
  = (done ++ take n rest) ++ replicate (length (drop n rest)) 0.
Proof.
  unfold assign. rewrite take_app_length, <- app_assoc. do 2 f_equal.
  rewrite drop_app_add', drop_replicate, length_drop by done.
  f_equal. rewrite length_take. lia.
Qed.

(** The model never runs out of steps: every turn of the loop that goes
    on takes at least one word from the file. *)
Lemma read_blocks_fuel (fuel : nat) (limit : Z) (rest : list Z) (odd : nat)
    (data : list Z) (data_count : nat) :
  (length rest < fuel)%nat →
  read_blocks fuel limit rest odd data data_count ≠ OutOfFuel.
Proof.
  revert rest data data_count.
  induction fuel as [|fuel IH]; intros rest data dc Hlen; [lia|].
  simpl. destruct (_ <? _); [|done].
  repeat (case_bool_decide; [done|]).
  apply IH. rewrite length_drop.
  destruct rest as [|w rest]; [by rewrite take_nil in *|].
  pose proof block_words_pos. simpl in *. lia.
Qed.

Lemma read_data_fuel (src : source) : read_data src ≠ OutOfFuel.
Proof.
  unfold read_data. destruct (_ <? 0); [done|].
  apply read_blocks_fuel. lia.
Qed.

(** One turn of the loop on a buffer that holds the words read so far
    and zeros behind them. *)
Lemma read_blocks_step (fuel : nat) (limit : Z) (done rest : list Z)
    (odd : nat) :
  0 ≤ limit → limit < Z.of_nat (length rest) →
  (block_words ≤ length rest)%nat ∨ odd = 0%nat →
  read_blocks (S fuel) limit rest odd
    (done ++ replicate (length rest) 0) (length done)
  = read_blocks fuel limit (drop block_words rest) odd
      ((done ++ take block_words rest)
         ++ replicate (length (drop block_words rest)) 0)
      (length (done ++ take block_words rest)).
Proof.
  intros Hlimit Hrest Hfull. pose proof block_words_pos as HB.
  cbn [read_blocks]. rewrite length_app, length_replicate.
  destruct (Z.ltb_spec (Z.of_nat (length done) + limit)
              (Z.of_nat (length done + length rest))); [|lia].
  rewrite bool_decide_false by lia.
  rewrite bool_decide_false by (rewrite length_take; lia).
  rewrite bool_decide_false.
  - by rewrite assign_next, length_app.
  - destruct rest as [|w rest]; [simpl in *; lia|].
    destruct block_words; [lia|done].
Qed.

Lemma read_blocks_regular (fuel : nat) (limit : Z) (done rest : list Z) :
  0 ≤ limit → (length rest < fuel)%nat →
  ∃ j : nat,
    read_blocks fuel limit rest 0
      (done ++ replicate (length rest) 0) (length done)
    = Done (Ok (done ++ take (block_words * j) rest
                  ++ replicate (length rest - block_words * j) 0))
    ∧ Z.of_nat (length rest) ≤ Z.of_nat (block_words * j) + limit
    ∧ (j = 0%nat
       ∨ Z.of_nat (block_words * (j - 1)) + limit < Z.of_nat (length rest)).
Proof.
  intros Hlimit. pose proof block_words_pos as HB.
  revert done rest. induction fuel as [|fuel IH]; intros done rest Hfuel; [lia|].
  destruct (Z.lt_ge_cases limit (Z.of_nat (length rest))) as [Hgo|Hstop].
  - rewrite read_blocks_step by (done || by right).
    destruct (IH (done ++ take block_words rest) (drop block_words rest))
      as (j & -> & Hle & Hmin).
    { rewrite length_drop. lia. }
    exists (S j). rewrite length_drop in *.
    replace (S j - 1)%nat with j by lia.
    rewrite Nat.mul_succ_r.
    split; [|split].
    + do 2 f_equal. rewrite <- app_assoc. f_equal.
      rewrite (Nat.add_comm (block_words * j)), <- take_take_drop.
      rewrite <- app_assoc. do 3 f_equal. lia.
    + lia.
    + right. destruct Hmin as [->|Hmin]; [rewrite Nat.mul_0_r; lia|].
      destruct j as [|j]; [rewrite Nat.mul_0_r; lia|].
      replace (S j - 1)%nat with j in Hmin by lia.
      rewrite Nat.mul_succ_r. lia.
  - exists 0%nat. rewrite Nat.mul_0_r. cbn [read_blocks].
    rewrite length_app, length_replicate.
    destruct (Z.ltb_spec (Z.of_nat (length done) + limit)
                (Z.of_nat (length done + length rest))); [lia|].
    split; [|split; [lia|by left]].
    by rewrite take_0, Nat.sub_0_r.
Qed.

Lemma regular_size (src : source) :
  regular src →
  (file_size src - 512 * (2 + count src)) / 4
  = Z.of_nat (length (words src))
  ∧ 0 ≤ m_tell src / 4.
Proof.
  intros (Hc & Hm & Hs & Ho). split.
  - rewrite Hs, Hm.
    replace (512 * (2 + count src) + 4 * Z.of_nat (length (words src))
             + Z.of_nat (odd_bytes src) - 512 * (2 + count src))
      with (Z.of_nat (odd_bytes src) + Z.of_nat (length (words src)) * 4)
      by lia.
    rewrite Z.div_add by lia. rewrite Z.div_small; lia.
  - apply Z.div_pos; lia.
Qed.

(** X11.  The read loop stops a header's length short of the end.  On a
    file that goes on after its metadata, in whole words, the buffer
    [read_z3d] works on holds the words of the file in whole blocks of
    [_block_len] bytes only up to the first block boundary from which no
    more than [m_tell/4] words are left; the words after that boundary
    are never read and stay the zeros of [np.zeros]. *)
Theorem read_data_stops_early (src : source) :
  regular src → odd_bytes src = 0%nat →
  ∃ j : nat,
    read_data src
    = Done (Ok (take (block_words * j) (words src)
                  ++ replicate (length (words src) - block_words * j) 0))
    ∧ Z.of_nat (length (words src))
      ≤ Z.of_nat (block_words * j) + m_tell src / 4
    ∧ (j = 0%nat
       ∨ Z.of_nat (block_words * (j - 1)) + m_tell src / 4
         < Z.of_nat (length (words src))).
Proof.
  intros Hreg Hodd. destruct (regular_size src Hreg) as [Hsize Hlimit].
  unfold read_data. rewrite Hsize, Hodd, Nat2Z.id.
  destruct (Z.ltb_spec (Z.of_nat (length (words src))) 0); [lia|].
  apply (read_blocks_regular _ _ [] (words src)); [done|lia].
Qed.

Lemma read_data_stops_early_witness :
  read_data {| file_size := 1024 + 4 * (Z.of_nat block_words + 3);
               count := 0; m_tell := 1024;
               words := replicate block_words 7 ++ [21; 22; 23];
               odd_bytes := 0 |}
  = Done (Ok (replicate block_words 7 ++ [0; 0; 0])).
Proof.
  destruct (read_data_stops_early
              {| file_size := 1024 + 4 * (Z.of_nat block_words + 3);
                 count := 0; m_tell := 1024;
                 words := replicate block_words 7 ++ [21; 22; 23];
                 odd_bytes := 0 |}) as (j & Hj & Hle & Hmin).
  - repeat split; vm_compute; try reflexivity; try discriminate. lia.
  - reflexivity.
  - vm_compute. reflexivity.
Defined.

(** X12.  A recording with no more data words than the header, schedule
    and metadata blocks take up is read as nothing at all: the loop body
    never runs, the buffer stays zero, and [read_z3d] raises [IndexError]
    at the fourth sentinel it looks for. *)
Theorem short_recording_raises (self : Zen3D.t) (src : source) :
  regular src →
  Z.of_nat (length (words src)) ≤ m_tell src / 4 →
  read_z3d_from self src = Done (Raise IndexError).
Proof.
  intros Hreg Hshort. destruct (regular_size src Hreg) as [Hsize Hlimit].
  unfold read_z3d_from, read_data. rewrite Hsize, Nat2Z.id.
  destruct (Z.ltb_spec (Z.of_nat (length (words src))) 0); [lia|].
  cbn [read_blocks]. rewrite length_replicate.
  destruct (Z.ltb_spec (Z.of_nat 0 + m_tell src / 4)
              (Z.of_nat (length (words src)))); [lia|].
  unfold read_z3d, np_where. rewrite where_from_none; [done|].
  apply Forall_replicate. reflexivity.
Qed.

Lemma short_recording_raises_witness :
  read_z3d_from (fresh 256)
    {| file_size := 1536 + 4 * 42; count := 1; m_tell := 1536;
       words := trailing_samples; odd_bytes := 0 |}
  = Done (Raise IndexError).
Proof.
  apply short_recording_raises.
  - repeat split; vm_compute; try reflexivity; try discriminate. lia.
  - vm_compute. discriminate.
Defined.

Lemma read_blocks_ragged (q : nat) :
  ∀ (fuel : nat) (limit : Z) (done rest : list Z) (odd r : nat),
    0 ≤ limit → (length rest < fuel)%nat → odd ≠ 0%nat →
    length rest = (block_words * q + r)%nat → (r < block_words)%nat →
    limit < Z.of_nat r →
    read_blocks fuel limit rest odd
      (done ++ replicate (length rest) 0) (length done)
    = Done (Raise ValueError).
Proof.
  induction q as [|q IH]; intros fuel limit done rest odd r Hlimit Hfuel Hodd
    Hlen Hr Hgo; (destruct fuel as [|fuel]; [lia|]).
  - rewrite Nat.mul_0_r in Hlen. cbn [read_blocks].
    rewrite length_app, length_replicate.
    destruct (Z.ltb_spec (Z.of_nat (length done) + limit)
                (Z.of_nat (length done + length rest))); [|lia].
    rewrite bool_decide_true; [done|]. split; [lia|done].
  - rewrite Nat.mul_succ_r in Hlen.
    rewrite read_blocks_step by (done || lia || (left; lia)).
    apply (IH _ _ _ _ _ r); try done; rewrite length_drop; lia.
Qed.

(** X13.  A data section that is not a whole number of words is an
    error only when its end is read: when the last, partial block of the
    file holds more than [m_tell/4] words, the loop reads it and
    [np.fromstring] raises [ValueError]. *)
Theorem ragged_tail_raises (src : source) (q r : nat) :
  regular src → odd_bytes src ≠ 0%nat →
  length (words src) = (block_words * q + r)%nat → (r < block_words)%nat →
  m_tell src / 4 < Z.of_nat r →
  read_data src = Done (Raise ValueError).
Proof.
  intros Hreg Hodd Hlen Hr Hgo.
  destruct (regular_size src Hreg) as [Hsize Hlimit].
  unfold read_data. rewrite Hsize, Nat2Z.id.
  destruct (Z.ltb_spec (Z.of_nat (length (words src))) 0); [lia|].
  apply (read_blocks_ragged q _ _ [] (words src) _ r); try done. lia.
Qed.

Lemma ragged_tail_raises_witness :
  read_data {| file_size := 1024 + 4 * 300 + 2; count := 0; m_tell := 1024;
               words := replicate 300 7; odd_bytes := 2 |}
  = Done (Raise ValueError).
Proof.
  apply (ragged_tail_raises _ 0 300).
  - repeat split; vm_compute; try reflexivity; try discriminate. lia.
  - discriminate.
  - vm_compute. reflexivity.
  - vm_compute. lia.
  - vm_compute. reflexivity.
Defined.

(** ** Block lengths *)

(** The block length the loop writes at iteration [ii] for position [p]. *)
Lemma scan_slot F (rest : list nat) :
  ∀ (ii : nat) (st st' : scan_state) (k p : nat),
    scan F ii rest st = Ok st' →
    rest !! k = Some p →
    (ii + k < length (stamps st))%nat →
    stamps st' !! (ii + k)%nat = stamps st !! (ii + k)%nat
    ∨ ∃ ws : list Z,
        stamps st' !! (ii + k)%nat
        = Some (unpack_stamp ws
                  (if (0 <? ii + k)%nat
                   then Z.of_nat p
                        - Z.of_nat (default 0%nat (F !! (ii + k - 1)%nat))
                        - Z.of_nat _gps_bytes
                   else 0)).
Proof.
  induction rest as [|q rest IH]; intros ii st st' k p Hs Hk Hlen; [done|].
  simpl in Hs. destruct k as [|k].
  - injection Hk as ->. rewrite Nat.add_0_r in *. unfold scan_body in Hs.
    destruct (data st !! S p) as [next|]; [|injection Hs as <-; by left].
    destruct (next =? _gps_flag_1).
    + case_bool_decide; [|done]. right.
      rewrite (scan_other_slots _ _ _ _ _ ii Hs) by lia. simpl.
      eexists. by apply list_lookup_insert_eq.
    + left. apply (scan_other_slots _ _ _ _ _ ii Hs). lia.
  - simpl in Hk. replace (ii + S k)%nat with (S ii + k)%nat in * by lia.
    unfold scan_body in Hs.
    destruct (data st !! S q) as [next|]; [|injection Hs as <-; by left].
    destruct (next =? _gps_flag_1).
    + case_bool_decide; [|done].
      destruct (IH _ _ _ _ _ Hs Hk) as [Hsame|Hset].
      * simpl. rewrite length_insert. lia.
      * left. rewrite Hsame. simpl. apply list_lookup_insert_ne. lia.
      * by right.
    + by apply (IH _ _ _ _ _ Hs Hk).
Qed.

(** X19.  A block length counts from the last candidate, not from the
    last stamp.  After the stamp loop, a slot that holds a stamp (it is
    not the all-zero record) has as its block length the distance from
    the first-sentinel word before it to its own, less the sixteen words
    of a record, whether or not that earlier word began a stamp: a sample
    equal to the first sentinel shortens the block length of the stamp
    after it. *)
Theorem block_len_from_previous_candidate (data1 : list Z) (st' : scan_state)
    (ii p prev : nat) (s : gps_stamp) :
  extract_stamps data1 = Ok st' →
  np_where is_flag_0 data1 !! ii = Some prev →
  np_where is_flag_0 data1 !! S ii = Some p →
  stamps st' !! S ii = Some s →
  s ≠ zero_stamp →
  block_len s = Z.of_nat p - Z.of_nat prev - Z.of_nat _gps_bytes.
Proof.
  intros Hrun Hprev Hp Hs Hnz. unfold extract_stamps in Hrun.
  destruct (scan_slot _ _ 0 _ _ (S ii) p Hrun Hp) as [Hsame|[ws Hset]].
  - simpl. rewrite length_replicate. by eapply lookup_lt_Some.
  - simpl in Hsame. rewrite Hs in Hsame. symmetry in Hsame.
    apply lookup_replicate in Hsame as [-> _]. done.
  - simpl in Hset. rewrite Hs, Nat.sub_0_r, Hprev in Hset.
    by injection Hset as ->.
Qed.

Lemma block_len_from_previous_candidate_witness :
  ∃ (st' : scan_state) (s : gps_stamp),
    extract_stamps (stamp_at 1024 ++ [21; _gps_flag_0; 22] ++ stamp_at 2048)
    = Ok st'
    ∧ stamps st' !! 2%nat = Some s
    ∧ time s = 2048
    ∧ block_len s = -14.
Proof.
  eexists. eexists. split; [vm_compute; reflexivity|].
  split; [reflexivity|]. split; [reflexivity|].
  etrans;
    [apply (block_len_from_previous_candidate
              (stamp_at 1024 ++ [21; _gps_flag_0; 22] ++ stamp_at 2048)
              _ 1 19 17 _ eq_refl eq_refl eq_refl eq_refl); discriminate
    |reflexivity].
Defined.

(** ** Schedule files *)

Lemma fill_dom (keys : list string) :
  ∀ (ii : nat) (line_list : list string) (d d' : gmap string string),
    ZenSchedule.fill keys ii line_list d = Ok d' →
    dom d' = list_to_set keys ∪ dom d.
Proof.
  induction keys as [|key keys IH]; intros ii line_list d d'; simpl.
  - intros [= <-]. by rewrite (left_id_L ∅ (∪)).
  - unfold index. destruct (line_list !! ii) as [v|]; [|done]. simpl.
    intros Hfill. rewrite (IH _ _ _ _ Hfill), dom_insert_L.
    by rewrite (assoc_L (∪)), (comm_L (∪) (list_to_set keys)).
Qed.

Lemma read_line_lights (self self' : ZenSchedule.t) (line : string) :
  ZenSchedule.read_line self line = Ok self' →
  dom (ZenSchedule.light_dict self') = dom (ZenSchedule.light_dict self).
Proof.
  unfold ZenSchedule.read_line.
  destruct (PyStr.find "scheduleaction" line =? 0).
  { destruct (index (Py.split " " (Py.strip line)) 1) as [piece|]; cbn [mbind result_bind];
      [|done].
    destruct (ZenSchedule.fill ZenSchedule.sa_keys 0 (Py.split "," piece) ∅);
      cbn [mbind result_bind]; [|done].
    by intros [= <-]. }
  destruct (PyStr.find "METADATA" line =? 0).
  { destruct (index (Py.split " " (Py.strip line)) 1) as [piece|]; cbn [mbind result_bind];
      [|done].
    destruct (for_each ZenSchedule.meta_piece (ZenSchedule.meta_dict self)
                (ZenSchedule.but_last (Py.split "|" piece))); cbn [mbind result_bind]; [|done].
    by intros [= <-]. }
  destruct (PyStr.find "offset" line =? 0).
  { destruct (index (Py.split " " (Py.strip line)) 1) as [piece|]; cbn [mbind result_bind];
      [|done].
    by intros [= <-]. }
  destruct (0 <? PyStr.find "Light" line); [|by intros [= <-]].
  destruct (index (Py.split " " (Py.strip line)) 0) as [k|]; cbn [mbind result_bind]; [|done].
  destruct (ZenSchedule.light_dict self !! k) as [old|] eqn:Hk;
    [|by intros [= <-]].
  destruct (index (Py.split " " (Py.strip line)) 1) as [v|]; cbn [mbind result_bind]; [|done].
  intros [= <-]. cbn [ZenSchedule.light_dict]. apply dom_insert_lookup_L. by eexists.
Qed.

(** X20.  [read_schedule] never adds or removes a light: whatever the
    lines of the file, after a read that returns [light_dict] has the
    keys it had before (the four of [__init__] on a fresh object); a line
    that names another light is skipped. *)
Theorem read_schedule_keeps_lights (self self' : ZenSchedule.t)
    (lines : list string) :
  ZenSchedule.read_schedule self lines = Ok self' →
  dom (ZenSchedule.light_dict self') = dom (ZenSchedule.light_dict self).
Proof.
  unfold ZenSchedule.read_schedule. revert self.
  induction lines as [|line lines IH]; intros self; simpl;
    [by intros [= <-]|].
  destruct (ZenSchedule.read_line self line) as [self1|] eqn:Hline; simpl;
    [|done].
  intros Hrest. rewrite (IH _ Hrest). by eapply read_line_lights.
Qed.

Lemma read_schedule_keeps_lights_witness :
  ∃ self' : ZenSchedule.t,
    ZenSchedule.read_schedule ZenSchedule.init
      ["RedLight 1"; "PinkLight 1"; "offset 12"] = Ok self'
    ∧ ZenSchedule.light_dict self' !! "RedLight"
      = Some (ZenSchedule.PStr "1")
    ∧ ZenSchedule.light_dict self' !! "PinkLight" = None
    ∧ dom (ZenSchedule.light_dict self')
      = dom (ZenSchedule.light_dict ZenSchedule.init).
Proof.
  eexists. split; [vm_compute; reflexivity|].
  split; [reflexivity|]. split; [reflexivity|].
  apply (read_schedule_keeps_lights ZenSchedule.init _
           ["RedLight 1"; "PinkLight 1"; "offset 12"]).
  vm_compute. reflexivity.
Defined.

Lemma fill_lookup (keys : list string) :
  ∀ (ii : nat) (line_list : list string) (d d' : gmap string string),
    NoDup keys →
    ZenSchedule.fill keys ii line_list d = Ok d' →
    (∀ (i : nat) (key : string),
       keys !! i = Some key → d' !! key = line_list !! (ii + i)%nat)
    ∧ (∀ key : string, key ∉ keys → d' !! key = d !! key).
Proof.
  induction keys as [|key keys IH]; intros ii line_list d d' Hnd; simpl.
  - intros [= <-]. split; [by intros i key|done].
  - apply NoDup_cons in Hnd as [Hkey Hnd].
    unfold index. destruct (line_list !! ii) as [v|] eqn:Hv; [|done]. simpl.
    intros Hfill. destruct (IH _ _ _ _ Hnd Hfill) as [Hin Hout].
    split.
    + intros [|i] k Hk; simpl in Hk.
      * injection Hk as <-. rewrite (Hout _ Hkey), lookup_insert_eq.
        by rewrite Nat.add_0_r.
      * rewrite (Hin _ _ Hk). f_equal. lia.
    + intros k Hk. apply not_elem_of_cons in Hk as [Hne Hk].
      rewrite (Hout _ Hk). by apply lookup_insert_ne.
Qed.

Lemma fill_short (keys : list string) :
  ∀ (ii : nat) (line_list : list string) (d : gmap string string),
    (ii ≤ length line_list < ii + length keys)%nat →
    ZenSchedule.fill keys ii line_list d = Raise IndexError.
Proof.
  induction keys as [|key keys IH]; intros ii line_list d Hlen; simpl in *;
    [lia|].
  unfold index. destruct (line_list !! ii) as [v|] eqn:Hv; simpl; [|done].
  apply lookup_lt_Some in Hv. apply IH. lia.
Qed.

Lemma fill_long (keys : list string) :
  ∀ (ii : nat) (line_list : list string) (d : gmap string string),
    (ii + length keys ≤ length line_list)%nat →
    ∃ d' : gmap string string, ZenSchedule.fill keys ii line_list d = Ok d'.
Proof.
  induction keys as [|key keys IH]; intros ii line_list d Hlen; simpl in *;
    [by eexists|].
  unfold index. destruct (lookup_lt_is_Some_2 line_list ii) as [v ->]; [lia|].
  simpl. apply IH. lia.
Qed.

(** X21.  A [scheduleaction] line needs nine fields.  For a line that
    begins with that word and has a second blank-separated piece: with
    fewer than nine comma-separated fields in the piece the read raises
    [IndexError]; with nine or more, one dictionary is appended to
    [sa_list], in which each key of [sa_keys] holds the field at its
    position and no other key is set, and nothing else changes. *)
Theorem scheduleaction_fields (self : ZenSchedule.t) (line piece : string) :
  PyStr.find "scheduleaction" line = 0 →
  Py.split " " (Py.strip line) !! 1%nat = Some piece →
  if (length (Py.split "," piece) <? 9)%nat
  then ZenSchedule.read_line self line = Raise IndexError
  else ∃ sa_dict : gmap string string,
         ZenSchedule.read_line self line
         = Ok {| ZenSchedule.sa_list := ZenSchedule.sa_list self ++ [sa_dict];
                 ZenSchedule.meta_dict := ZenSchedule.meta_dict self;
                 ZenSchedule.light_dict := ZenSchedule.light_dict self;
                 ZenSchedule.offset := ZenSchedule.offset self |}
         ∧ dom sa_dict = list_to_set ZenSchedule.sa_keys
         ∧ ∀ (i : nat) (key : string),
             ZenSchedule.sa_keys !! i = Some key →
             sa_dict !! key = Py.split "," piece !! i.
Proof.
  intros Hfind Hpiece. unfold ZenSchedule.read_line, index.
  rewrite Hfind, Hpiece. cbn [Z.eqb mbind result_bind].
  destruct (Nat.ltb_spec (length (Py.split "," piece)) 9) as [Hlt|Hge].
  - rewrite fill_short; [done|]. simpl. lia.
  - destruct (fill_long ZenSchedule.sa_keys 0 (Py.split "," piece) ∅)
      as [sa_dict Hfill]; [done|].
    rewrite Hfill. cbn [mbind result_bind]. exists sa_dict.
    split; [done|]. split.
    + rewrite (fill_dom _ _ _ _ _ Hfill), dom_empty_L.
      by rewrite (right_id_L ∅ (∪)).
    + assert (Hnd : NoDup ZenSchedule.sa_keys).
      { unfold ZenSchedule.sa_keys.
        repeat (apply NoDup_cons; split;
                [intros H;
                 repeat (apply elem_of_cons in H as [H|H]; [discriminate H|]);
                 by apply elem_of_nil in H|]).
        apply NoDup_nil_2. }
      apply (fill_lookup _ _ _ _ _ Hnd Hfill).
Qed.

Lemma scheduleaction_fields_witness :
  ZenSchedule.read_line ZenSchedule.init
    "scheduleaction 2015-05-22,08:00:00,Y,Y,0,0,4,1"
  = Raise IndexError.
Proof.
  apply (scheduleaction_fields ZenSchedule.init
           "scheduleaction 2015-05-22,08:00:00,Y,Y,0,0,4,1"
           "2015-05-22,08:00:00,Y,Y,0,0,4,1" eq_refl eq_refl).
Defined.

Lemma read_line_actions (self self' : ZenSchedule.t) (line : string) :
  ZenSchedule.read_line self line = Ok self' →
  ∃ new : list (gmap string string),
    ZenSchedule.sa_list self' = ZenSchedule.sa_list self ++ new
    ∧ length new
      = length (filter (λ l, PyStr.find "scheduleaction" l = 0) [line]).
Proof.
  unfold ZenSchedule.read_line. rewrite filter_cons, filter_nil.
  destruct (Z.eqb_spec (PyStr.find "scheduleaction" line) 0) as [Hs|Hs].
  { rewrite decide_True by done.
    destruct (index (Py.split " " (Py.strip line)) 1) as [piece|];
      cbn [mbind result_bind]; [|done].
    destruct (ZenSchedule.fill ZenSchedule.sa_keys 0 (Py.split "," piece) ∅)
      as [sa_dict|]; cbn [mbind result_bind]; [|done].
    intros [= <-]. by exists [sa_dict]. }
  rewrite decide_False by done.
  assert (Hsame : ∀ s : ZenSchedule.t,
            ZenSchedule.sa_list s = ZenSchedule.sa_list self →
            ∃ new : list (gmap string string),
              ZenSchedule.sa_list s = ZenSchedule.sa_list self ++ new
              ∧ length new = length (@nil string)).
  { intros s Hsa. exists []. by rewrite app_nil_r. }
  destruct (PyStr.find "METADATA" line =? 0).
  { destruct (index (Py.split " " (Py.strip line)) 1) as [piece|];
      cbn [mbind result_bind]; [|done].
    destruct (for_each ZenSchedule.meta_piece (ZenSchedule.meta_dict self)
                (ZenSchedule.but_last (Py.split "|" piece)));
      cbn [mbind result_bind]; [|done].
    intros [= <-]. by apply Hsame. }
  destruct (PyStr.find "offset" line =? 0).
  { destruct (index (Py.split " " (Py.strip line)) 1) as [piece|];
      cbn [mbind result_bind]; [|done].
    intros [= <-]. by apply Hsame. }
  destruct (0 <? PyStr.find "Light" line);
    [|intros [= <-]; by apply Hsame].
  destruct (index (Py.split " " (Py.strip line)) 0) as [k|];
    cbn [mbind result_bind]; [|done].
  destruct (ZenSchedule.light_dict self !! k) as [old|];
    [|intros [= <-]; by apply Hsame].
  destruct (index (Py.split " " (Py.strip line)) 1) as [v|];
    cbn [mbind result_bind]; [|done].
  intros [= <-]. by apply Hsame.
Qed.

(** X22.  [read_schedule] only ever appends to [sa_list]: after a read
    that returns, the list is the one from before followed by one
    dictionary for each line that begins with [scheduleaction], so a
    second read of a file on the same object repeats its actions. *)
Theorem read_schedule_appends (self self' : ZenSchedule.t)
    (lines : list string) :
  ZenSchedule.read_schedule self lines = Ok self' →
  ∃ new : list (gmap string string),
    ZenSchedule.sa_list self' = ZenSchedule.sa_list self ++ new
    ∧ length new
      = length (filter (λ l, PyStr.find "scheduleaction" l = 0) lines).
Proof.
  unfold ZenSchedule.read_schedule. revert self.
  induction lines as [|line lines IH]; intros self; simpl.
  - intros [= <-]. exists []. by rewrite app_nil_r.
  - destruct (ZenSchedule.read_line self line) as [self1|] eqn:Hline;
      cbn [mbind result_bind]; [|done].
    intros Hrest. destruct (IH _ Hrest) as (new2 & -> & Hlen2).
    destruct (read_line_actions _ _ _ Hline) as (new1 & -> & Hlen1).
    exists (new1 ++ new2). rewrite <- app_assoc. split; [done|].
    change (line :: lines) with ([line] ++ lines).
    rewrite filter_app, !length_app. lia.
Qed.

Lemma read_schedule_appends_witness :
  ∃ self' : ZenSchedule.t,
    ZenSchedule.read_schedule ZenSchedule.init
      ["scheduleaction 2015-05-22,08:00:00,Y,Y,0,0,4,1,N"; "offset 12";
       "scheduleaction 2015-05-22,08:05:00,Y,Y,0,0,2,1,N"]
    = Ok self'
    ∧ length (ZenSchedule.sa_list self') = 2%nat
    ∧ ZenSchedule.offset self' = Some "12".
Proof.
  eexists. split; [vm_compute; reflexivity|].
  destruct (read_schedule_appends ZenSchedule.init _
              ["scheduleaction 2015-05-22,08:00:00,Y,Y,0,0,4,1,N";
               "offset 12";
               "scheduleaction 2015-05-22,08:05:00,Y,Y,0,0,2,1,N"] eq_refl)
    as (new & Hnew & Hlen).
  split; reflexivity.
Defined.

(** ** The text file of a time series *)

Lemma append_assoc (a b c : string) : (a +:+ b) +:+ c = a +:+ (b +:+ c).
Proof.
  induction a as [|x a IH]; [done|].
  change (String x ((a +:+ b) +:+ c) = String x (a +:+ (b +:+ c))).
  by rewrite IH.
Qed.

Lemma append_nil_r (a : string) : a +:+ "" = a.
Proof.
  induction a as [|x a IH]; [done|].
  change (String x (a +:+ "") = String x a). by rewrite IH.
Qed.

Lemma join_app (sep : string) (xs ys : list string) :
  xs ≠ [] → ys ≠ [] →
  PyStr.join sep (xs ++ ys) = PyStr.join sep xs +:+ sep +:+ PyStr.join sep ys.
Proof.
  intros Hxs Hys. induction xs as [|x xs IH]; [done|].
  destruct xs as [|x' xs].
  - simpl. by destruct ys.
  - change (PyStr.join sep ((x :: x' :: xs) ++ ys))
      with (x +:+ sep +:+ PyStr.join sep ((x' :: xs) ++ ys)).
    rewrite IH by done.
    change (PyStr.join sep (x :: x' :: xs))
      with (x +:+ sep +:+ PyStr.join sep (x' :: xs)).
    by rewrite !append_assoc.
Qed.

(** The chunks written one after the other, then what is left, against
    the lines joined at once. *)
Lemma chunks_joined (cs : nat) (L : list string) (n : nat) :
  (0 < cs)%nat →
  ∀ k : nat,
    ((k + n) * cs ≤ length L)%nat →
    foldr (λ cc text,
             (PyStr.join MT_TS.nl (take cs (drop (cc * cs) L)) +:+ MT_TS.nl)
               +:+ text)
          "" (seq k n)
      +:+ PyStr.join MT_TS.nl (drop ((k + n) * cs) L)
    = PyStr.join MT_TS.nl (drop (k * cs) L)
        +:+ (if bool_decide (0 < n ∧ length L = (k + n) * cs)%nat
             then MT_TS.nl else "").
Proof.
  intros Hcs. induction n as [|n IH]; intros k Hlen.
  - rewrite Nat.add_0_r. rewrite bool_decide_false by lia.
    by rewrite append_nil_r.
  - cbn [seq foldr]. replace (k + S n)%nat with (S k + n)%nat in * by lia.
    rewrite !append_assoc, IH by done.
    assert (Hsplit : drop (k * cs) L
                     = take cs (drop (k * cs) L) ++ drop (S k * cs) L).
    { rewrite <- (take_drop cs (drop (k * cs) L)) at 1.
      rewrite drop_drop. do 2 f_equal. lia. }
    assert (Hchunk : take cs (drop (k * cs) L) ≠ []).
    { intros Hnil. apply (f_equal length) in Hnil.
      rewrite length_take, length_drop in Hnil. simpl in Hnil. nia. }
    destruct (decide (length L = (S k * cs)%nat)) as [Hend|Hmore].
    + assert (n = 0%nat) as -> by nia.
      rewrite (drop_ge L (S k * cs)) in * by lia.
      rewrite bool_decide_false by lia.
      rewrite bool_decide_true by lia.
      rewrite Hsplit at 2. by rewrite app_nil_r.
    + assert (Hrest : drop (S k * cs) L ≠ []).
      { intros Hnil. apply (f_equal length) in Hnil.
        rewrite length_drop in Hnil. simpl in Hnil. nia. }
      rewrite Hsplit at 2. rewrite join_app by done.
      rewrite !append_assoc. do 3 f_equal.
      destruct n as [|n].
      * rewrite bool_decide_false by lia. rewrite bool_decide_false; [done|].
        rewrite Nat.add_0_r. lia.
      * erewrite bool_decide_ext; [done|]. lia.
Qed.

(** X23.  [write_ascii_file] with a positive chunk size.  A series
    shorter than one chunk is not written at all: after the header and
    the marker line the name [cc] is read unbound.  Otherwise the chunks
    and the remainder add up to the lines of all samples joined by
    newlines, in order, each once, with one more newline at the end
    exactly when the number of samples is a multiple of the chunk size. *)
Theorem write_ascii_file_text {sample : Type} (fmt : sample → string)
    (header : string) (data : list sample) (chunk_size : Z) :
  0 < chunk_size →
  MT_TS.write_ascii_file fmt header data chunk_size
  = if Z.of_nat (length data) <? chunk_size
    then MT_TS.UnboundLocalError
           (header +:+ MT_TS.nl +:+ "# *** time_series ***" +:+ MT_TS.nl)
    else MT_TS.Wrote
           (header +:+ MT_TS.nl +:+ "# *** time_series ***" +:+ MT_TS.nl
              +:+ PyStr.join MT_TS.nl (fmt <$> data)
              +:+ (if Z.of_nat (length data) mod chunk_size =? 0
                   then MT_TS.nl else "")).
Proof.
  intros Hcs. unfold MT_TS.write_ascii_file.
  destruct (Z.eqb_spec chunk_size 0); [lia|].
  destruct (Z.ltb_spec (Z.of_nat (length data)) chunk_size) as [Hshort|Hlong].
  { rewrite Z.div_small by lia. done. }
  pose proof (Z.div_le_lower_bound (Z.of_nat (length data)) chunk_size 1)
    as Hone.
  pose proof (Z.mul_div_le (Z.of_nat (length data)) chunk_size Hcs) as Hmul.
  pose proof (Z.div_mod (Z.of_nat (length data)) chunk_size) as Hdm.
  pose proof (Z.mod_pos_bound (Z.of_nat (length data)) chunk_size Hcs) as Hmod.
  set (q := Z.of_nat (length data) / chunk_size) in *.
  set (r := Z.of_nat (length data) mod chunk_size) in *.
  destruct (Z.leb_spec q 0); [lia|].
  f_equal. rewrite !append_assoc. do 4 f_equal.
  replace (Z.to_nat q - 1 + 1)%nat with (0 + Z.to_nat q)%nat by lia.
  pose proof (chunks_joined (Z.to_nat chunk_size) (fmt <$> data) (Z.to_nat q)
                ltac:(lia) 0%nat) as Hj.
  rewrite drop_0 in Hj. unfold MT_TS.chunk_text.
  rewrite <- fmap_drop in Hj.
  etrans; [|etrans; [apply Hj|]].
  - f_equal. apply foldr_ext; [|done..]. intros cc text.
    by rewrite fmap_take, fmap_drop.
  - rewrite length_fmap. nia.
  - f_equal. rewrite length_fmap.
    destruct (Z.eqb_spec r 0) as [Hr|Hr].
    + rewrite bool_decide_true; [done|]. nia.
    + rewrite bool_decide_false; [done|]. nia.
Qed.

Lemma write_ascii_file_text_witness :
  MT_TS.write_ascii_file (λ z : Z, Py.decimal z) "# header" [1; 2; 3; 4; 5] 2
  = MT_TS.Wrote
      ("# header" +:+ MT_TS.nl +:+ "# *** time_series ***" +:+ MT_TS.nl
         +:+ PyStr.join MT_TS.nl ["1"; "2"; "3"; "4"; "5"])
  ∧ MT_TS.write_ascii_file (λ z : Z, Py.decimal z) "# header" [1; 2; 3] 4096
    = MT_TS.UnboundLocalError
        ("# header" +:+ MT_TS.nl +:+ "# *** time_series ***" +:+ MT_TS.nl).
Proof.
  split.
  - rewrite (write_ascii_file_text (λ z : Z, Py.decimal z) "# header"
               [1; 2; 3; 4; 5] 2); [|lia].
    vm_compute. reflexivity.
  - rewrite (write_ascii_file_text (λ z : Z, Py.decimal z) "# header"
               [1; 2; 3] 4096); [|lia].
    vm_compute. reflexivity.
Defined.

(** ** Metadata blocks *)

Section metadata.
Import Z3D_Metadata.

Lemma kept_refl {A : Type} (x : slot A) : kept x x.
Proof. by left. Qed.

Lemma kept_trans {A : Type} (x y z : slot A) : kept x y → kept y z → kept x z.
Proof.
  intros [->|[s ->]] [->|[s' ->]]; try (by left); right; by eexists.
Qed.

Lemma steady_refl (self : t) : steady self self.
Proof. repeat split; apply kept_refl. Qed.

Lemma steady_trans (a b c : t) : steady a b → steady b c → steady a c.
Proof.
  intros (H1 & H2 & H3) (H4 & H5 & H6).
  repeat split; eapply kept_trans; eauto.
Qed.

Lemma setattr_steady (self self' : t) (name value : string) :
  setattr self name value = Ok self' → steady self self'.
Proof.
  unfold setattr.
  repeat (case_bool_decide; [try done; intros [= <-];
                             repeat split; simpl;
                             (by left) || (right; by eexists)|]).
  intros [= <-]. repeat split; by left.
Qed.

Lemma for_each_steady {A : Type} (body : t → A → result t) (xs : list A) :
  (∀ self a self', body self a = Ok self' → steady self self') →
  ∀ self self', for_each body self xs = Ok self' → steady self self'.
Proof.
  intros Hbody. induction xs as [|x xs IH]; intros self self'; simpl.
  - intros [= <-]. apply steady_refl.
  - destruct (body self x) as [self1|] eqn:Hx; cbn [mbind result_bind];
      [|done].
    intros Hrest. eapply steady_trans; [by eapply Hbody|by apply IH].
Qed.

Lemma piece_steady (self self' : t) (t_str : string) :
  piece self t_str = Ok self' → steady self self'.
Proof.
  unfold piece. destruct (_ && _); [intros [= <-]; apply steady_refl|].
  destruct (0 <=? _);
    (destruct (index _ 1) as [v|]; cbn [mbind result_bind]; [|done]);
    apply setattr_steady.
Qed.

Lemma board_entry_steady (self self' : t) (t_str : string) :
  board_entry self t_str = Ok self' → steady self self'.
Proof.
  unfold board_entry, append_board.
  destruct (board_cal self) as [[rows|]|]; try done.
  intros [= <-]. repeat split; by left.
Qed.

Lemma coil_entry_steady (self self' : t) (t_str : string) :
  coil_entry self t_str = Ok self' → steady self self'.
Proof.
  unfold coil_entry, append_coil.
  destruct (coil_cal self) as [[rows|]|]; try done.
  destruct (forallb _ _); [|done].
  intros [= <-]. repeat split; by left.
Qed.

Lemma brd_steady (self self' : t) (test_str : string) :
  brd self test_str = Ok self' → steady self self'.
Proof.
  unfold brd. destruct (index _ 1) as [v|]; cbn [mbind result_bind]; [|done].
  destruct (setattr self _ v) as [self1|] eqn:Hset; cbn [mbind result_bind];
    [|done].
  intros Hrest. eapply steady_trans; [by eapply setattr_steady|].
  eapply for_each_steady; [|exact Hrest].
  intros s a s'. apply board_entry_steady.
Qed.

Lemma ant_steady (self self' : t) (test_str : string) :
  ant self test_str = Ok self' → steady self self'.
Proof.
  unfold ant. destruct (0 <? _); [|intros [= <-]; apply steady_refl].
  destruct (index (Py.split "|" test_str) 0) as [odd_str|];
    cbn [mbind result_bind]; [|done].
  destruct (index (Py.split "," odd_str) 1) as [v|];
    cbn [mbind result_bind]; [|done].
  destruct (setattr self _ _) as [self1|] eqn:Hset; cbn [mbind result_bind];
    [|done].
  apply setattr_steady in Hset.
  destruct (index (Py.split "|" test_str) 1) as [rest|];
    cbn [mbind result_bind]; [|done].
  destruct (0 <=? _).
  - destruct (index _ 1) as [w|]; cbn [mbind result_bind]; [|done].
    intros Hset2. apply setattr_steady in Hset2. by eapply steady_trans.
  - intros Hrest. eapply steady_trans; [done|].
    eapply for_each_steady; [|exact Hrest].
    intros s a s'. apply coil_entry_steady.
Qed.

(** A metadata block adds one to the count, and may turn attributes into
    texts. *)
Lemma block_steady (self self' : t) (test_str : string) (c : Z) :
  count self = Own c →
  block self test_str = Ok self' →
  kept (Own (c + 1)) (count self')
  ∧ kept (find_metadata self) (find_metadata self')
  ∧ kept (m_tell self) (m_tell self').
Proof.
  intros Hc. unfold block, bump_count. rewrite Hc. cbn [mbind result_bind].
  destruct (index _ 1) as [line|]; cbn [mbind result_bind]; [|done].
  set (self1 := set_count self (Own (c + 1))).
  assert (Hgoal : ∀ s, steady self1 s →
            kept (Own (c + 1)) (count s)
            ∧ kept (find_metadata self) (find_metadata s)
            ∧ kept (m_tell self) (m_tell s)) by (by intros s (? & ? & ?)).
  destruct (1 <? _).
  { intros H. apply Hgoal. eapply for_each_steady; [|exact H].
    intros s a s'. apply piece_steady. }
  destruct (0 <=? _); [intros H; apply Hgoal; by eapply brd_steady|].
  destruct (0 <=? _); [intros H; apply Hgoal; by eapply ant_steady|].
  intros [= <-]. apply Hgoal, steady_refl.
Qed.

Lemma block_text_count (self : t) (test_str s : string) :
  count self = Text s → block self test_str = Raise TypeError.
Proof. intros Hc. unfold block, bump_count. by rewrite Hc. Qed.

Lemma loop_text_count (blocks : list string) :
  ∀ (self self' : t) (tell : Z) (s : string),
    count self = Text s →
    loop self tell blocks = Ok self' →
    ∃ s' : string, count self' = Text s'.
Proof.
  induction blocks as [|b blocks IH]; intros self self' tell s Hc; simpl.
  - destruct (find_metadata self) as [[]|]; try (intros [= <-]; by eexists).
    destruct (fid self); [|done]. destruct (_metadata_length self); [|done].
    intros [= <-]. by eexists.
  - destruct (find_metadata self) as [[]|]; try (intros [= <-]; by eexists).
    destruct (fid self); [|done]. destruct (_metadata_length self); [|done].
    destruct (is_metadata b).
    + by rewrite (block_text_count _ _ _ Hc).
    + intros [= <-]. by eexists.
Qed.

(** Where the loop stops and what it leaves in [count] and [m_tell]. *)
Lemma loop_position (blocks : list string) :
  ∀ (self self' : t) (tell c n : Z),
    Forall (λ b, String.length b = 512%nat) blocks →
    find_metadata self = Own true → count self = Own c →
    loop self tell blocks = Ok self' →
    find_metadata self' = Own false → count self' = Own n →
    ∃ k : nat,
      n = c + Z.of_nat k
      ∧ (k ≤ length blocks)%nat
      ∧ Forall (λ b, is_metadata b = true) (take k blocks)
      ∧ is_metadata (default "" (blocks !! k)) = false
      ∧ m_tell self'
        = Own (tell + 512 * Z.of_nat k
               + (if (k <? length blocks)%nat then 512 else 0) - 512).
Proof.
  induction blocks as [|b blocks IH];
    intros self self' tell c n Hlen Hfind Hcount; simpl; rewrite Hfind.
  - destruct (fid self); [|done]. destruct (_metadata_length self); [|done].
    intros [= <-] _. simpl. rewrite Hcount. intros [= <-].
    exists 0%nat. repeat split; try done; try lia.
    f_equal. lia.
  - apply Forall_cons in Hlen as [Hb Hlen].
    destruct (fid self); [|done]. destruct (_metadata_length self); [|done].
    destruct (is_metadata b) eqn:Hmeta.
    + destruct (block self b) as [self1|] eqn:Hblock;
        cbn [mbind result_bind]; [|done].
      destruct (block_steady _ _ _ _ Hcount Hblock) as (Hc1 & Hf1 & _).
      intros Hloop Hfalse Hn. rewrite Hfind in Hf1.
      destruct Hf1 as [Hf1|[s Hf1]].
      2:{ destruct blocks; simpl in Hloop; rewrite Hf1 in Hloop;
          injection Hloop as <-; congruence. }
      destruct Hc1 as [Hc1|[s Hc1]].
      2:{ destruct (loop_text_count _ _ _ _ _ Hc1 Hloop) as [s' Hs'].
          congruence. }
      destruct (IH _ _ _ _ _ Hlen Hf1 Hc1 Hloop Hfalse Hn)
        as (k & -> & Hk & Hmetas & Hnext & Htell).
      exists (S k). split; [lia|]. split; [simpl; lia|].
      split; [by constructor|]. split; [done|].
      rewrite Htell, Hb. f_equal.
      change (S k <? S (length blocks))%nat with (k <? length blocks)%nat.
      destruct (k <? length blocks)%nat; lia.
    + intros [= <-] _. simpl. rewrite Hcount. intros [= <-].
      exists 0%nat. split; [lia|]. split; [simpl; lia|].
      split; [constructor|]. split; [done|].
      rewrite Hb. f_equal. simpl. lia.
Qed.

Variable fromrecords : nat → slot (list row) → option exn.

Lemma make_coil_same (self self' : t) :
  make_coil fromrecords self = Ok self' → self' = self.
Proof.
  unfold make_coil. destruct (as_records _) as [[r|]|];
    cbn [mbind result_bind]; try done; [|by intros [= <-]].
  destruct (fromrecords 3 r); [done|by intros [= <-]].
Qed.

Lemma make_board_same (self self' : t) :
  make_board fromrecords self = Ok self' →
  count self' = count self ∧ find_metadata self' = find_metadata self
  ∧ m_tell self' = m_tell self ∧ attrs self' = attrs self.
Proof.
  unfold make_board. destruct (as_records _) as [[r|]|];
    cbn [mbind result_bind]; try done; [|by intros [= <-]].
  destruct (fromrecords 4 r) as [[]|]; try done; by intros [= <-].
Qed.

(** X24.  Where the metadata reader leaves the file.  On a file cut in
    whole 512-byte blocks after the schedule, when [read_metadata]
    returns and no line has renamed [count] or [find_metadata]: [count]
    is the number of blocks, from offset 1024 on, that hold
    ['metadata record'] after their first character, up to the first
    block that does not; and [m_tell] is the offset of that block,
    512 * (2 + count), so that the data is read from there.  When the
    file ends with its last metadata block, [m_tell] is 512 bytes before
    the end of the file, inside that block. *)
Theorem read_metadata_position (self self' : t) (fn : option string)
    (blocks : list string) (n : Z) :
  Forall (λ b, String.length b = 512%nat) blocks →
  read_metadata fromrecords self fn blocks = Ok self' →
  find_metadata self' = Own false → count self' = Own n →
  ∃ k : nat,
    n = Z.of_nat k
    ∧ (k ≤ length blocks)%nat
    ∧ Forall (λ b, is_metadata b = true) (take k blocks)
    ∧ is_metadata (default "" (blocks !! k)) = false
    ∧ m_tell self'
      = Own (if (k <? length blocks)%nat then 512 * (2 + n)
             else 512 * (1 + n)).
Proof.
  intros Hlen. unfold read_metadata.
  set (self0 := set_fid _ _).
  destruct (_header_length self0); [|done].
  destruct (_schedule_metadata_len self0); [|done].
  destruct (loop _ 1024 blocks) as [self1|] eqn:Hloop;
    cbn [mbind result_bind]; [|done].
  destruct (make_coil fromrecords self1) as [self2|] eqn:Hcoil;
    cbn [mbind result_bind]; [|done].
  apply make_coil_same in Hcoil as ->.
  destruct (make_board fromrecords self1) as [self3|] eqn:Hboard;
    cbn [mbind result_bind]; [|done].
  apply make_board_same in Hboard as (Hc & Hf & Hm & _).
  unfold make_station. destruct (attrs self3 !! "rx_xyz0"); [|done].
  intros [= <-]. cbn [find_metadata count m_tell set_attr].
  rewrite Hc, Hf, Hm. intros Hfalse Hn.
  edestruct (loop_position blocks) as (k & Hk & Hle & Hmetas & Hnext & Htell);
    [exact Hlen| | |exact Hloop|exact Hfalse|exact Hn|];
    [reflexivity|reflexivity|].
  exists k. split; [lia|]. split; [done|]. split; [done|]. split; [done|].
  rewrite Htell. f_equal. destruct (k <? length blocks)%nat; lia.
Qed.

(** X25.  [read_metadata] returns only with a station made of the line
    name and the receiver position: after a read that returns,
    [rx_xyz0] is set and [station] is the line name (the text [None]
    when no line gave one) followed by the part of [rx_xyz0] before its
    first [':']. *)
Theorem read_metadata_station (self self' : t) (fn : option string)
    (blocks : list string) :
  read_metadata fromrecords self fn blocks = Ok self' →
  ∃ rx_xyz0 : string,
    attrs self' !! "rx_xyz0" = Some rx_xyz0
    ∧ attrs self' !! "station"
      = Some (default "None" (attrs self' !! "line_name")
                +:+ Text.before ":" rx_xyz0).
Proof.
  unfold read_metadata.
  set (self0 := set_fid _ _).
  destruct (_header_length self0); [|done].
  destruct (_schedule_metadata_len self0); [|done].
  destruct (loop _ 1024 blocks) as [self1|]; cbn [mbind result_bind]; [|done].
  destruct (make_coil fromrecords self1) as [self2|];
    cbn [mbind result_bind]; [|done].
  destruct (make_board fromrecords self2) as [self3|];
    cbn [mbind result_bind]; [|done].
  unfold make_station.
  destruct (attrs self3 !! "rx_xyz0") as [rx|] eqn:Hrx; [|done].
  intros [= <-]. exists rx. cbn [attrs set_attr].
  rewrite !lookup_insert_ne by done. split; [done|].
  rewrite lookup_insert_eq, lookup_insert_ne by done.
  by rewrite (split_head ":" rx).
Qed.

(** X26.  A file without a metadata record cannot be read.  On a fresh
    object, or any object whose [rx_xyz0] is not set and whose block
    lengths are their own: when the block at offset 1024 does not hold
    ['metadata record'] after its first character (or the file ends
    there), [read_metadata] raises [AttributeError], whatever the rest of
    the file holds. *)
Theorem read_metadata_without_record (self : t) (fn : option string)
    (blocks : list string) :
  _header_length self = Own () → _schedule_metadata_len self = Own () →
  _metadata_length self = Own () →
  attrs self !! "rx_xyz0" = None →
  is_metadata (default "" (head blocks)) = false →
  read_metadata fromrecords self fn blocks = Raise AttributeError.
Proof.
  intros Hh Hs Hm Hrx Hfirst. unfold read_metadata.
  assert (Htail : ∀ self1 : t,
            coil_cal self1 = Own (Some []) →
            board_cal self1 = Own (Some []) →
            attrs self1 !! "rx_xyz0" = None →
            (self2 ← make_coil fromrecords self1;
             self3 ← make_board fromrecords self2;
             make_station self3) = Raise AttributeError).
  { intros self1 Hcoil Hboard Hrx1. unfold make_coil. rewrite Hcoil.
    cbn [as_records mbind result_bind]. unfold make_board. rewrite Hboard.
    cbn [as_records mbind result_bind]. unfold make_station.
    by rewrite Hrx1. }
  assert (Hloop : ∀ self0 : t,
            _metadata_length self0 = Own () →
            attrs self0 !! "rx_xyz0" = None →
            (self1 ← loop
                       (set_count
                          (set_coil_cal
                             (set_board_cal
                                (set_find_metadata (set_fid self0 (Own ()))
                                   (Own true))
                                (Own (Some [])))
                             (Own (Some [])))
                          (Own 0)) 1024 blocks;
             self2 ← make_coil fromrecords self1;
             self3 ← make_board fromrecords self2;
             make_station self3) = Raise AttributeError).
  { intros self0 Hm0 Hrx0.
    destruct blocks as [|b blocks]; cbn [loop find_metadata fid
      _metadata_length set_count set_coil_cal set_board_cal
      set_find_metadata set_fid]; rewrite Hm0.
    - cbn [mbind result_bind]. by apply Htail.
    - simpl in Hfirst. rewrite Hfirst. cbn [mbind result_bind].
      by apply Htail. }
  destruct fn as [name|]; cbn [set_fid set_attr _header_length
    _schedule_metadata_len]; rewrite Hh, Hs.
  - apply (Hloop (set_attr self "fn" name)); [done|].
    cbn [attrs set_attr]. by rewrite lookup_insert_ne.
  - by apply Hloop.
Qed.

End metadata.

Lemma read_metadata_position_witness :
  ∃ self' : Z3D_Metadata.t,
    Z3D_Metadata.read_metadata (λ _ _, None) Z3D_Metadata.init None
      [" metadata record" +:+ String newline ""
         +:+ "RX.XYZ0=10:20:30|LINE.NAME,a1|" +:+ Py.zeros 465;
       Py.zeros 512; Py.zeros 512]
    = Ok self'
    ∧ Z3D_Metadata.count self' = Z3D_Metadata.Own 1
    ∧ Z3D_Metadata.m_tell self' = Z3D_Metadata.Own 1536
    ∧ Z3D_Metadata.attrs self' !! "station" = Some "a110".
Proof.
  eexists. split; [vm_compute; reflexivity|].
  match goal with
  | |- Z3D_Metadata.count ?s = _ ∧ _ =>
      destruct (read_metadata_position (λ _ _, None) Z3D_Metadata.init s None
                  [" metadata record" +:+ String newline ""
                     +:+ "RX.XYZ0=10:20:30|LINE.NAME,a1|" +:+ Py.zeros 465;
                   Py.zeros 512; Py.zeros 512] 1)
        as (k & Hk & Hle & Hmetas & Hnext & Htell)
  end.
  - repeat constructor; vm_compute; reflexivity.
  - vm_compute. reflexivity.
  - reflexivity.
  - reflexivity.
  - split; [reflexivity|]. split; [|reflexivity].
    assert (k = 1%nat) as -> by lia. exact Htell.
Defined.

Lemma read_metadata_without_record_witness :
  Z3D_Metadata.read_metadata (λ _ _, None) Z3D_Metadata.init None
    [Py.zeros 512; Py.zeros 512]
  = Raise AttributeError.
Proof.
  apply read_metadata_without_record; vm_compute; reflexivity.
Defined.

Lemma read_metadata_station_witness :
  ∃ self' : Z3D_Metadata.t,
    Z3D_Metadata.read_metadata (λ _ _, None) Z3D_Metadata.init None
      [" metadata record" +:+ String newline ""
         +:+ "RX.XYZ0=10:20:30|GDP.OPERATOR=me|" +:+ Py.zeros 462;
       Py.zeros 512]
    = Ok self'
    ∧ Z3D_Metadata.attrs self' !! "station" = Some "None10".
Proof.
  eexists. split; [vm_compute; reflexivity|].
  match goal with
  | |- Z3D_Metadata.attrs ?s !! _ = _ =>
      destruct (read_metadata_station (λ _ _, None) Z3D_Metadata.init s None
                  [" metadata record" +:+ String newline ""
                     +:+ "RX.XYZ0=10:20:30|GDP.OPERATOR=me|" +:+ Py.zeros 462;
                   Py.zeros 512]) as (rx & Hrx & Hstation)
  end.
  - vm_compute. reflexivity.
  - reflexivity.
Defined.

(** ** Late short blocks and small files *)

Lemma list_max_ge (xs : list nat) (p : nat) :
  p ∈ xs → (p ≤ list_max xs)%nat.
Proof.
  unfold list_max. induction xs as [|x xs IH]; intros Hp;
    [by apply elem_of_nil in Hp|].
  apply elem_of_cons in Hp as [->|Hp]; simpl; [lia|].
  specialize (IH Hp). lia.
Qed.

(** X27.  One short block late in the recording switches the trimming
    off.  When some block with index 5 or more, counted after the first
    stamp, has not the declared length, [validate_time_blocks] returns
    and changes nothing: every stamp and every sample stays, however
    short the first blocks are and whether or not the object has
    [time_series], because the check looks at the largest failing index
    only. *)
Theorem late_short_block_disables_trim (self : Zen3D.t) (i : nat) (bl : Z) :
  (block_len <$> drop 1 (gps_stamps self)) !! i = Some bl →
  (5 ≤ i)%nat →
  bl ≠ ad_rate self →
  validate_time_blocks self = Ok self.
Proof.
  intros Hbl Hi Hlen.
  assert (Hmax : (5 ≤ list_max (bad_blocks_of self))%nat).
  { etrans; [exact Hi|]. apply list_max_ge.
    unfold bad_blocks_of, np_where.
    apply where_from_lookup. split; [lia|].
    exists bl. split.
    - by rewrite Nat.sub_0_r.
    - by destruct (Z.eqb_spec bl (ad_rate self)). }
  unfold validate_time_blocks.
  destruct (0 <? _)%nat; [|done].
  by destruct (Nat.ltb_spec (list_max (bad_blocks_of self)) 5); [lia|].
Qed.

Lemma late_short_block_disables_trim_witness :
  validate_time_blocks
    {| ad_rate := 2;
       gps_stamps := (λ bl, unpack_stamp [] bl) <$> [0; 1; 2; 2; 2; 2; 1];
       ts := [21; 22; 23; 24; 25; 26; 27; 28; 29; 30; 31];
       time_series := Some [21; 22; 23; 24; 25; 26; 27; 28; 29; 30; 31] |}
  = Ok {| ad_rate := 2;
          gps_stamps := (λ bl, unpack_stamp [] bl) <$> [0; 1; 2; 2; 2; 2; 1];
          ts := [21; 22; 23; 24; 25; 26; 27; 28; 29; 30; 31];
          time_series := Some [21; 22; 23; 24; 25; 26; 27; 28; 29; 30; 31] |}.
Proof.
  apply (late_short_block_disables_trim _ 5 1).
  - reflexivity.
  - lia.
  - discriminate.
Defined.

Lemma read_blocks_done (fuel : nat) (limit : Z) (rest : list Z) (odd : nat)
    (data : list Z) (data_count : nat) :
  Z.of_nat (length data) ≤ Z.of_nat data_count + limit →
  read_blocks fuel limit rest odd data data_count = Done (Ok data).
Proof.
  intros Hstop.
  destruct fuel; simpl;
    by destruct (Z.ltb_spec (Z.of_nat data_count + limit)
                   (Z.of_nat (length data))); [lia|].
Qed.

(** X28.  The read loop on a small file.  For a file that goes on after
    its metadata in whole words and holds at most one block of
    [_block_len] bytes there: when it holds more than [m_tell/4] words
    the loop takes every one of them in a single read and the buffer is
    the words of the file; when it holds no more than [m_tell/4] the loop
    does not run at all and the buffer stays the zeros of [np.zeros]. *)
Theorem small_file_read (src : source) :
  regular src → odd_bytes src = 0%nat →
  (length (words src) ≤ block_words)%nat →
  read_data src
  = Done (Ok (if m_tell src / 4 <? Z.of_nat (length (words src))
              then words src
              else replicate (length (words src)) 0)).
Proof.
  intros Hreg Hodd Hone.
  destruct (regular_size src Hreg) as [Hsize Hlimit].
  unfold read_data. rewrite Hsize, Hodd, Nat2Z.id.
  destruct (Z.ltb_spec (Z.of_nat (length (words src))) 0); [lia|].
  destruct (Z.ltb_spec (m_tell src / 4) (Z.of_nat (length (words src))))
    as [Hmore|Hless].
  - rewrite (read_blocks_step _ _ [] (words src)) by (done || by right).
    rewrite drop_ge, take_ge by lia. cbn [app length replicate].
    by rewrite app_nil_r, read_blocks_done by lia.
  - apply read_blocks_done. rewrite length_replicate. lia.
Qed.

Lemma small_file_read_witness :
  read_data {| file_size := 1536 + 4 * 403; count := 1; m_tell := 1536;
               words := [1; 2; 3] ++ replicate 400 9; odd_bytes := 0 |}
  = Done (Ok ([1; 2; 3] ++ replicate 400 9))
  ∧ read_data {| file_size := 1536 + 4 * 384; count := 1; m_tell := 1536;
                 words := replicate 384 9; odd_bytes := 0 |}
    = Done (Ok (replicate 384 0)).
Proof.
  split.
  - rewrite (small_file_read
               {| file_size := 1536 + 4 * 403; count := 1; m_tell := 1536;
                  words := [1; 2; 3] ++ replicate 400 9; odd_bytes := 0 |}).
    + vm_compute. reflexivity.
    + repeat split; vm_compute; try reflexivity; try discriminate. lia.
    + reflexivity.
    + vm_compute. lia.
  - rewrite (small_file_read
               {| file_size := 1536 + 4 * 384; count := 1; m_tell := 1536;
                  words := replicate 384 9; odd_bytes := 0 |}).
    + vm_compute. reflexivity.
    + repeat split; vm_compute; try reflexivity; try discriminate. lia.
    + reflexivity.
    + vm_compute. lia.
Defined.
